(** * z.ai2api_deno: the streaming translation engine, embedded and verified

    A shallow embedding of
      - [app/utils/sse_parser.ts]        (SSEParser.iterEvents),
      - [app/utils/tools.ts]             (extractToolInvocations, removeToolJsonContent),
      - [app/utils/helpers.ts]           (transformThinkingContent),
      - [app/core/response_handlers.ts]  (StreamResponseHandler, NonStreamResponseHandler),
    followed by the properties of the specification that concern them.

    JavaScript strings are sequences of UTF-16 code units: [jsstr] is a list
    of code units held in [N].  Generators are modelled by the list of values
    they yield; a thrown exception is an explicit outcome.  The built-ins
    that the code calls (trim, split, the regular expressions, JSON.parse,
    JSON.stringify, TextDecoder) are modelled from their standards.  Debug
    logging, which has no effect on what is returned or yielded, is left
    out. *)

From Stdlib Require Import NArith ZArith Bool String Ascii List Lia.
Import ListNotations.
Local Open Scope N_scope.
Set Warnings "-register-all,-abstract-large-number".


(* ================================================================== *)
(** ** JavaScript strings *)
(* ================================================================== *)

Module JS.

Definition jsstr := list N.

(** An ASCII literal as a JavaScript string. *)
Definition lit (s : string) : jsstr :=
  map N_of_ascii (list_ascii_of_string s).

(** The same, where an apostrophe in the literal stands for the double
    quote U+0022 (which the literals of this file never contain). *)
Definition q (s : string) : jsstr :=
  map (fun c => if c =? 39 then 34 else c) (lit s).

Definition nl : jsstr := [10].

Fixpoint eqb (a b : jsstr) : bool :=
  match a, b with
  | [], [] => true
  | x :: a', y :: b' => (x =? y) && eqb a' b'
  | _, _ => false
  end.

(** ECMAScript WhiteSpace and LineTerminator code units: what
    [String.prototype.trim] strips and what [\s] matches. *)
Definition is_space (c : N) : bool :=
  (c =? 9) || (c =? 10) || (c =? 11) || (c =? 12) || (c =? 13) || (c =? 32)
  || (c =? 160) || (c =? 5760) || ((8192 <=? c) && (c <=? 8202))
  || (c =? 8232) || (c =? 8233) || (c =? 8239) || (c =? 8287)
  || (c =? 12288) || (c =? 65279).

(** LineTerminator: where [^] matches under the [m] flag. *)
Definition is_line_terminator (c : N) : bool :=
  (c =? 10) || (c =? 13) || (c =? 8232) || (c =? 8233).

Fixpoint trimStart (s : jsstr) : jsstr :=
  match s with
  | [] => []
  | c :: s' => if is_space c then trimStart s' else s
  end.

Fixpoint trimEnd (s : jsstr) : jsstr :=
  match s with
  | [] => []
  | c :: s' =>
      match trimEnd s' with
      | [] => if is_space c then [] else [c]
      | t => c :: t
      end
  end.

Definition trim (s : jsstr) : jsstr := trimEnd (trimStart s).

(** [strip_prefix p s] is the rest of [s] after the prefix [p], if [s] starts
    with [p]. *)
Fixpoint strip_prefix (p s : jsstr) : option jsstr :=
  match p with
  | [] => Some s
  | x :: p' =>
      match s with
      | y :: s' => if x =? y then strip_prefix p' s' else None
      | [] => None
      end
  end.

Definition startsWith (s p : jsstr) : bool :=
  match strip_prefix p s with Some _ => true | None => false end.

(** [s.indexOf(c)] for a one-unit needle: [None] is JavaScript's -1. *)
Fixpoint indexOf (c : N) (s : jsstr) : option nat :=
  match s with
  | [] => None
  | x :: s' => if x =? c then Some O
               else match indexOf c s' with
                    | Some i => Some (S i)
                    | None => None
                    end
  end.

(** [s.substring(a, b)] and [s.substring(a)] at indices within range or
    beyond the end (the only uses of the program). *)
Definition substring (a b : nat) (s : jsstr) : jsstr := firstn (b - a) (skipn a s).
Definition substring_from (a : nat) (s : jsstr) : jsstr := skipn a s.

(** [s.split(sep)] for a non-empty separator.  [skip] counts the units of a
    separator still to be passed over; [acc] is the current piece,
    reversed. *)
Fixpoint split_go (sep : jsstr) (skip : nat) (acc : jsstr) (s : jsstr)
  : list jsstr :=
  match s with
  | [] => [rev acc]
  | c :: s' =>
      match skip with
      | S k => split_go sep k acc s'
      | O =>
          if startsWith s sep
          then rev acc :: split_go sep (List.length sep - 1) [] s'
          else split_go sep O (c :: acc) s'
      end
  end.

Definition split (sep s : jsstr) : list jsstr := split_go sep O [] s.

(** [pieces.join('')]. *)
Definition join (pieces : list jsstr) : jsstr := concat pieces.

(** Truthiness of a string: non-empty. *)
Definition truthy (s : jsstr) : bool :=
  match s with [] => false | _ => true end.

End JS.
Import JS.

(* ================================================================== *)
(** ** Regular expressions of the program *)
(* ================================================================== *)

(** The patterns of the program are sequences of literals, two-way
    alternations of literals, single character classes, and greedy or lazy
    stars over a character class.  [match_items] is the backtracking matcher
    of ECMAScript restricted to these: it returns the text consumed by each
    item (from which capture groups are read) and the rest of the input. *)
Module Regex.

Inductive item : Type :=
| Lit (l : jsstr)                 (* a literal *)
| Alt (a b : jsstr)               (* (?:a|b) *)
| Cls (p : N -> bool)             (* one unit of a class *)
| Star (p : N -> bool)            (* class*, greedy *)
| Lazy (p : N -> bool).           (* class*?, lazy *)

Definition pattern := list item.

Definition found : Type := list jsstr * jsstr.

Definition span_cons (sp : jsstr) (r : option found) : option found :=
  match r with
  | Some (sps, rest) => Some (sp :: sps, rest)
  | None => None
  end.

Definition span_push (c : N) (r : option found) : option found :=
  match r with
  | Some (sp :: sps, rest) => Some ((c :: sp) :: sps, rest)
  | _ => None
  end.

Fixpoint match_items (its : pattern) : jsstr -> option found :=
  match its with
  | [] => fun s => Some ([], s)
  | it :: more =>
      let k := match_items more in
      match it with
      | Lit l => fun s =>
          match strip_prefix l s with
          | Some s' => span_cons l (k s')
          | None => None
          end
      | Alt a b => fun s =>
          match (match strip_prefix a s with
                 | Some s' => span_cons a (k s')
                 | None => None
                 end) with
          | Some r => Some r
          | None =>
              match strip_prefix b s with
              | Some s' => span_cons b (k s')
              | None => None
              end
          end
      | Cls p => fun s =>
          match s with
          | c :: s' => if p c then span_cons [c] (k s') else None
          | [] => None
          end
      | Star p =>
          fix star (s : jsstr) : option found :=
            match (match s with
                   | c :: s' => if p c then span_push c (star s') else None
                   | [] => None
                   end) with
            | Some r => Some r
            | None => span_cons [] (k s)
            end
      | Lazy p =>
          fix lzy (s : jsstr) : option found :=
            match span_cons [] (k s) with
            | Some r => Some r
            | None =>
                match s with
                | c :: s' => if p c then span_push c (lzy s') else None
                | [] => None
                end
            end
      end
  end.

(** Whether a match may start after the unit [prev] ([None] at the start of
    the text) when the pattern begins with [^] under the [m] flag. *)
Definition at_line_start (prev : option N) : bool :=
  match prev with
  | None => true
  | Some c => is_line_terminator c
  end.

(** [text.replace(re, f)] for a global pattern: leftmost matches, none
    overlapping.  [bol] says that the pattern is anchored by [^] under the
    [m] flag; [skip] counts the units of the last match still to be passed
    over.  Every pattern of the program contains a literal, so no match is
    empty. *)
Fixpoint replace_go (bol : bool) (its : pattern) (f : list jsstr -> jsstr)
    (prev : option N) (skip : nat) (s : jsstr) : jsstr :=
  match s with
  | [] => []
  | c :: s' =>
      match skip with
      | S k => replace_go bol its f (Some c) k s'
      | O =>
          match (if negb bol || at_line_start prev
                 then match_items its s else None) with
          | Some (spans, _) =>
              f spans ++ replace_go bol its f (Some c) (List.length (concat spans) - 1) s'
          | None => c :: replace_go bol its f (Some c) O s'
          end
      end
  end.

Definition replace (its : pattern) (f : list jsstr -> jsstr) (s : jsstr) : jsstr :=
  replace_go false its f None O s.

Definition replace_str (its : pattern) (by_ : jsstr) (s : jsstr) : jsstr :=
  replace its (fun _ => by_) s.

Definition replace_bol_str (its : pattern) (by_ : jsstr) (s : jsstr) : jsstr :=
  replace_go true its (fun _ => by_) None O s.

(** [[...text.matchAll(re)]] and [text.match(re)] for a global pattern: the
    successive matches, each as the list of its items' texts. *)
Fixpoint match_all_go (its : pattern) (skip : nat) (s : jsstr)
  : list (list jsstr) :=
  match s with
  | [] => []
  | c :: s' =>
      match skip with
      | S k => match_all_go its k s'
      | O =>
          match match_items its s with
          | Some (spans, _) =>
              spans :: match_all_go its (List.length (concat spans) - 1) s'
          | None => match_all_go its O s'
          end
      end
  end.

Definition match_all (its : pattern) (s : jsstr) : list (list jsstr) :=
  match_all_go its O s.

Definition any (c : N) : bool := true.
Definition is_word (c : N) : bool :=
  ((48 <=? c) && (c <=? 57)) || ((65 <=? c) && (c <=? 90))
  || ((97 <=? c) && (c <=? 122)) || (c =? 95).

End Regex.
Import Regex.

(* ================================================================== *)
(** ** Configuration (app/core/config.ts) *)
(* ================================================================== *)

Record Config : Type := {
  PRIMARY_MODEL : jsstr;
  THINKING_PROCESSING : jsstr;
  SCAN_LIMIT : nat
}.

(* ================================================================== *)
(** ** transformThinkingContent (app/utils/helpers.ts) *)
(* ================================================================== *)

Module Helpers.

(** /<summary>[\s\S]*?<\/summary>/g *)
Definition SUMMARY_PATTERN : pattern :=
  [Lit (lit "<summary>"); Lazy any; Lit (lit "</summary>")].

(** /<details[^>]*>/g *)
Definition DETAILS_OPEN_PATTERN : pattern :=
  [Lit (lit "<details"); Star (fun c => negb (c =? 62)); Lit (lit ">")].

Definition transformThinkingContent (config : Config) (content : jsstr) : jsstr :=
  (* Remove summary tags *)
  let content := replace_str SUMMARY_PATTERN [] content in
  (* Clean up remaining tags *)
  let content :=
    replace_str [Lit (lit "</Full>")] []
      (replace_str [Lit (lit "<Full>")] []
         (replace_str [Lit (lit "</thinking>")] [] content)) in
  let content := trim content in
  let content :=
    if JS.eqb (THINKING_PROCESSING config) (lit "think") then
      replace_str [Lit (lit "</details>")] (lit "</span>")
        (replace_str DETAILS_OPEN_PATTERN (lit "<span>") content)
    else if JS.eqb (THINKING_PROCESSING config) (lit "strip") then
      replace_str [Lit (lit "</details>")] []
        (replace_str DETAILS_OPEN_PATTERN [] content)
    else content in
  (* Remove line prefixes *)
  let content := replace_bol_str [Lit (lit "> ")] [] content in
  let content := replace_str [Lit (nl ++ lit "> ")] nl content in
  trim content.

End Helpers.
Import Helpers.

(* ================================================================== *)
(** ** JSON values, JSON.parse and JSON.stringify *)
(* ================================================================== *)

(** The values [JSON.parse] builds, and the two built-ins on them.  A number
    keeps the exact decimal value of its source text, [(-1)^neg * coeff *
    10^exp10]; JavaScript rounds it to the nearest double.  Overflow to
    Infinity and underflow to zero are decided exactly; the digits that
    [Number::toString] prints are those of the source text, which is what
    JavaScript prints for up to 15 significant digits.  An object lists its
    properties in creation order, each key once. *)
Module Json.

Record number : Type := { neg : bool; coeff : N; exp10 : Z }.

Inductive value : Type :=
| Null
| Bool (b : bool)
| Num (n : number)
| Str (s : jsstr)
| Arr (items : list value)
| Obj (props : list (jsstr * value)).

(** *** Properties *)

Fixpoint lookup (key : jsstr) (props : list (jsstr * value)) : option value :=
  match props with
  | [] => None
  | (k, v) :: more => if JS.eqb k key then Some v else lookup key more
  end.

(** [obj[key] = v]: replaces in place, or appends. *)
Fixpoint assign (key : jsstr) (v : value) (props : list (jsstr * value))
  : list (jsstr * value) :=
  match props with
  | [] => [(key, v)]
  | (k, w) :: more =>
      if JS.eqb k key then (k, v) :: more else (k, w) :: assign key v more
  end.

(** The outcome of an expression that may throw. *)
Inductive res (A : Type) : Type :=
| Ok (a : A)
| Throw.
Arguments Ok {A} a.
Arguments Throw {A}.

(** [v.key] for the property names of the program (none is on a
    prototype): [Ok None] is [undefined]; reading a property of [null]
    throws a TypeError. *)
Definition get (v : value) (key : jsstr) : res (option value) :=
  match v with
  | Null => Throw
  | Obj props => Ok (lookup key props)
  | _ => Ok None
  end.

(** [key in v]: a TypeError unless [v] is an object or an array. *)
Definition has_in (key : jsstr) (v : value) : res bool :=
  match v with
  | Obj props => Ok (match lookup key props with Some _ => true | None => false end)
  | Arr _ => Ok false
  | _ => Throw
  end.

(** Whether the double nearest to the number is zero. *)
Definition rounds_to_zero (n : number) : bool :=
  (coeff n =? 0)
  || match exp10 n with
     | Zneg e => coeff n * 2 ^ 1075 <=? 10 ^ (Npos e)
     | _ => false
     end.

(** Whether the double nearest to the number is infinite. *)
Definition rounds_to_infinity (n : number) : bool :=
  match exp10 n with
  | Zneg e => (2 ^ 1024 - 2 ^ 970) * 10 ^ (Npos e) <=? coeff n
  | Z0 => 2 ^ 1024 - 2 ^ 970 <=? coeff n
  | Zpos e => 2 ^ 1024 - 2 ^ 970 <=? coeff n * 10 ^ (Npos e)
  end.

(** ToBoolean. *)
Definition truthy (v : value) : bool :=
  match v with
  | Null => false
  | Bool b => b
  | Num n => negb (rounds_to_zero n)
  | Str s => JS.truthy s
  | Arr _ | Obj _ => true
  end.

Definition truthy_opt (o : option value) : bool :=
  match o with Some v => truthy v | None => false end.

(** [typeof v === "object"] and [typeof v === "string"]. *)
Definition typeof_object (v : value) : bool :=
  match v with Null | Arr _ | Obj _ => true | _ => false end.

Definition typeof_string (v : value) : bool :=
  match v with Str _ => true | _ => false end.

(** *** JSON.parse *)

Definition is_ws (c : N) : bool :=
  (c =? 32) || (c =? 9) || (c =? 10) || (c =? 13).

Fixpoint skip_ws (s : jsstr) : jsstr :=
  match s with
  | c :: s' => if is_ws c then skip_ws s' else s
  | [] => []
  end.

Definition is_digit (c : N) : bool := (48 <=? c) && (c <=? 57).

(** The longest run of digits at the head of [s]: its value on top of [acc],
    how many there are, and the rest. *)
Fixpoint digits (acc : N) (n : nat) (s : jsstr) : N * nat * jsstr :=
  match s with
  | c :: s' => if is_digit c then digits (acc * 10 + (c - 48)) (S n) s'
               else (acc, n, s)
  | [] => (acc, n, [])
  end.

Definition parse_exponent (s : jsstr) : option (Z * jsstr) :=
  match s with
  | c :: s' =>
      if (c =? 101) || (c =? 69) then
        let '(sign, s'') :=
          match s' with
          | d :: t => if d =? 43 then (false, t)
                      else if d =? 45 then (true, t) else (false, s')
          | [] => (false, s')
          end in
        match digits 0 O s'' with
        | (_, O, _) => None
        | (e, _, rest) =>
            Some ((if sign then Z.opp (Z.of_N e) else Z.of_N e), rest)
        end
      else Some (0%Z, s)
  | [] => Some (0%Z, s)
  end.

Definition parse_fraction (int : N) (s : jsstr) : option (N * nat * jsstr) :=
  match s with
  | c :: s' =>
      if c =? 46 then
        match digits int O s' with
        | (_, O, _) => None
        | r => Some r
        end
      else Some (int, O, s)
  | [] => Some (int, O, s)
  end.

Definition parse_number (s : jsstr) : option (number * jsstr) :=
  let '(sign, s1) :=
    match s with
    | c :: t => if c =? 45 then (true, t) else (false, s)
    | [] => (false, s)
    end in
  let int :=
    match s1 with
    | c :: t =>
        if c =? 48 then Some (0, t)
        else if is_digit c then
          let '(v, _, rest) := digits 0 O s1 in Some (v, rest)
        else None
    | [] => None
    end in
  match int with
  | None => None
  | Some (i, s2) =>
      match parse_fraction i s2 with
      | None => None
      | Some (m, nfrac, s3) =>
          match parse_exponent s3 with
          | None => None
          | Some (e, s4) =>
              Some ({| neg := sign; coeff := m;
                       exp10 := (e - Z.of_nat nfrac)%Z |}, s4)
          end
      end
  end.

Definition hex_digit (c : N) : option N :=
  if is_digit c then Some (c - 48)
  else if (97 <=? c) && (c <=? 102) then Some (c - 87)
  else if (65 <=? c) && (c <=? 70) then Some (c - 55)
  else None.

Definition hex4 (a b c d : N) : option N :=
  match hex_digit a, hex_digit b, hex_digit c, hex_digit d with
  | Some x, Some y, Some z, Some w => Some (((x * 16 + y) * 16 + z) * 16 + w)
  | _, _, _, _ => None
  end.

Definition unescape (c : N) : option N :=
  if c =? 34 then Some 34 else if c =? 92 then Some 92
  else if c =? 47 then Some 47 else if c =? 98 then Some 8
  else if c =? 102 then Some 12 else if c =? 110 then Some 10
  else if c =? 114 then Some 13 else if c =? 116 then Some 9
  else None.

(** The units of a string literal after its opening quote, up to the
    closing one. *)
Fixpoint parse_string (s : jsstr) : option (jsstr * jsstr) :=
  match s with
  | [] => None
  | c :: s' =>
      if c =? 34 then Some ([], s')
      else if c =? 92 then
        match s' with
        | e :: t =>
            if e =? 117 then
              match t with
              | h1 :: h2 :: h3 :: h4 :: t' =>
                  match hex4 h1 h2 h3 h4 with
                  | Some u =>
                      match parse_string t' with
                      | Some (body, rest) => Some (u :: body, rest)
                      | None => None
                      end
                  | None => None
                  end
              | _ => None
              end
            else
              match unescape e with
              | Some u =>
                  match parse_string t with
                  | Some (body, rest) => Some (u :: body, rest)
                  | None => None
                  end
              | None => None
              end
        | [] => None
        end
      else if c <? 32 then None
      else
        match parse_string s' with
        | Some (body, rest) => Some (c :: body, rest)
        | None => None
        end
  end.

Definition parse_literal (word : jsstr) (v : value) (s : jsstr)
  : option (value * jsstr) :=
  match strip_prefix word s with
  | Some rest => Some (v, rest)
  | None => None
  end.

(** Recursive descent; each call spends one unit of [fuel]. *)
Fixpoint parse_value (fuel : nat) (s : jsstr) {struct fuel}
  : option (value * jsstr) :=
  match fuel with
  | O => None
  | S fuel' =>
      match skip_ws s with
      | [] => None
      | c :: s' =>
          if c =? 110 then parse_literal (lit "null") Null (c :: s')
          else if c =? 116 then parse_literal (lit "true") (Bool true) (c :: s')
          else if c =? 102 then parse_literal (lit "false") (Bool false) (c :: s')
          else if c =? 34 then
            match parse_string s' with
            | Some (body, rest) => Some (Str body, rest)
            | None => None
            end
          else if c =? 91 then
            match skip_ws s' with
            | 93 :: rest => Some (Arr [], rest)
            | _ =>
                match parse_elements fuel' s' with
                | Some (vs, rest) => Some (Arr vs, rest)
                | None => None
                end
            end
          else if c =? 123 then
            match skip_ws s' with
            | 125 :: rest => Some (Obj [], rest)
            | _ =>
                match parse_members fuel' [] s' with
                | Some (props, rest) => Some (Obj props, rest)
                | None => None
                end
            end
          else
            match parse_number (c :: s') with
            | Some (n, rest) => Some (Num n, rest)
            | None => None
            end
      end
  end

with parse_elements (fuel : nat) (s : jsstr) {struct fuel}
  : option (list value * jsstr) :=
  match fuel with
  | O => None
  | S fuel' =>
      match parse_value fuel' s with
      | None => None
      | Some (v, r) =>
          match skip_ws r with
          | c :: r' =>
              if c =? 44 then
                match parse_elements fuel' r' with
                | Some (vs, rest) => Some (v :: vs, rest)
                | None => None
                end
              else if c =? 93 then Some ([v], r')
              else None
          | [] => None
          end
      end
  end

with parse_members (fuel : nat) (props : list (jsstr * value)) (s : jsstr)
  {struct fuel} : option (list (jsstr * value) * jsstr) :=
  match fuel with
  | O => None
  | S fuel' =>
      match skip_ws s with
      | c :: s1 =>
          if c =? 34 then
            match parse_string s1 with
            | None => None
            | Some (key, s2) =>
                match skip_ws s2 with
                | d :: s3 =>
                    if d =? 58 then
                      match parse_value fuel' s3 with
                      | None => None
                      | Some (v, r) =>
                          let props' := assign key v props in
                          match skip_ws r with
                          | e :: r' =>
                              if e =? 44 then parse_members fuel' props' r'
                              else if e =? 125 then Some (props', r')
                              else None
                          | [] => None
                          end
                      end
                    else None
                | [] => None
                end
            end
          else None
      | [] => None
      end
  end.

(** [JSON.parse(text)]: [None] is a SyntaxError. *)
Definition parse (text : jsstr) : option value :=
  match parse_value (2 * List.length text + 2) text with
  | Some (v, rest) =>
      match skip_ws rest with
      | [] => Some v
      | _ => None
      end
  | None => None
  end.

(** *** JSON.stringify *)

Fixpoint uint_digits (u : Decimal.uint) : jsstr :=
  match u with
  | Decimal.Nil => []
  | Decimal.D0 u' => 48 :: uint_digits u'
  | Decimal.D1 u' => 49 :: uint_digits u'
  | Decimal.D2 u' => 50 :: uint_digits u'
  | Decimal.D3 u' => 51 :: uint_digits u'
  | Decimal.D4 u' => 52 :: uint_digits u'
  | Decimal.D5 u' => 53 :: uint_digits u'
  | Decimal.D6 u' => 54 :: uint_digits u'
  | Decimal.D7 u' => 55 :: uint_digits u'
  | Decimal.D8 u' => 56 :: uint_digits u'
  | Decimal.D9 u' => 57 :: uint_digits u'
  end.

(** The decimal digits of a natural number. *)
Definition decimal (n : N) : jsstr := uint_digits (N.to_uint n).

(** Drops the zeros at the end of a digit string, counting them. *)
Fixpoint strip_zeros (ds : jsstr) : jsstr * nat :=
  match ds with
  | [] => ([], O)
  | d :: ds' =>
      match strip_zeros ds' with
      | ([], z) => if d =? 48 then ([], S z) else ([d], z)
      | (t, z) => (d :: t, z)
      end
  end.

(** Number::toString on the digits of the source text.  JavaScript prints
    the shortest digits that name the nearest double; these are the digits
    of the source text for a number written with at most 15 significant
    digits, and may differ from them for a longer one. *)
Definition number_to_string (n : number) : jsstr :=
  if rounds_to_zero n then lit "0"
  else
    let '(ds, z) := strip_zeros (decimal (coeff n)) in
    let k := List.length ds in
    let pt := (Z.of_nat k + (exp10 n + Z.of_nat z))%Z in
    let body :=
      if ((Z.of_nat k <=? pt) && (pt <=? 21))%Z then
        ds ++ repeat 48 (Z.to_nat pt - k)
      else if ((0 <? pt) && (pt <=? 21))%Z then
        firstn (Z.to_nat pt) ds ++ [46] ++ skipn (Z.to_nat pt) ds
      else if ((-6 <? pt) && (pt <=? 0))%Z then
        [48; 46] ++ repeat 48 (Z.to_nat (- pt)) ++ ds
      else
        let e := (pt - 1)%Z in
        let mant :=
          match ds with
          | [] => []
          | [d] => [d]
          | d :: more => d :: 46 :: more
          end in
        mant ++ [101] ++ (if (e <? 0)%Z then [45] else [43])
             ++ decimal (Z.abs_N e) in
    (if neg n then [45] else []) ++ body.

Definition hex_unit (d : N) : N := if d <? 10 then d + 48 else d + 87.

(** [\uXXXX], in lower case. *)
Definition uescape (c : N) : jsstr :=
  [92; 117; hex_unit (c / 4096 mod 16); hex_unit (c / 256 mod 16);
   hex_unit (c / 16 mod 16); hex_unit (c mod 16)].

Definition is_high_surrogate (c : N) : bool := (55296 <=? c) && (c <=? 56319).
Definition is_low_surrogate (c : N) : bool := (56320 <=? c) && (c <=? 57343).

Definition escape_unit (c : N) : jsstr :=
  if c =? 34 then [92; 34] else if c =? 92 then [92; 92]
  else if c =? 8 then [92; 98] else if c =? 12 then [92; 102]
  else if c =? 10 then [92; 110] else if c =? 13 then [92; 114]
  else if c =? 9 then [92; 116]
  else if c <? 32 then uescape c
  else [c].

Fixpoint quote_body (s : jsstr) : jsstr :=
  match s with
  | [] => []
  | c :: s' =>
      if is_high_surrogate c then
        match s' with
        | d :: s'' =>
            if is_low_surrogate d then c :: d :: quote_body s''
            else uescape c ++ quote_body s'
        | [] => uescape c
        end
      else if is_low_surrogate c then uescape c ++ quote_body s'
      else escape_unit c ++ quote_body s'
  end.

(** QuoteJSONString. *)
Definition quote (s : jsstr) : jsstr := [34] ++ quote_body s ++ [34].

(** A canonical array index: these keys come first, in ascending order,
    when the properties of an object are enumerated. *)
Definition array_index (key : jsstr) : option N :=
  match key with
  | [] => None
  | c :: more =>
      if forallb is_digit key && ((c =? 48) && (match more with [] => true | _ => false end)
                                  || negb (c =? 48))
      then let '(v, _, _) := digits 0 O key in
           if v <=? 4294967294 then Some v else None
      else None
  end.

Fixpoint insert_index {A} (i : N) (a : A) (l : list (N * A)) : list (N * A) :=
  match l with
  | [] => [(i, a)]
  | (j, b) :: more => if i <? j then (i, a) :: l else (j, b) :: insert_index i a more
  end.

(** OrdinaryOwnPropertyKeys, on rendered members. *)
Fixpoint own_order {A} (members : list (jsstr * A)) : list (N * A) * list A :=
  match members with
  | [] => ([], [])
  | (k, a) :: more =>
      let '(idx, others) := own_order more in
      match array_index k with
      | Some i => (insert_index i a idx, others)
      | None => (idx, a :: others)
      end
  end.

Fixpoint commas (pieces : list jsstr) : jsstr :=
  match pieces with
  | [] => []
  | [p] => p
  | p :: more => p ++ [44] ++ commas more
  end.

(** [JSON.stringify(v)] for a value that [JSON.parse] built. *)
Fixpoint stringify (v : value) : jsstr :=
  match v with
  | Null => lit "null"
  | Bool true => lit "true"
  | Bool false => lit "false"
  | Num n => if rounds_to_infinity n then lit "null" else number_to_string n
  | Str s => quote s
  | Arr items => [91] ++ commas (map stringify items) ++ [93]
  | Obj props =>
      let members :=
        (fix render (ps : list (jsstr * value)) : list (jsstr * jsstr) :=
           match ps with
           | [] => []
           | (k, w) :: more => (k, quote k ++ [58] ++ stringify w) :: render more
           end) props in
      let '(idx, others) := own_order members in
      [123] ++ commas (map snd idx ++ others) ++ [125]
  end.

End Json.

Import Json.

(* ================================================================== *)
(** ** Tool invocations (app/utils/tools.ts) *)
(* ================================================================== *)

Module Tools.

(** /```json\s*(\{.*?\})\s*```/gs *)
Definition TOOL_CALL_FENCE_PATTERN : pattern :=
  [Lit (lit "```json"); Star is_space; Lit (lit "{"); Lazy any; Lit (lit "}");
   Star is_space; Lit (lit "```")].

(** /调用函数\s*[：:]\s*([\w\-\.]+)\s*(?:参数|arguments)[：:]\s*(\{.*?\})/gs,
    the ideographs by their code units. *)
Definition is_colon (c : N) : bool := (c =? 65306) || (c =? 58).
Definition is_name_unit (c : N) : bool := is_word c || (c =? 45) || (c =? 46).

Definition FUNCTION_CALL_PATTERN : pattern :=
  [Lit [35843; 29992; 20989; 25968]; Star is_space; Cls is_colon; Star is_space;
   Cls is_name_unit; Star is_name_unit; Star is_space;
   Alt [21442; 25968] (lit "arguments"); Cls is_colon; Star is_space;
   Lit (lit "{"); Lazy any; Lit (lit "}")].

(** [match[0]] and [match[1]] of a match of the fence pattern. *)
Definition whole (spans : list jsstr) : jsstr := concat spans.

Definition fence_group (spans : list jsstr) : jsstr :=
  nth 2 spans [] ++ nth 3 spans [] ++ nth 4 spans [].

Definition tool_calls_key : jsstr := lit "tool_calls".
Definition function_key : jsstr := lit "function".
Definition arguments_key : jsstr := lit "arguments".

Definition set_prop (obj : value) (key : jsstr) (v : value) : value :=
  match obj with
  | Obj props => Obj (assign key v props)
  | _ => obj
  end.

(** The body of [for (const tc of toolCalls)]: ensure the arguments field is
    a string.  [tc.function] throws when [tc] is null. *)
Definition ensure_arguments_string (tc : value) : res value :=
  match get tc function_key with
  | Throw => Throw
  | Ok None => Ok tc
  | Ok (Some func) =>
      if truthy func then
        match get func arguments_key with
        | Throw => Throw
        | Ok None => Ok tc
        | Ok (Some args) =>
            if truthy args then
              if typeof_object args then
                Ok (set_prop tc function_key
                      (set_prop func arguments_key (Str (stringify args))))
              else if negb (typeof_string args) then
                Ok (set_prop tc function_key
                      (set_prop func arguments_key (Str (stringify args))))
              else Ok tc
            else Ok tc
        end
      else Ok tc
  end.

Fixpoint ensure_all (toolCalls : list value) : res (list value) :=
  match toolCalls with
  | [] => Ok []
  | tc :: more =>
      match ensure_arguments_string tc with
      | Throw => Throw
      | Ok tc' =>
          match ensure_all more with
          | Throw => Throw
          | Ok more' => Ok (tc' :: more')
          end
      end
  end.

(** The [try] block shared by the first two attempts: [Some] is its
    [return toolCalls]; [None] is falling through or that an exception was
    caught. *)
Definition try_tool_calls (jsonStr : jsstr) : option (list value) :=
  match parse jsonStr with
  | None => None
  | Some parsedData =>
      match get parsedData tool_calls_key with
      | Ok (Some (Arr toolCalls)) =>
          match ensure_all toolCalls with
          | Ok normalized => Some normalized
          | Throw => None
          end
      | _ => None
      end
  end.

Fixpoint first_tool_calls (candidates : list jsstr) : option (list value) :=
  match candidates with
  | [] => None
  | c :: more =>
      match try_tool_calls c with
      | Some toolCalls => Some toolCalls
      | None => first_tool_calls more
      end
  end.

(** The inner [while] of the bracket balance method, entered after an
    opening brace: how many units it passes until [braceCount] is zero;
    [None] when the text ends first. *)
Fixpoint balance (braceCount : nat) (inString escapeNext : bool) (j : nat)
    (s : jsstr) : option nat :=
  match braceCount with
  | O => Some j
  | S below =>
      match s with
      | [] => None
      | c :: s' =>
          if escapeNext then balance braceCount inString false (S j) s'
          else if c =? 92 then balance braceCount inString true (S j) s'
          else if c =? 34 then balance braceCount (negb inString) false (S j) s'
          else if negb inString then
            if c =? 123 then balance (S braceCount) inString false (S j) s'
            else if c =? 125 then balance below inString false (S j) s'
            else balance braceCount inString false (S j) s'
          else balance braceCount inString false (S j) s'
      end
  end.

(** The candidate [substring(i, j)] for the opening brace at the head of
    [c :: s']. *)
Definition candidate (c : N) (s' : jsstr) : option jsstr :=
  match balance 1 false false O s' with
  | Some n => Some (c :: firstn n s')
  | None => None
  end.

(** Attempt 2 of the extraction. *)
Fixpoint scan_inline (s : jsstr) : option (list value) :=
  match s with
  | [] => None
  | c :: s' =>
      if c =? 123 then
        match match candidate c s' with
              | Some jsonStr => try_tool_calls jsonStr
              | None => None
              end with
        | Some toolCalls => Some toolCalls
        | None => scan_inline s'
        end
      else scan_inline s'
  end.

(** [extractToolInvocations(text)], at the clock reading [now] (the
    milliseconds of [Date.now()]).  [Ok None] is [null]; [Throw] is a
    TypeError leaving the function. *)
Definition extractToolInvocations (config : Config) (now : N) (text : jsstr)
  : res (option (list value)) :=
  if negb (JS.truthy text) then Ok None
  else
    (* Limit scan size for performance *)
    let scannableText := substring 0 (SCAN_LIMIT config) text in
    (* Attempt 1: Extract from JSON code blocks *)
    let jsonBlocks := match_all TOOL_CALL_FENCE_PATTERN scannableText in
    match first_tool_calls (map fence_group jsonBlocks) with
    | Some toolCalls => Ok (Some toolCalls)
    | None =>
        (* Attempt 2: Extract inline JSON objects using bracket balance method *)
        match scan_inline scannableText with
        | Some toolCalls => Ok (Some toolCalls)
        | None =>
            (* Attempt 3: Parse natural language function calls.  The
               pattern is global, so [match] returns the matched texts. *)
            match map whole (match_all FUNCTION_CALL_PATTERN scannableText) with
            | [] => Ok None
            | naturalLangMatch =>
                match nth_error naturalLangMatch 1 with
                | None => Throw
                | Some m1 =>
                    let functionName := trim m1 in
                    match nth_error naturalLangMatch 2 with
                    | None => Throw
                    | Some m2 =>
                        let argumentsStr := trim m2 in
                        match parse argumentsStr with
                        | Some _ =>
                            Ok (Some
                              [Obj [(lit "id",
                                     Str (lit "call_" ++ decimal (now * 1000000)));
                                    (lit "type", Str (lit "function"));
                                    (function_key,
                                     Obj [(lit "name", Str functionName);
                                          (arguments_key, Str argumentsStr)])]])
                        | None => Ok None
                        end
                    end
                end
            end
        end
    end.

(** [removeToolCallBlock(match)].  [String.prototype.replace] calls it with
    the matched text as first argument, so that [match[1]] and [match[0]]
    are the second and the first unit of the matched text, not the group
    and the match. *)
Definition removeToolCallBlock (match_ : jsstr) : jsstr :=
  let match_0 :=
    match match_ with
    | c :: _ => [c]
    | [] => lit "undefined"
    end in
  match nth_error match_ 1 with
  | None => match_0                (* JSON.parse(undefined) throws *)
  | Some unit1 =>
      let jsonContent := [unit1] in
      match parse jsonContent with
      | Some parsedData =>
          match has_in tool_calls_key parsedData with
          | Ok true => []
          | _ => match_0
          end
      | None => match_0
      end
  end.

(** Whether step 2 of the removal skips the candidate. *)
Definition is_tool_call (jsonStr : jsstr) : bool :=
  match parse jsonStr with
  | Some parsed =>
      match has_in tool_calls_key parsed with
      | Ok true => true
      | _ => false
      end
  | None => false
  end.

(** Step 2 of the removal; [skip] counts the units of a removed object
    still to be passed over. *)
Fixpoint remove_inline (skip : nat) (s : jsstr) : jsstr :=
  match s with
  | [] => []
  | c :: s' =>
      match skip with
      | S k => remove_inline k s'
      | O =>
          if c =? 123 then
            match balance 1 false false O s' with
            | Some n =>
                if is_tool_call (c :: firstn n s') then remove_inline n s'
                else c :: remove_inline O s'
            | None => c :: remove_inline O s'
            end
          else c :: remove_inline O s'
      end
  end.

Definition removeToolJsonContent (text : jsstr) : jsstr :=
  (* Step 1: Remove fenced tool JSON blocks *)
  let cleanedText :=
    replace TOOL_CALL_FENCE_PATTERN (fun spans => removeToolCallBlock (whole spans))
      text in
  (* Step 2: Remove inline tool JSON *)
  trim (remove_inline O cleanedText).

End Tools.
Import Tools.

(* ================================================================== *)
(** ** TextDecoder: the streaming UTF-8 decoder *)
(* ================================================================== *)

(** [decoder.decode(value, { stream: true })] of a [new TextDecoder()]: the
    UTF-8 decoder of the Encoding Standard, one byte at a time, errors
    replaced by U+FFFD, a leading byte order mark dropped, the code points
    written as UTF-16 code units. *)
Module Utf8.

Record state : Type := {
  code_point : N;
  bytes_seen : N;
  bytes_needed : N;
  lower_boundary : N;
  upper_boundary : N;
  bom_seen : bool
}.

Definition initial : state :=
  {| code_point := 0; bytes_seen := 0; bytes_needed := 0;
     lower_boundary := 128; upper_boundary := 191; bom_seen := false |}.

Definition reset (st : state) : state :=
  {| code_point := 0; bytes_seen := 0; bytes_needed := 0;
     lower_boundary := 128; upper_boundary := 191; bom_seen := bom_seen st |}.

Definition expect (st : state) (needed lower upper cp : N) : state :=
  {| code_point := cp; bytes_seen := 0; bytes_needed := needed;
     lower_boundary := lower; upper_boundary := upper; bom_seen := bom_seen st |}.

(** A byte read when no sequence is open. *)
Definition lead (st : state) (b : N) : state * list N :=
  if b <=? 127 then (st, [b])
  else if (194 <=? b) && (b <=? 223) then (expect st 1 128 191 (N.land b 31), [])
  else if (224 <=? b) && (b <=? 239) then
    (expect st 2 (if b =? 224 then 160 else 128) (if b =? 237 then 159 else 191)
       (N.land b 15), [])
  else if (240 <=? b) && (b <=? 244) then
    (expect st 3 (if b =? 240 then 144 else 128) (if b =? 244 then 143 else 191)
       (N.land b 7), [])
  else (st, [65533]).

(** One byte: the new state and the code points it completes. *)
Definition step (st : state) (b : N) : state * list N :=
  if bytes_needed st =? 0 then lead st b
  else if negb ((lower_boundary st <=? b) && (b <=? upper_boundary st)) then
    let '(st', out) := lead (reset st) b in (st', 65533 :: out)
  else
    let cp := N.lor (N.shiftl (code_point st) 6) (N.land b 63) in
    if bytes_seen st + 1 =? bytes_needed st then (reset st, [cp])
    else
      ({| code_point := cp; bytes_seen := bytes_seen st + 1;
          bytes_needed := bytes_needed st;
          lower_boundary := 128; upper_boundary := 191;
          bom_seen := bom_seen st |}, []).

(** The UTF-16 code units of a code point. *)
Definition units (cp : N) : jsstr :=
  if cp <=? 65535 then [cp]
  else [55296 + (cp - 65536) / 1024; 56320 + (cp - 65536) mod 1024].

(** Serialising the decoded code points: the first one is dropped when it
    is the byte order mark. *)
Fixpoint serialize (seen : bool) (cps : list N) : bool * jsstr :=
  match cps with
  | [] => (seen, [])
  | cp :: more =>
      let '(seen', text) := serialize true more in
      (seen', if negb seen && (cp =? 65279) then text else units cp ++ text)
  end.

Definition set_bom (st : state) (seen : bool) : state :=
  {| code_point := code_point st; bytes_seen := bytes_seen st;
     bytes_needed := bytes_needed st; lower_boundary := lower_boundary st;
     upper_boundary := upper_boundary st; bom_seen := seen |}.

Definition decode_byte (st : state) (b : Byte.byte) : state * jsstr :=
  let '(st', cps) := step st (Byte.to_N b) in
  let '(seen, text) := serialize (bom_seen st') cps in
  (set_bom st' seen, text).

(** [decode(value, { stream: true })]. *)
Fixpoint decode (st : state) (value : list Byte.byte) : state * jsstr :=
  match value with
  | [] => (st, [])
  | b :: more =>
      let '(st1, t1) := decode_byte st b in
      let '(st2, t2) := decode st1 more in
      (st2, t1 ++ t2)
  end.

End Utf8.

(* ================================================================== *)
(** ** SSEParser (app/utils/sse_parser.ts) *)
(* ================================================================== *)

Module SSE.

(** [parseInt(text, 10)]: [None] is NaN. *)
Definition parseInt (text : jsstr) : option number :=
  let s := trimStart text in
  let '(sign, s1) :=
    match s with
    | c :: t => if c =? 45 then (true, t)
                else if c =? 43 then (false, t) else (false, s)
    | [] => (false, s)
    end in
  match digits 0 O s1 with
  | (_, O, _) => None
  | (v, _, _) => Some {| neg := sign; coeff := v; exp10 := 0 |}
  end.

Inductive SSEEvent : Type :=
| DataEvent (data : value) (raw : jsstr) (is_json : bool)
| EventEvent (event : jsstr)
| IdEvent (id : jsstr)
| RetryEvent (retry : option number).

(** How a response body ends: [reader.read()] reports [done], or rejects. *)
Inductive Ending : Type := EndOfData | ReadFails.

(** The body of [for (const line of lines)]: the events one line yields. *)
Definition decode_line (line : jsstr) : list SSEEvent :=
  (* Skip empty lines *)
  if negb (JS.truthy (trim line)) then []
  (* Skip comment lines *)
  else if startsWith line (lit ":") then []
  else
    (* Parse field-value pairs *)
    match indexOf 58 line with
    | None => []
    | Some colonIndex =>
        let field := trim (substring 0 colonIndex line) in
        let value := trim (substring_from (colonIndex + 1) line) in
        if JS.eqb field (lit "data") then
          match parse value with
          | Some data => [DataEvent data value true]
          | None => [DataEvent (Str value) value false]
          end
        else if JS.eqb field (lit "event") then [EventEvent value]
        else if JS.eqb field (lit "id") then [IdEvent value]
        else if JS.eqb field (lit "retry") then [RetryEvent (parseInt value)]
        else []
    end.

(** The [while (true)] of [iterEvents], from the decoder state and the
    buffer: what it yields, and whether it returns or throws. *)
Fixpoint read_loop (decoder : Utf8.state) (buffer : jsstr)
    (chunks : list (list Byte.byte)) (ending : Ending)
  : list SSEEvent * res unit :=
  match chunks with
  | [] =>
      match ending with
      | EndOfData => ([], Ok tt)
      | ReadFails => ([], Throw)
      end
  | value :: more =>
      let '(decoder', text) := Utf8.decode decoder value in
      let buffer := buffer ++ text in
      let lines := split nl buffer in
      (* Keep the last incomplete line in buffer *)
      let buffer' := last lines [] in
      let lines := removelast lines in
      let '(later, outcome) := read_loop decoder' buffer' more ending in
      (flat_map decode_line lines ++ later, outcome)
  end.

(** [iterEvents()] over a body read as [chunks]. *)
Definition iterEvents (chunks : list (list Byte.byte)) (ending : Ending)
  : list SSEEvent * res unit :=
  read_loop Utf8.initial [] chunks ending.

End SSE.
Import SSE.

(* ================================================================== *)
(** ** Upstream frames (app/models/schemas.ts) *)
(* ================================================================== *)

Record Usage : Type := {
  prompt_tokens : number;
  completion_tokens : number;
  total_tokens : number
}.

Record UpstreamError : Type := {
  detail : jsstr;
  code : number
}.

Record UpstreamDataInner : Type := {
  inner_error : option UpstreamError
}.

Record UpstreamDataData : Type := {
  delta_content : jsstr;
  edit_content : jsstr;
  phase : jsstr;
  done : bool;
  usage : option Usage;
  data_error : option UpstreamError;
  inner : option UpstreamDataInner
}.

Record UpstreamData : Type := {
  type : jsstr;
  data : UpstreamDataData;
  error : option UpstreamError
}.

(* ================================================================== *)
(** ** Response handlers (app/core/response_handlers.ts) *)
(* ================================================================== *)

Module Handlers.

(** The [delta] of a chunk. *)
Inductive Delta : Type :=
| NoDelta                                   (* delta || {} *)
| RoleDelta (role : jsstr)                  (* { role } *)
| ContentDelta (content : jsstr)            (* { content } *)
| ReasoningDelta (reasoning_content : jsstr)
| ToolCallDelta (index : nat) (id : option value) (type_ : value)
                (function : value).         (* { tool_calls: [toolCallDelta] } *)

(** What a handler yields: the text [data: ] followed by the JSON of a
    chunk of [createOpenAIResponseChunk] (its id and creation time, read off
    the clock, are left out), the end marker [data: [DONE]], or an error
    object. *)
Inductive Line : Type :=
| Chunk (model : jsstr) (delta : Delta) (finish_reason : option jsstr)
| DONE
| ErrorLine (message : jsstr).

(** The fields of a [StreamResponseHandler]; [modelName] is
    [getModelConfig(this.upstreamReq.model).name]. *)
Record Handler : Type := {
  modelName : jsstr;
  hasTools : bool;
  bufferedContent : jsstr;
  toolCalls : option (list value);
  streamEnded : bool
}.

(** [new StreamResponseHandler(upstreamReq, chatId, authToken, hasTools)]. *)
Definition new_handler (model : jsstr) (tools : bool) : Handler :=
  {| modelName := model; hasTools := tools; bufferedContent := [];
     toolCalls := None; streamEnded := false |}.

Definition set_bufferedContent (h : Handler) (b : jsstr) : Handler :=
  {| modelName := modelName h; hasTools := hasTools h; bufferedContent := b;
     toolCalls := toolCalls h; streamEnded := streamEnded h |}.

Definition set_toolCalls (h : Handler) (t : option (list value)) : Handler :=
  {| modelName := modelName h; hasTools := hasTools h;
     bufferedContent := bufferedContent h;
     toolCalls := t; streamEnded := streamEnded h |}.

Definition set_streamEnded (h : Handler) (e : bool) : Handler :=
  {| modelName := modelName h; hasTools := hasTools h;
     bufferedContent := bufferedContent h;
     toolCalls := toolCalls h; streamEnded := e |}.

(** *** Generator methods

    A method [async *m()] of the handler is a function of the handler's
    fields: the lines it yields, the fields when it stops, and whether it
    returned or threw. *)
Definition Gen (A : Type) : Type := Handler -> list Line * Handler * res A.

Definition ret {A} (a : A) : Gen A := fun h => ([], h, Ok a).

Definition bind {A B} (m : Gen A) (f : A -> Gen B) : Gen B :=
  fun h =>
    match m h with
    | (out, h', Ok a) =>
        let '(out', h'', r) := f a h' in (out ++ out', h'', r)
    | (out, h', Throw) => (out, h', Throw)
    end.

Definition yield (l : Line) : Gen unit := fun h => ([l], h, Ok tt).
Definition throw {A} : Gen A := fun h => ([], h, Throw).
Definition this : Gen Handler := fun h => ([], h, Ok h).
Definition update (f : Handler -> Handler) : Gen unit := fun h => ([], f h, Ok tt).

(** [try { body } catch { handler }]. *)
Definition try_catch {A} (body handler : Gen A) : Gen A :=
  fun h =>
    match body h with
    | (out, h', Throw) =>
        let '(out', h'', r) := handler h' in (out ++ out', h'', r)
    | done_ => done_
    end.

(** [try { body } finally { cleanup }], for a cleanup that does not throw. *)
Definition try_finally {A} (body : Gen A) (cleanup : Gen unit) : Gen A :=
  fun h =>
    match body h with
    | (out, h', r) =>
        let '(out', h'', _) := cleanup h' in (out ++ out', h'', r)
    end.

Declare Scope gen_scope.
Delimit Scope gen_scope with gen.
Notation "x <- m ;; k" := (bind m (fun x => k))
  (at level 61, m at next level, right associativity) : gen_scope.
Notation "m ;; k" := (bind m (fun _ => k))
  (at level 61, right associativity) : gen_scope.
Local Open Scope gen_scope.

Definition stop : jsstr := lit "stop".
Definition done_phase : jsstr := lit "done".
Definition thinking : jsstr := lit "thinking".
Definition answer : jsstr := lit "answer".

(** [handleUpstreamError(error)]. *)
Definition handleUpstreamError (config : Config) (error : option UpstreamError)
  : Gen unit :=
  (* Send end chunk *)
  yield (Chunk (PRIMARY_MODEL config) NoDelta (Some stop)) ;;
  yield DONE.

Definition is_some {A} (o : option A) : bool :=
  match o with Some _ => true | None => false end.

(** [_hasError(upstreamData)]; an error object is truthy. *)
Definition _hasError (upstreamData : UpstreamData) : bool :=
  is_some (error upstreamData)
  || is_some (data_error (data upstreamData))
  || match inner (data upstreamData) with
     | Some i => is_some (inner_error i)
     | None => false
     end.

(** [_getError(upstreamData)]. *)
Definition _getError (upstreamData : UpstreamData) : option UpstreamError :=
  match error upstreamData with
  | Some e => Some e
  | None =>
      match data_error (data upstreamData) with
      | Some e => Some e
      | None =>
          match inner (data upstreamData) with
          | Some i => inner_error i
          | None => None
          end
      end
  end.

(** [_extractEditContent(editContent)]. *)
Definition _extractEditContent (editContent : jsstr) : jsstr :=
  let parts := split (lit "</details>") editContent in
  if Nat.ltb 1 (List.length parts) then nth 1 parts [] else [].

(** [_processContent(upstreamData, sentInitialAnswer)].  The assignment
    [sentInitialAnswer = true] in its body is to the parameter, a copy of
    the caller's variable: it has no effect after the method. *)
Definition _processContent (config : Config) (upstreamData : UpstreamData)
    (sentInitialAnswer : bool) : Gen unit :=
  let d := data upstreamData in
  let content :=
    if JS.truthy (delta_content d) then delta_content d else edit_content d in
  if negb (JS.truthy content) then ret tt
  else
    (* Transform thinking content *)
    let processedContent :=
      if JS.eqb (phase d) thinking then transformThinkingContent config content
      else content in
    h <- this ;;
    (* Buffer content if tools are enabled *)
    if hasTools h then
      update (fun h => set_bufferedContent h (bufferedContent h ++ processedContent))
    else
      (* Handle initial answer content *)
      (if negb sentInitialAnswer && JS.truthy (edit_content d)
          && JS.eqb (phase d) answer
       then
         let extractedContent := _extractEditContent (edit_content d) in
         if JS.truthy extractedContent
         then yield (Chunk (modelName h) (ContentDelta extractedContent) None)
         else ret tt
       else ret tt) ;;
      (* Handle delta content *)
      if JS.truthy (delta_content d) then
        if JS.truthy processedContent then
          if JS.eqb (phase d) thinking
          then yield (Chunk (modelName h) (ReasoningDelta processedContent) None)
          else yield (Chunk (modelName h) (ContentDelta processedContent) None)
        else ret tt
      else ret tt.

(** The [for] loop of [_sendEndChunk] over the extracted tool calls. *)
Fixpoint send_tool_calls (model : jsstr) (i : nat) (calls : list value)
  : Gen unit :=
  match calls with
  | [] => ret tt
  | tc :: more =>
      match get tc (lit "id"), get tc (lit "type"), get tc function_key with
      | Ok id, Ok ty, Ok fn =>
          yield (Chunk model
                   (ToolCallDelta i id
                      (if truthy_opt ty then
                         match ty with Some t => t | None => Null end
                       else Str (lit "function"))
                      (if truthy_opt fn then
                         match fn with Some f => f | None => Null end
                       else Obj []))
                   None) ;;
          send_tool_calls model (S i) more
      | _, _, _ => throw
      end
  end.

(** [_sendEndChunk()]. *)
Definition _sendEndChunk (config : Config) (now : N) : Gen unit :=
  h <- this ;;
  if streamEnded h then ret tt
  else
    finishReason <-
      (if hasTools h then
         (* Try to extract tool calls from buffered content *)
         match extractToolInvocations config now (bufferedContent h) with
         | Throw => throw
         | Ok extracted =>
             update (fun h => set_toolCalls h extracted) ;;
             match extracted with
             | Some calls =>
                 send_tool_calls (modelName h) O calls ;;
                 ret (lit "tool_calls")
             | None =>
                 (* Send regular content *)
                 let trimmedContent := removeToolJsonContent (bufferedContent h) in
                 (if JS.truthy trimmedContent
                  then yield (Chunk (modelName h) (ContentDelta trimmedContent) None)
                  else ret tt) ;;
                 ret stop
             end
         end
       else ret stop) ;;
    (* Send final chunk *)
    yield (Chunk (modelName h) NoDelta (Some finishReason)) ;;
    yield DONE ;;
    update (fun h => set_streamEnded h true).

(** The [for await] of [handle] over the frames that [iterJsonData]
    yields, a body that ends as [ending] says. *)
Fixpoint process_stream (config : Config) (now : N) (sentInitialAnswer : bool)
    (frames : list UpstreamData) (ending : Ending) : Gen unit :=
  match frames with
  | [] =>
      match ending with
      | EndOfData => ret tt
      | ReadFails => throw
      end
  | upstreamData :: more =>
      (* Check for errors *)
      if _hasError upstreamData then
        let error := _getError upstreamData in
        h <- this ;;
        if negb (streamEnded h) then
          handleUpstreamError config error ;;
          update (fun h => set_streamEnded h true)
        else ret tt
        (* break *)
      else
        (* Process content *)
        _processContent config upstreamData sentInitialAnswer ;;
        (* Check if done *)
        h <- this ;;
        if (done (data upstreamData) || JS.eqb (phase (data upstreamData)) done_phase)
           && negb (streamEnded h)
        then
          _sendEndChunk config now ;;
          update (fun h => set_streamEnded h true)
          (* break *)
        else process_stream config now sentInitialAnswer more ending
  end.

(** What [_callUpstream()] gives [handle]: an exception, or a response
    with its [ok] flag and the frames read from its body. *)
Inductive Upstream : Type :=
| CallFails
| Responds (ok : bool) (frames : list UpstreamData) (ending : Ending).

(** [StreamResponseHandler.handle()]. *)
Definition handle (config : Config) (now : N) (upstream : Upstream) : Gen unit :=
  match upstream with
  | CallFails => yield (ErrorLine (lit "Failed to call upstream"))
  | Responds false _ _ => yield (ErrorLine (lit "Upstream error"))
  | Responds true frames ending =>
      h <- this ;;
      (* Send initial role chunk *)
      yield (Chunk (modelName h) (RoleDelta (lit "assistant")) None) ;;
      (* Process stream *)
      let sentInitialAnswer := false in
      try_finally
        (try_catch
           (process_stream config now sentInitialAnswer frames ending)
           (h <- this ;;
            if negb (streamEnded h) then
              yield (Chunk (modelName h) NoDelta (Some stop)) ;;
              yield DONE ;;
              update (fun h => set_streamEnded h true)
            else ret tt))
        (h <- this ;;
         if negb (streamEnded h)
         then update (fun h => set_streamEnded h true)
         else ret tt)
  end.

(** The lines a fresh handler yields. *)
Definition stream_output (config : Config) (now : N) (model : jsstr)
    (tools : bool) (upstream : Upstream) : list Line :=
  fst (fst (handle config now upstream (new_handler model tools))).

(** *** NonStreamResponseHandler *)

(** The [for await] of the non-streaming [handle]: the pieces pushed on
    [fullContent]. *)
Fixpoint collect (config : Config) (frames : list UpstreamData)
    (ending : Ending) : res (list jsstr) :=
  match frames with
  | [] =>
      match ending with
      | EndOfData => Ok []
      | ReadFails => Throw
      end
  | upstreamData :: more =>
      let d := data upstreamData in
      let pushed :=
        if JS.truthy (delta_content d) then
          let content :=
            if JS.eqb (phase d) thinking
            then transformThinkingContent config (delta_content d)
            else delta_content d in
          if JS.truthy content then [content] else []
        else [] in
      if done d || JS.eqb (phase d) done_phase then Ok pushed
      else
        match collect config more ending with
        | Ok later => Ok (pushed ++ later)
        | Throw => Throw
        end
  end.

(** The response of the non-streaming handler: its status, and either an
    error object or the message of the completion ([None] is null). *)
Inductive Body : Type :=
| ErrorBody (message : jsstr)
| Completion (model : jsstr) (content : option jsstr)
             (tool_calls : option (list value)) (finish_reason : jsstr).

Record Response : Type := { status : nat; body : Body }.

(** [NonStreamResponseHandler.handle()]; [Throw] is a rejected promise. *)
Definition handle_full (config : Config) (now : N) (model : jsstr)
    (tools : bool) (upstream : Upstream) : res Response :=
  match upstream with
  | CallFails =>
      Ok {| status := 502; body := ErrorBody (lit "Failed to call upstream") |}
  | Responds false _ _ =>
      Ok {| status := 502; body := ErrorBody (lit "Upstream error") |}
  | Responds true frames ending =>
      (* Collect full response *)
      match collect config frames ending with
      | Throw => Throw
      | Ok fullContent =>
          let finalContent := join fullContent in
          (* Handle tool calls for non-streaming *)
          if tools then
            match extractToolInvocations config now finalContent with
            | Throw => Throw
            | Ok (Some calls) =>
                Ok {| status := 200;
                      body := Completion model None (Some calls) (lit "tool_calls") |}
            | Ok None =>
                (* Remove tool JSON from content *)
                let messageContent := removeToolJsonContent finalContent in
                Ok {| status := 200;
                      body := Completion model
                                (Some (if JS.truthy messageContent
                                       then messageContent else finalContent))
                                None stop |}
            end
          else
            Ok {| status := 200;
                  body := Completion model (Some finalContent) None stop |}
      end
  end.

End Handlers.
Import Handlers.

(* ================================================================== *)
(** ** Reading the output of the stream handler *)
(* ================================================================== *)

(** A finish-reason chunk, the end marker: the two lines of a terminal
    sequence. *)
Definition is_finish (l : Line) : bool :=
  match l with Chunk _ _ (Some _) => true | _ => false end.

Definition is_done_marker (l : Line) : bool :=
  match l with DONE => true | _ => false end.

Definition terminal_free (out : list Line) : bool :=
  forallb (fun l => negb (is_finish l || is_done_marker l)) out.

(** The terminal sequences of an output: the finish-reason chunks that the
    end marker follows at once. *)
Fixpoint terminal_sequences (out : list Line) : nat :=
  match out with
  | l :: ((l' :: _) as more) =>
      (if is_finish l && is_done_marker l' then 1 else 0)%nat
      + terminal_sequences more
  | _ => O
  end.

(** A frame that satisfies a terminal condition: it carries an error, or
    says that the response is done. *)
Definition is_terminal (f : UpstreamData) : bool :=
  _hasError f || done (data f) || JS.eqb (phase (data f)) done_phase.

(** Whether the stream handler meets a terminal condition: a terminal frame,
    or an exception while the stream is read. *)
Definition terminal_condition (upstream : Upstream) : bool :=
  match upstream with
  | Responds true frames ending =>
      existsb is_terminal frames
      || match ending with ReadFails => true | EndOfData => false end
  | _ => false
  end.

(** How many terminal sequences, finish-reason chunks and end markers an
    output holds, when all three numbers agree. *)
Definition terminal_count (out : list Line) (n : nat) : Prop :=
  terminal_sequences out = n
  /\ List.length (filter is_finish out) = n
  /\ List.length (filter is_done_marker out) = n.

(** How a run of a generator method stands with respect to the terminal
    sequence: it returned having closed the stream with one terminal
    sequence, at the end of what it yielded; it threw before any terminal
    line; it returned without any terminal line. *)
Definition Run : Type := (list Line * Handler * res unit)%type.

Definition closes (run : Run) : Prop :=
  let '(out, h, r) := run in
  r = Ok tt /\ streamEnded h = true
  /\ exists pre m reason,
       out = pre ++ [Chunk m NoDelta (Some reason); DONE]
       /\ terminal_free pre = true.

Definition throws_open (run : Run) : Prop :=
  let '(out, h, r) := run in
  r = Throw /\ streamEnded h = false /\ terminal_free out = true.

Definition stays_open (run : Run) : Prop :=
  let '(out, h, r) := run in
  r = Ok tt /\ streamEnded h = false /\ terminal_free out = true.

(** Two frames that differ at most in what [collect] does not read. *)
Definition same_but_edit (f g : UpstreamData) : Prop :=
  delta_content (data f) = delta_content (data g)
  /\ phase (data f) = phase (data g)
  /\ done (data f) = done (data g).

(** How [iterEvents] stops on a body that ends as [ending] says. *)
Definition outcome (ending : Ending) : res unit :=
  match ending with EndOfData => Ok tt | ReadFails => Throw end.

(* ================================================================== *)
(** ** The spans of a text *)
(* ================================================================== *)

Fixpoint prefixes (s : jsstr) : list jsstr :=
  [] :: match s with
        | [] => []
        | c :: s' => map (cons c) (prefixes s')
        end.

(** Every contiguous run of units of a text. *)
Fixpoint spans (s : jsstr) : list jsstr :=
  prefixes s ++ match s with
                | [] => []
                | _ :: s' => spans s'
                end.

(** No span of the text is, for [removeToolJsonContent], a tool call: a
    JSON object with a [tool_calls] key. *)
Definition no_tool_call_span (text : jsstr) : bool :=
  forallb (fun span => negb (is_tool_call span)) (spans text).

(** The fence pattern matches nowhere in the text. *)
Definition no_fenced_block (text : jsstr) : bool :=
  match match_all TOOL_CALL_FENCE_PATTERN text with
  | [] => true
  | _ => false
  end.

(** The list [calls] is what the extraction makes of the [tool_calls]
    array of a JSON object that spans a stretch of the text. *)
Definition found_in (text : jsstr) (calls : list value) : Prop :=
  exists pre jsonStr post parsed array,
    text = pre ++ jsonStr ++ post
    /\ parse jsonStr = Some parsed
    /\ get parsed tool_calls_key = Ok (Some (Arr array))
    /\ ensure_all array = Ok calls.

(* ================================================================== *)
(** ** Sample data *)
(* ================================================================== *)

Definition config_with (mode : jsstr) : Config :=
  {| PRIMARY_MODEL := lit "GLM-4.5"; THINKING_PROCESSING := mode;
     SCAN_LIMIT := 200000 |}.

(** The default configuration of [config.ts]. *)
Definition default_config : Config := config_with (lit "think").

Definition frame (ph : string) (delta edit : jsstr) (finished : bool)
  : UpstreamData :=
  {| type := lit "chat:completion";
     data := {| delta_content := delta; edit_content := edit; phase := lit ph;
                done := finished; usage := None; data_error := None;
                inner := None |};
     error := None |}.

Definition bytes (s : string) : list Byte.byte := list_byte_of_string s.

Definition sample_error : UpstreamError :=
  {| detail := lit "rate limited";
     code := {| neg := false; coeff := 429; exp10 := 0 |} |}.

Definition inner_error_frame : UpstreamData :=
  {| type := lit "chat:completion";
     data := {| delta_content := lit "lost"; edit_content := []; phase := lit "answer";
                done := false; usage := None; data_error := None;
                inner := Some {| inner_error := Some sample_error |} |};
     error := None |}.

Definition fenced_call : jsstr :=
  lit "```json" ++ nl
  ++ q "{'tool_calls':[{'id':'call_1','type':'function','function':{'name':'f','arguments':{'a':1}}}]}"
  ++ nl ++ lit "```".

Definition fenced_call_result : list value :=
  [Obj [(lit "id", Str (lit "call_1"));
        (lit "type", Str (lit "function"));
        (lit "function",
         Obj [(lit "name", Str (lit "f"));
              (lit "arguments", Str (q "{'a':1}"))])]].

Definition natural_call : jsstr :=
  [35843; 29992; 20989; 25968] ++ q ": get_weather arguments: {'city':'Paris'}".

(* ================================================================== *)
(** ** Reading the stream further *)
(* ================================================================== *)

(** What [_processContent] makes of the content of a frame before it
    buffers or yields it. *)
Definition processed_content (config : Config) (f : UpstreamData) : jsstr :=
  let content :=
    if JS.truthy (delta_content (data f)) then delta_content (data f)
    else edit_content (data f) in
  if JS.eqb (phase (data f)) thinking then transformThinkingContent config content
  else content.

(** [tc.key], for a [tc] that is not null. *)
Definition prop (tc : value) (key : jsstr) : option value :=
  match get tc key with
  | Ok o => o
  | Throw => None
  end.

(** The chunks of [_sendEndChunk] for the extracted calls, numbered from
    [i]. *)
Fixpoint tool_call_lines (model : jsstr) (i : nat) (calls : list value)
  : list Line :=
  match calls with
  | [] => []
  | tc :: more =>
      Chunk model
        (ToolCallDelta i (prop tc (lit "id"))
           (match prop tc (lit "type") with
            | Some t => if truthy t then t else Str (lit "function")
            | None => Str (lit "function")
            end)
           (match prop tc function_key with
            | Some f => if truthy f then f else Obj []
            | None => Obj []
            end))
        None
      :: tool_call_lines model (S i) more
  end.

(** The text that a line carries to the client, as content or as
    reasoning. *)
Definition delta_text (l : Line) : jsstr :=
  match l with
  | Chunk _ (ContentDelta s) _ => s
  | Chunk _ (ReasoningDelta s) _ => s
  | _ => []
  end.

Definition streamed_text (out : list Line) : jsstr := concat (map delta_text out).

Definition is_content (l : Line) : bool :=
  match l with Chunk _ (ContentDelta _) _ => true | _ => false end.

Definition is_reasoning (l : Line) : bool :=
  match l with Chunk _ (ReasoningDelta _) _ => true | _ => false end.

Definition role_line (model : jsstr) : Line :=
  Chunk model (RoleDelta (lit "assistant")) None.

(** The terminal sequence with a finish reason. *)
Definition end_lines (model reason : jsstr) : list Line :=
  [Chunk model NoDelta (Some reason); DONE].

(** What [_sendEndChunk] yields with tools, from the buffered content. *)
Definition tools_end_lines (config : Config) (now : N) (model : jsstr)
    (buffered : jsstr) : list Line :=
  match extractToolInvocations config now buffered with
  | Ok (Some calls) =>
      tool_call_lines model O calls ++ end_lines model (lit "tool_calls")
  | Ok None =>
      (if JS.truthy (removeToolJsonContent buffered)
       then [Chunk model (ContentDelta (removeToolJsonContent buffered)) None]
       else [])
      ++ end_lines model stop
  | Throw => end_lines model stop
  end.

(** What [_processContent] yields for a frame without tools. *)
Definition frame_lines (config : Config) (model : jsstr) (f : UpstreamData)
  : list Line :=
  (if JS.truthy (edit_content (data f)) && JS.eqb (phase (data f)) answer
      && JS.truthy (_extractEditContent (edit_content (data f)))
   then [Chunk model (ContentDelta (_extractEditContent (edit_content (data f)))) None]
   else [])
  ++
  (if JS.truthy (delta_content (data f)) && JS.truthy (processed_content config f)
   then [Chunk model
           (if JS.eqb (phase (data f)) thinking
            then ReasoningDelta (processed_content config f)
            else ContentDelta (processed_content config f)) None]
   else []).

(** The lines of the stream handler without tools, after the role chunk. *)
Fixpoint plain_lines (config : Config) (model : jsstr)
    (frames : list UpstreamData) (ending : Ending) : list Line :=
  match frames with
  | [] =>
      match ending with
      | EndOfData => []
      | ReadFails => end_lines model stop
      end
  | f :: more =>
      if _hasError f then end_lines (PRIMARY_MODEL config) stop
      else
        frame_lines config model f
        ++ (if done (data f) || JS.eqb (phase (data f)) done_phase
            then end_lines model stop
            else plain_lines config model more ending)
  end.

Definition tool_reply : jsstr :=
  q "{'tool_calls':[{'id':'c1','function':{'name':'f','arguments':{'a':1}}}]}".

(* ================================================================== *)
(** ** The bracket balance method, step by step *)
(* ================================================================== *)

(** [steps d1 i1 e1 d2 i2 e2 p]: the inner loop of the bracket balance
    method, with [braceCount] at [S d1], [inString] at [i1] and
    [escapeNext] at [e1], passes the units of [p], whatever follows them,
    and stands then at [d2], [i2] and [e2]. *)
Definition steps (d1 : nat) (i1 e1 : bool) (d2 : nat) (i2 e2 : bool)
    (p : jsstr) : Prop :=
  forall j t,
  balance (S d1) i1 e1 j (p ++ t) = balance d2 i2 e2 (j + List.length p) t.

(** A unit that the loop has no case for. *)
Definition plain (c : N) : bool :=
  negb ((c =? 92) || (c =? 34) || (c =? 123) || (c =? 125)).

(** A unit that the loop has no case for inside a string. *)
Definition plain_in_string (c : N) : bool :=
  negb ((c =? 92) || (c =? 34)).

(** The loop passes [p] and stands where it stood. *)
Definition passes (p : jsstr) : Prop :=
  forall d, steps d false false (S d) false false p.

(** The loop passes [p] and has left one brace. *)
Definition leaves (p : jsstr) : Prop :=
  forall d, steps d false false d false false p.

(* ================================================================== *)
(** ** The other iterators of the SSE parser (app/utils/sse_parser.ts) *)
(* ================================================================== *)

(** [event.type === "data"]. *)
Definition is_data_event (event : SSEEvent) : bool :=
  match event with
  | DataEvent _ _ _ => true
  | _ => false
  end.

(** [iterDataOnly()] over a body read as [chunks]. *)
Definition iterDataOnly (chunks : list (list Byte.byte)) (ending : Ending)
  : list SSEEvent * res unit :=
  let '(events, outcome) := iterEvents chunks ending in
  (filter is_data_event events, outcome).

(** An event of [iterJsonData]: a data event whose [data] has the type of
    the validated data. *)
Record JsonEvent (T : Type) : Type := {
  json_data : T;
  json_raw : jsstr;
  json_is_json : bool
}.
Arguments json_data {T} _.
Arguments json_raw {T} _.
Arguments json_is_json {T} _.

(** The body of the [for await] of [iterJsonData(validator)]: what it
    yields for one event of [iterEvents].  [Throw] is an exception of the
    validator, which is caught. *)
Definition validated {T : Type} (validator : value -> res T) (event : SSEEvent)
  : list (JsonEvent T) :=
  match event with
  | DataEvent data raw is_json =>
      if is_json then                       (* event.is_json !== false *)
        match validator data with
        | Ok validatedData =>
            [{| json_data := validatedData; json_raw := raw;
                json_is_json := is_json |}]
        | Throw => []                       (* continue *)
        end
      else []
  | _ => []
  end.

(** [iterJsonData(validator)] over a body read as [chunks]. *)
Definition iterJsonData {T : Type} (validator : value -> res T)
    (chunks : list (list Byte.byte)) (ending : Ending)
  : list (JsonEvent T) * res unit :=
  let '(events, outcome) := iterEvents chunks ending in
  (flat_map (validated validator) events, outcome).

(** [iterJsonData()] without validator: the JSON data events as they
    are. *)
Definition iterJsonData_as_is (chunks : list (list Byte.byte)) (ending : Ending)
  : list SSEEvent * res unit :=
  let '(events, outcome) := iterEvents chunks ending in
  (filter (fun event =>
             match event with
             | DataEvent _ _ is_json => is_json
             | _ => false
             end) events,
   outcome).

(** What the handlers read from a response body: the [event.data] of the
    events of [iterJsonData], the validator being the parse of the schema
    of upstream frames. *)
Definition upstream_frames (schema_parse : value -> res UpstreamData)
    (chunks : list (list Byte.byte)) (ending : Ending) : list UpstreamData :=
  map json_data (fst (iterJsonData schema_parse chunks ending)).

(** The response that [_callUpstream()] gives, read from the bytes of its
    body. *)
Definition upstream_of_body (schema_parse : value -> res UpstreamData)
    (ok : bool) (chunks : list (list Byte.byte)) (ending : Ending) : Upstream :=
  Responds ok (upstream_frames schema_parse chunks ending) ending.

(** A validator for the examples: it accepts an object whose [data] is an
    object and reads the strings [delta_content] and [phase] and the
    boolean [done] of it, taking what is missing as empty or false. *)
Definition sample_validator (v : value) : res UpstreamData :=
  match v with
  | Obj props =>
      match lookup (lit "data") props with
      | Some (Obj fields) =>
          let text key :=
            match lookup key fields with Some (Str s) => s | _ => [] end in
          Ok {| type := lit "chat:completion";
                data := {| delta_content := text (lit "delta_content");
                           edit_content := [];
                           phase := text (lit "phase");
                           done := match lookup (lit "done") fields with
                                   | Some (Bool b) => b
                                   | _ => false
                                   end;
                           usage := None; data_error := None; inner := None |};
                error := None |}
      | _ => Throw
      end
  | _ => Throw
  end.

(** The bytes of an ASCII text in which an apostrophe stands for a double
    quote. *)
Definition qbytes (s : string) : list Byte.byte :=
  map (fun b => if Byte.eqb b Byte.x27 then Byte.x22 else b) (bytes s).

(* ================================================================== *)
(** ** Model configurations (app/core/config.ts) *)
(* ================================================================== *)

Module Models.

Record ModelCapabilities : Type := {
  vision : bool;
  mcp : bool;
  thinking : bool
}.

Record DefaultParams : Type := {
  top_p : number;
  temperature : number;
  max_tokens : option number
}.

Record ModelConfig : Type := {
  id : jsstr;
  name : jsstr;
  upstreamId : jsstr;
  capabilities : ModelCapabilities;
  defaultParams : DefaultParams
}.

Definition hundredths (n : N) : number :=
  {| neg := false; coeff := n; exp10 := (-2)%Z |}.

Definition tenths (n : N) : number :=
  {| neg := false; coeff := n; exp10 := (-1)%Z |}.

Definition whole_number (n : N) : number :=
  {| neg := false; coeff := n; exp10 := 0%Z |}.

Definition GLM_4_6 : ModelConfig :=
  {| id := lit "GLM-4.6";
     name := lit "GLM-4.6";
     upstreamId := lit "GLM-4-6-API-V1";
     capabilities := {| vision := false; mcp := true; thinking := true |};
     defaultParams := {| top_p := hundredths 95; temperature := tenths 6;
                         max_tokens := Some (whole_number 200000) |} |}.

Definition GLM_4_5 : ModelConfig :=
  {| id := lit "GLM-4.5";
     name := lit "GLM-4.5";
     upstreamId := lit "0727-360B-API";
     capabilities := {| vision := false; mcp := true; thinking := true |};
     defaultParams := {| top_p := hundredths 95; temperature := tenths 6;
                         max_tokens := Some (whole_number 80000) |} |}.

Definition GLM_4_5V : ModelConfig :=
  {| id := lit "GLM-4.5V";
     name := lit "GLM-4.5V";
     upstreamId := lit "glm-4.5v";
     capabilities := {| vision := true; mcp := false; thinking := true |};
     defaultParams := {| top_p := tenths 6; temperature := tenths 8;
                         max_tokens := None |} |}.

Definition GLM_4_5_Air : ModelConfig :=
  {| id := lit "GLM-4.5-Air";
     name := lit "GLM-4.5-Air";
     upstreamId := lit "0727-106B-API";
     capabilities := {| vision := false; mcp := true; thinking := true |};
     defaultParams := {| top_p := hundredths 95; temperature := tenths 6;
                         max_tokens := Some (whole_number 80000) |} |}.

Definition SUPPORTED_MODELS : list ModelConfig :=
  [GLM_4_6; GLM_4_5; GLM_4_5V; GLM_4_5_Air].

(** The own properties of [modelMappings]. *)
Definition modelMappings : list (jsstr * jsstr) :=
  [ (* GLM-4.6 *)
    (lit "glm-4-6-api-v1", lit "GLM-4.6");
    (lit "glm-4.6", lit "GLM-4.6");
    (lit "glm4.6", lit "GLM-4.6");
    (lit "glm_4.6", lit "GLM-4.6");
    (* GLM-4.5V *)
    (lit "glm-4.5v", lit "GLM-4.5V");
    (lit "glm4.5v", lit "GLM-4.5V");
    (lit "glm_4.5v", lit "GLM-4.5V");
    (lit "gpt-4-vision-preview", lit "GLM-4.5V");
    (* GLM-4.5 *)
    (lit "0727-360b-api", lit "GLM-4.5");
    (lit "glm-4.5", lit "GLM-4.5");
    (lit "glm4.5", lit "GLM-4.5");
    (lit "glm_4.5", lit "GLM-4.5");
    (lit "gpt-4", lit "GLM-4.5") ].

(** The own property of that name, if there is one. *)
Fixpoint own (key : jsstr) (props : list (jsstr * jsstr)) : option jsstr :=
  match props with
  | [] => None
  | (k, v) :: more => if JS.eqb k key then Some v else own key more
  end.

(** What [normalizeModelId] returns: a string, or, when the normalized id
    names a property that [modelMappings] inherits from [Object.prototype],
    the value of that property, which is an object or a function. *)
Inductive NormalizedId : Type :=
| IdString (s : jsstr)
| Inherited (key : jsstr).

Section Platform.

(** [String.prototype.toLowerCase]. *)
Variable toLowerCase : jsstr -> jsstr.

(** Whether [Object.prototype] has a property of that name. *)
Variable inherited : jsstr -> bool.

Definition normalizeModelId (modelId : jsstr) : NormalizedId :=
  let normalized := trim (toLowerCase modelId) in
  match own normalized modelMappings with
  | Some mapped =>
      if JS.truthy mapped then IdString mapped else IdString normalized
  | None =>
      if inherited normalized then Inherited normalized
      else IdString normalized
  end.

(** [m.id === normalizedModelId]. *)
Definition is_id (normalizedModelId : NormalizedId) (m : ModelConfig) : bool :=
  match normalizedModelId with
  | IdString s => JS.eqb (id m) s
  | Inherited _ => false
  end.

Definition getModelConfig (modelId : jsstr) : ModelConfig :=
  let normalizedModelId := normalizeModelId modelId in
  let found := find (is_id normalizedModelId) SUPPORTED_MODELS in
  match found with
  | Some m => m
  | None => nth 0 SUPPORTED_MODELS GLM_4_6
  end.

End Platform.

(** [toLowerCase] on the code units of ASCII. *)
Definition ascii_lower (c : N) : N :=
  if (65 <=? c) && (c <=? 90) then c + 32 else c.

Definition is_ascii (c : N) : bool := c <? 128.

Definition is_capital (c : N) : bool := (65 <=? c) && (c <=? 90).

(** The names that [Object.prototype] defines. *)
Definition object_prototype (key : jsstr) : bool :=
  existsb (JS.eqb key)
    [lit "constructor"; lit "__proto__"; lit "hasOwnProperty";
     lit "isPrototypeOf"; lit "propertyIsEnumerable"; lit "toLocaleString";
     lit "toString"; lit "valueOf"; lit "__defineGetter__";
     lit "__defineSetter__"; lit "__lookupGetter__"; lit "__lookupSetter__"].

End Models.

(** The default configuration with another scan limit. *)
Definition config_with_limit (limit : nat) : Config :=
  {| PRIMARY_MODEL := lit "GLM-4.5"; THINKING_PROCESSING := lit "think";
     SCAN_LIMIT := limit |}.

(* ================================================================== *)
(** ** The chat completions route (app/core/openai.ts) *)
(* ================================================================== *)

Module Route.

(** The settings of [config] that the validation of the API key reads. *)
Record Settings : Type := {
  AUTH_TOKEN : jsstr;
  SKIP_AUTH_TOKEN : bool
}.

(** How the validation ends: the route goes on, or it has answered with a
    status and an error. *)
Inductive Validation : Type :=
| Valid
| Answered (status : nat) (error : jsstr).

(** The validation of the API key; [authorization] is
    [ctx.request.headers.get('authorization')], [None] for null. *)
Definition validate_api_key (settings : Settings) (authorization : option jsstr)
  : Validation :=
  if negb (SKIP_AUTH_TOKEN settings) then
    match authorization with
    | None => Answered 401 (lit "Missing or invalid Authorization header")
    | Some authorization =>
        if negb (JS.truthy authorization)
           || negb (startsWith authorization (lit "Bearer "))
        then Answered 401 (lit "Missing or invalid Authorization header")
        else
          let apiKey := substring_from 7 authorization in
          if negb (JS.eqb apiKey (AUTH_TOKEN settings))
          then Answered 401 (lit "Invalid API key")
          else Valid
    end
  else Valid.

End Route.

(* ================================================================== *)
(** ** The model name of a line *)
(* ================================================================== *)

(** The [model] of the chunk of a line. *)
Definition line_model (l : Line) : option jsstr :=
  match l with
  | Chunk m _ _ => Some m
  | _ => None
  end.

(** The chunk that [handleUpstreamError] yields. *)
Definition error_end (config : Config) : Line :=
  Chunk (PRIMARY_MODEL config) NoDelta (Some stop).

(** A line names [model], or it is the end chunk of an upstream error,
    which is possible only if [error_seen]. *)
Definition names_model (config : Config) (model : jsstr) (error_seen : Prop)
    (l : Line) : Prop :=
  forall m, line_model l = Some m ->
            m = model \/ (error_seen /\ l = error_end config).

(** A method of a handler whose [modelName] is [model] yields lines that
    name it, and leaves the [modelName] as it is. *)
Definition keeps_model {A : Type} (config : Config) (model : jsstr)
    (error_seen : Prop) (g : Gen A) : Prop :=
  forall h, modelName h = model ->
            Forall (names_model config model error_seen) (fst (fst (g h)))
            /\ modelName (snd (fst (g h))) = model.

(* ================================================================== *)
(** ** Fenced blocks *)
(* ================================================================== *)

(** A fenced block of the kind that the tool prompt asks for: the fence
    with its language, an opening brace, a text, a closing brace and the
    fence again, with white space inside the fence lines. *)
Definition fenced_block (ws1 mid ws2 : jsstr) : jsstr :=
  lit "```json" ++ ws1 ++ lit "{" ++ mid ++ lit "}" ++ ws2 ++ lit "```".

(** The texts of the items of the fence pattern on such a block. *)
Definition fenced_spans (ws1 mid ws2 : jsstr) : list jsstr :=
  [lit "```json"; ws1; lit "{"; mid; lit "}"; ws2; lit "```"].

(* ================================================================== *)
(** ** Texts that transformThinkingContent leaves as they are *)
(* ================================================================== *)

(** Whether [text.replace] finds the pattern somewhere in the text: the
    test of [replace_go], at every place of the text. *)
Fixpoint found_somewhere (bol : bool) (its : pattern) (prev : option N)
    (s : jsstr) : bool :=
  match s with
  | [] => false
  | c :: s' =>
      match (if negb bol || at_line_start prev
             then match_items its s else None) with
      | Some _ => true
      | None => found_somewhere bol its (Some c) s'
      end
  end.

(** None of the patterns that [transformThinkingContent] replaces under
    the display mode of [config] is found in the text. *)
Definition settled (config : Config) (s : jsstr) : bool :=
  negb (found_somewhere false SUMMARY_PATTERN None s)
  && negb (found_somewhere false [Lit (lit "</thinking>")] None s)
  && negb (found_somewhere false [Lit (lit "<Full>")] None s)
  && negb (found_somewhere false [Lit (lit "</Full>")] None s)
  && (if JS.eqb (THINKING_PROCESSING config) (lit "think")
         || JS.eqb (THINKING_PROCESSING config) (lit "strip")
      then negb (found_somewhere false DETAILS_OPEN_PATTERN None s)
           && negb (found_somewhere false [Lit (lit "</details>")] None s)
      else true)
  && negb (found_somewhere true [Lit (lit "> ")] None s)
  && negb (found_somewhere false [Lit (nl ++ lit "> ")] None s).

(** The sample input of the specification. *)
Definition sample_thinking : jsstr :=
  lit "<details><summary>x</summary>hi</details>".

(* ================================================================== *)
(** ** Texts on which the two scans agree *)
(* ================================================================== *)


(* ================================================================== *)
(** * Properties *)
(* ================================================================== *)

(** ** Strings *)

Section StringFacts.

Lemma trimStart_fixed (c : N) (s : jsstr) :
  is_space c = false -> trimStart (c :: s) = c :: s.
Proof. intros H. simpl. rewrite H. reflexivity. Qed.

Lemma trimEnd_head (c : N) (s : jsstr) :
  is_space c = false -> exists t, trimEnd (c :: s) = c :: t.
Proof.
  intros H. simpl. destruct (trimEnd s) as [|d t].
  - rewrite H. exists []. reflexivity.
  - exists (d :: t). reflexivity.
Qed.

Lemma trimEnd_idem (s : jsstr) : trimEnd (trimEnd s) = trimEnd s.
Proof.
  induction s as [|c s IH]; [reflexivity|].
  simpl. destruct (trimEnd s) as [|d t] eqn:E.
  - destruct (is_space c) eqn:Hc; [reflexivity|].
    simpl. rewrite Hc. reflexivity.
  - change (trimEnd (c :: d :: t)) with
      (match trimEnd (d :: t) with
       | [] => if is_space c then [] else [c]
       | u => c :: u
       end).
    rewrite IH. reflexivity.
Qed.

Lemma trimStart_head (s : jsstr) :
  trimStart s = [] \/ exists c t, trimStart s = c :: t /\ is_space c = false.
Proof.
  induction s as [|c s IH]; [left; reflexivity|].
  simpl. destruct (is_space c) eqn:Hc; [exact IH|].
  right. exists c, s. split; [reflexivity | exact Hc].
Qed.

Lemma trim_idem (s : jsstr) : trim (trim s) = trim s.
Proof.
  unfold trim. destruct (trimStart_head s) as [E | (c & t & E & Hc)].
  - rewrite E. reflexivity.
  - rewrite E. destruct (trimEnd_head c t Hc) as [u Hu].
    rewrite Hu, (trimStart_fixed c u Hc), <- Hu. apply trimEnd_idem.
Qed.

Lemma trimStart_incl (c : N) (s : jsstr) : In c (trimStart s) -> In c s.
Proof.
  induction s as [|d s IH]; simpl; [tauto|].
  destruct (is_space d); simpl; tauto.
Qed.

Lemma trimEnd_incl (c : N) (s : jsstr) : In c (trimEnd s) -> In c s.
Proof.
  induction s as [|d s IH]; simpl; [tauto|].
  destruct (trimEnd s) as [|e t].
  - destruct (is_space d); simpl; tauto.
  - intros [H | H]; [left; exact H | right; apply IH; exact H].
Qed.

Lemma trim_incl (c : N) (s : jsstr) : In c (trim s) -> In c s.
Proof. intros H. apply trimStart_incl, trimEnd_incl, H. Qed.

Lemma strip_prefix_app (p s rest : jsstr) :
  strip_prefix p s = Some rest -> s = p ++ rest.
Proof.
  revert s. induction p as [|x p IH]; intros s H; simpl in H.
  - injection H as ->. reflexivity.
  - destruct s as [|y s]; [discriminate|].
    destruct (N.eqb_spec x y) as [->|]; [|discriminate].
    simpl. f_equal. apply IH, H.
Qed.

Lemma strip_prefix_absent (c : N) (p s : jsstr) :
  In c p -> ~ In c s -> strip_prefix p s = None.
Proof.
  intros Hp Hs. destruct (strip_prefix p s) as [rest|] eqn:E; [|reflexivity].
  apply strip_prefix_app in E. subst s. exfalso. apply Hs.
  apply in_or_app. left. exact Hp.
Qed.

End StringFacts.

(** ** JSON.parse: the fuel is enough *)

Section ParseFuel.

Local Open Scope nat_scope.

Lemma skip_ws_length (s : jsstr) : List.length (skip_ws s) <= List.length s.
Proof.
  induction s as [|c s IH]; [reflexivity|].
  cbn [skip_ws]. destruct (is_ws c); cbn [List.length]; lia.
Qed.

Lemma skip_ws_cons_length (s : jsstr) (c : N) (s' : jsstr) :
  skip_ws s = c :: s' -> List.length s' < List.length s.
Proof.
  intros E. pose proof (skip_ws_length s) as L. rewrite E in L.
  cbn [List.length] in L. lia.
Qed.

Lemma strip_prefix_length (p s rest : jsstr) :
  strip_prefix p s = Some rest ->
  List.length s = List.length p + List.length rest.
Proof.
  intros E. apply strip_prefix_app in E. subst s. apply length_app.
Qed.

Lemma digits_length (s : jsstr) :
  forall acc n v m rest,
  digits acc n s = (v, m, rest) -> List.length rest <= List.length s.
Proof.
  induction s as [|c s IH]; intros acc n v m rest E; cbn [digits] in E.
  - injection E as _ _ <-. reflexivity.
  - destruct (is_digit c).
    + apply IH in E. cbn [List.length]. lia.
    + injection E as _ _ <-. reflexivity.
Qed.

Lemma parse_exponent_length (s : jsstr) (e : Z) (rest : jsstr) :
  parse_exponent s = Some (e, rest) -> List.length rest <= List.length s.
Proof.
  unfold parse_exponent. destruct s as [|c s].
  - intros E. injection E as _ <-. reflexivity.
  - destruct ((c =? 101) || (c =? 69))%N.
    + set (signed := match s with
                     | d :: t => if (d =? 43)%N then (false, t)
                                 else if (d =? 45)%N then (true, t) else (false, s)
                     | [] => (false, s)
                     end).
      assert (L : List.length (snd signed) <= List.length s).
      { subst signed. destruct s as [|d t]; [reflexivity|].
        destruct (d =? 43)%N; [cbn; lia|].
        destruct (d =? 45)%N; cbn; lia. }
      destruct signed as [sign s'']. cbn [snd] in L.
      destruct (digits 0 0 s'') as [[v m] r] eqn:D.
      apply digits_length in D.
      destruct m; [discriminate|]. intros E. injection E as _ <-.
      cbn [List.length]. lia.
    + intros E. injection E as _ <-. reflexivity.
Qed.

Lemma parse_fraction_length (int : N) (s : jsstr) (m : N) (n : nat)
    (rest : jsstr) :
  parse_fraction int s = Some (m, n, rest) -> List.length rest <= List.length s.
Proof.
  unfold parse_fraction. destruct s as [|c s].
  - intros E. injection E as _ _ <-. reflexivity.
  - destruct (c =? 46)%N.
    + destruct (digits int 0 s) as [[v k] r] eqn:D. apply digits_length in D.
      destruct k; [discriminate|]. intros E. injection E as _ _ <-.
      cbn [List.length]. lia.
    + intros E. injection E as _ _ <-. reflexivity.
Qed.

Lemma parse_number_length (s : jsstr) (n : number) (rest : jsstr) :
  parse_number s = Some (n, rest) -> List.length rest < List.length s.
Proof.
  unfold parse_number.
  set (signed := match s with
                 | c :: t => if (c =? 45)%N then (true, t) else (false, s)
                 | [] => (false, s)
                 end).
  assert (L : List.length (snd signed) <= List.length s).
  { subst signed. destruct s as [|c t]; [reflexivity|].
    destruct (c =? 45)%N; cbn; lia. }
  destruct signed as [sign s1]. cbn [snd] in L.
  destruct s1 as [|c t]; [discriminate|].
  destruct (c =? 48)%N.
  - destruct (parse_fraction 0 t) as [[[m nf] s3]|] eqn:F; [|discriminate].
    apply parse_fraction_length in F.
    destruct (parse_exponent s3) as [[e s4]|] eqn:X; [|discriminate].
    apply parse_exponent_length in X. intros E. injection E as _ <-.
    cbn [List.length] in L. lia.
  - destruct (is_digit c) eqn:Dc; [|discriminate].
    destruct (digits 0 0 (c :: t)) as [[v k] r] eqn:D.
    cbn [digits] in D. rewrite Dc in D. apply digits_length in D.
    destruct (parse_fraction v r) as [[[m nf] s3]|] eqn:F; [|discriminate].
    apply parse_fraction_length in F.
    destruct (parse_exponent s3) as [[e s4]|] eqn:X; [|discriminate].
    apply parse_exponent_length in X. intros E. injection E as _ <-.
    cbn [List.length] in L. lia.
Qed.

Lemma parse_string_length (n : nat) :
  forall s body rest,
  List.length s <= n -> parse_string s = Some (body, rest) ->
  List.length rest < List.length s.
Proof.
  induction n as [|n IH]; intros s body rest L E.
  - destruct s; [discriminate E | cbn in L; lia].
  - destruct s as [|c s']; [discriminate|]. cbn [parse_string] in E.
    cbn [List.length] in L |- *.
    destruct (c =? 34)%N; [injection E as _ <-; lia|].
    destruct (c =? 92)%N.
    + destruct s' as [|e t]; [discriminate|]. cbn [List.length] in L |- *.
      destruct (e =? 117)%N.
      * destruct t as [|h1 [|h2 [|h3 [|h4 t']]]]; try discriminate.
        destruct (hex4 h1 h2 h3 h4); [|discriminate].
        destruct (parse_string t') as [[b r]|] eqn:P; [|discriminate].
        injection E as _ <-. apply IH in P; cbn [List.length] in *; lia.
      * destruct (unescape e); [|discriminate].
        destruct (parse_string t) as [[b r]|] eqn:P; [|discriminate].
        injection E as _ <-. apply IH in P; lia.
    + destruct (c <? 32)%N; [discriminate|].
      destruct (parse_string s') as [[b r]|] eqn:P; [|discriminate].
      injection E as _ <-. apply IH in P; lia.
Qed.

(** What a successful parse shows: it consumed something, and any fuel
    from twice what it consumed gives the same result. *)
Definition enough {A} (run : nat -> jsstr -> option (A * jsstr)) (f : nat) : Prop :=
  forall s a rest,
  run f s = Some (a, rest) ->
  List.length rest < List.length s
  /\ forall f', 2 * (List.length s - List.length rest) <= f' ->
                run f' s = Some (a, rest).

Lemma parse_fuel (f : nat) :
  enough parse_value f
  /\ enough parse_elements f
  /\ forall props, enough (fun f => parse_members f props) f.
Proof.
  induction f as [|f (IHv & IHe & IHm)];
    [repeat split; intros; discriminate|].
  split; [|split].
  - (* parse_value *)
    intros s v rest E. cbn [parse_value] in E.
    destruct (skip_ws s) as [|c s'] eqn:W; [discriminate|].
    pose proof (skip_ws_cons_length s c s' W) as Ls.
    assert (again : forall f', 1 <= f' ->
              parse_value f' s =
              match f' with
              | O => None
              | S g =>
                  if (c =? 110)%N then parse_literal (lit "null") Null (c :: s')
                  else if (c =? 116)%N then parse_literal (lit "true") (Bool true) (c :: s')
                  else if (c =? 102)%N then parse_literal (lit "false") (Bool false) (c :: s')
                  else if (c =? 34)%N then
                    match parse_string s' with
                    | Some (body, rest) => Some (Str body, rest)
                    | None => None
                    end
                  else if (c =? 91)%N then
                    match skip_ws s' with
                    | 93%N :: rest => Some (Arr [], rest)
                    | _ =>
                        match parse_elements g s' with
                        | Some (vs, rest) => Some (Arr vs, rest)
                        | None => None
                        end
                    end
                  else if (c =? 123)%N then
                    match skip_ws s' with
                    | 125%N :: rest => Some (Obj [], rest)
                    | _ =>
                        match parse_members g [] s' with
                        | Some (props, rest) => Some (Obj props, rest)
                        | None => None
                        end
                    end
                  else
                    match parse_number (c :: s') with
                    | Some (n, rest) => Some (Num n, rest)
                    | None => None
                    end
              end).
    { intros [|g] Hg; [lia|]. cbn [parse_value]. rewrite W. reflexivity. }
    assert (leaf : forall r : option (value * jsstr),
              r = Some (v, rest) ->
              (forall g, parse_value (S g) s = r) ->
              List.length rest < List.length (c :: s') ->
              List.length rest < List.length s
              /\ forall f', 2 * (List.length s - List.length rest) <= f' ->
                            parse_value f' s = Some (v, rest)).
    { intros r Hr Hall Hl. cbn [List.length] in Hl. split; [lia|].
      intros [|g] Hg; [lia|]. rewrite Hall. exact Hr. }
    assert (lit_len : forall word w,
              parse_literal word w (c :: s') = Some (v, rest) ->
              word <> [] -> List.length rest < List.length (c :: s')).
    { intros word w P Hw. unfold parse_literal in P.
      destruct (strip_prefix word (c :: s')) as [r|] eqn:SP; [|discriminate].
      injection P as _ <-. apply strip_prefix_length in SP.
      destruct word; [contradiction | cbn [List.length] in *; lia]. }
    destruct (c =? 110)%N eqn:C1.
    { apply (leaf _ E); [|eapply lit_len; [exact E | discriminate]].
      intros g. rewrite again by lia. reflexivity. }
    destruct (c =? 116)%N eqn:C2.
    { apply (leaf _ E); [|eapply lit_len; [exact E | discriminate]].
      intros g. rewrite again by lia. reflexivity. }
    destruct (c =? 102)%N eqn:C3.
    { apply (leaf _ E); [|eapply lit_len; [exact E | discriminate]].
      intros g. rewrite again by lia. reflexivity. }
    destruct (c =? 34)%N eqn:C4.
    { apply (leaf _ E).
      - intros g. rewrite again by lia. reflexivity.
      - destruct (parse_string s') as [[body r]|] eqn:P; [|discriminate].
        injection E as _ <-.
        apply (parse_string_length _ _ _ _ (le_n _)) in P.
        cbn [List.length]. lia. }
    destruct (c =? 91)%N eqn:C5.
    { assert (empty_or : (exists r, skip_ws s' = 93%N :: r /\ Some (Arr [], r) = Some (v, rest))
                         \/ ((forall g, match skip_ws s' with
                                        | 93%N :: rest => Some (Arr [], rest)
                                        | _ => match parse_elements g s' with
                                               | Some (vs, rest) => Some (Arr vs, rest)
                                               | None => None
                                               end
                                        end
                                        = match parse_elements g s' with
                                          | Some (vs, rest) => Some (Arr vs, rest)
                                          | None => None
                                          end))).
      { destruct (skip_ws s') as [|d r] eqn:W'; [right; reflexivity|].
        destruct (N.eq_dec d 93) as [->|Hd].
        - left. exists r. split; [reflexivity | exact E].
        - right. intros g.
          destruct d as [|p]; [reflexivity|].
          do 7 (destruct p as [p|p|]; try reflexivity). contradiction. }
      destruct empty_or as [(r & W' & Er) | Hne].
      - rewrite W' in E. apply (leaf _ E).
        + intros g. rewrite again by lia. rewrite W'. reflexivity.
        + injection E as _ <-. apply skip_ws_cons_length in W'.
          cbn [List.length]. lia.
      - rewrite Hne in E.
        destruct (parse_elements f s') as [[vs r]|] eqn:P; [|discriminate].
        injection E as <- <-. destruct (IHe _ _ _ P) as [Lr Hr].
        split; [lia|]. intros [|g] Hg; [lia|].
        rewrite again by lia. rewrite Hne.
        rewrite Hr by lia. reflexivity. }
    destruct (c =? 123)%N eqn:C6.
    { assert (empty_or : (exists r, skip_ws s' = 125%N :: r /\ Some (Obj [], r) = Some (v, rest))
                         \/ ((forall g, match skip_ws s' with
                                        | 125%N :: rest => Some (Obj [], rest)
                                        | _ => match parse_members g [] s' with
                                               | Some (ps, rest) => Some (Obj ps, rest)
                                               | None => None
                                               end
                                        end
                                        = match parse_members g [] s' with
                                          | Some (ps, rest) => Some (Obj ps, rest)
                                          | None => None
                                          end))).
      { destruct (skip_ws s') as [|d r] eqn:W'; [right; reflexivity|].
        destruct (N.eq_dec d 125) as [->|Hd].
        - left. exists r. split; [reflexivity | exact E].
        - right. intros g.
          destruct d as [|p]; [reflexivity|].
          do 7 (destruct p as [p|p|]; try reflexivity). contradiction. }
      destruct empty_or as [(r & W' & Er) | Hne].
      - rewrite W' in E. apply (leaf _ E).
        + intros g. rewrite again by lia. rewrite W'. reflexivity.
        + injection E as _ <-. apply skip_ws_cons_length in W'.
          cbn [List.length]. lia.
      - rewrite Hne in E.
        destruct (parse_members f [] s') as [[ps r]|] eqn:P; [|discriminate].
        injection E as <- <-. destruct (IHm [] _ _ _ P) as [Lr Hr].
        split; [lia|]. intros [|g] Hg; [lia|].
        rewrite again by lia. rewrite Hne.
        rewrite Hr by lia. reflexivity. }
    apply (leaf _ E).
    + intros g. rewrite again by lia. reflexivity.
    + destruct (parse_number (c :: s')) as [[n r]|] eqn:P; [|discriminate].
      injection E as _ <-. apply parse_number_length in P. exact P.
  - (* parse_elements *)
    intros s vs rest E. cbn [parse_elements] in E.
    destruct (parse_value f s) as [[v r]|] eqn:P; [|discriminate].
    destruct (IHv _ _ _ P) as [Lr Hr].
    destruct (skip_ws r) as [|c r'] eqn:W; [discriminate|].
    pose proof (skip_ws_cons_length r c r' W) as Lw.
    destruct (c =? 44)%N eqn:C1.
    + destruct (parse_elements f r') as [[vs' rest']|] eqn:Q; [|discriminate].
      injection E as <- <-. destruct (IHe _ _ _ Q) as [Lq Hq].
      split; [lia|]. intros [|g] Hg; [lia|].
      cbn [parse_elements]. rewrite Hr by lia. rewrite W, C1.
      rewrite Hq by lia. reflexivity.
    + destruct (c =? 93)%N eqn:C2; [|discriminate].
      injection E as <- <-. split; [lia|]. intros [|g] Hg; [lia|].
      cbn [parse_elements]. rewrite Hr by lia. rewrite W, C1, C2. reflexivity.
  - (* parse_members *)
    intros props s ps rest E. cbn [parse_members] in E.
    destruct (skip_ws s) as [|c s1] eqn:W; [discriminate|].
    pose proof (skip_ws_cons_length s c s1 W) as L1.
    destruct (c =? 34)%N eqn:C1; [|discriminate].
    destruct (parse_string s1) as [[key s2]|] eqn:K; [|discriminate].
    pose proof (parse_string_length _ _ _ _ (le_n _) K) as L2.
    destruct (skip_ws s2) as [|d s3] eqn:W2; [discriminate|].
    pose proof (skip_ws_cons_length s2 d s3 W2) as L3.
    destruct (d =? 58)%N eqn:C2; [|discriminate].
    destruct (parse_value f s3) as [[v r]|] eqn:P; [|discriminate].
    destruct (IHv _ _ _ P) as [Lr Hr].
    destruct (skip_ws r) as [|e r'] eqn:W3; [discriminate|].
    pose proof (skip_ws_cons_length r e r' W3) as L4.
    destruct (e =? 44)%N eqn:C3.
    + destruct (IHm (assign key v props) _ _ _ E) as [Lq Hq].
      split; [lia|]. intros [|g] Hg; [lia|].
      cbn [parse_members]. rewrite W, C1, K, W2, C2. rewrite Hr by lia.
      rewrite W3, C3. apply Hq. lia.
    + destruct (e =? 125)%N eqn:C4; [|discriminate].
      injection E as <- <-. split; [lia|]. intros [|g] Hg; [lia|].
      cbn [parse_members]. rewrite W, C1, K, W2, C2. rewrite Hr by lia.
      rewrite W3, C3, C4. reflexivity.
Qed.

(** [JSON.parse] loses nothing to its fuel: whatever some amount of fuel
    parses, the amount that [parse] gives parses. *)
Lemma parse_fuel_enough (text : jsstr) (f : nat) (v : value) (rest : jsstr) :
  parse_value f text = Some (v, rest) ->
  parse_value (2 * List.length text + 2) text = Some (v, rest).
Proof.
  intros E. destruct (parse_fuel f) as [Hv _].
  destruct (Hv _ _ _ E) as [_ H]. apply H. lia.
Qed.

End ParseFuel.

(** ** Patterns *)

Section PatternFacts.

(** A pattern that begins with a literal holding [c] finds nothing in a
    text without [c]: replacing leaves the text as it is. *)
Lemma replace_go_absent (c : N) (l : jsstr) (more : pattern)
    (f : list jsstr -> jsstr) (bol : bool) (s : jsstr) :
  In c l -> ~ In c s ->
  forall prev, replace_go bol (Lit l :: more) f prev O s = s.
Proof.
  intros Hl. induction s as [|d s IH]; intros Hs prev; [reflexivity|].
  cbn [replace_go].
  assert (E : match_items (Lit l :: more) (d :: s) = None).
  { cbn [match_items]. rewrite (strip_prefix_absent c l (d :: s) Hl Hs).
    reflexivity. }
  rewrite E. destruct (negb bol || at_line_start prev); f_equal;
    apply IH; intros H; apply Hs; right; exact H.
Qed.

Lemma replace_str_absent (c : N) (l : jsstr) (more : pattern) (by_ s : jsstr) :
  In c l -> ~ In c s -> replace_str (Lit l :: more) by_ s = s.
Proof. intros Hl Hs. apply replace_go_absent with (c := c); assumption. Qed.

End PatternFacts.

(** ** transformThinkingContent *)

Section Thinking.

Variable config : Config.

(** On a text with neither [<] nor [>] the transformation only trims. *)
Lemma transform_plain (x : jsstr) :
  ~ In 60 x -> ~ In 62 x -> transformThinkingContent config x = trim x.
Proof.
  intros Hlt Hgt. unfold transformThinkingContent, SUMMARY_PATTERN,
    DETAILS_OPEN_PATTERN, replace_bol_str.
  assert (In60 : forall t, In 60 (lit t) -> forall u, ~ In 60 u ->
            forall more by_, replace_str (Lit (lit t) :: more) by_ u = u).
  { intros t Ht u Hu more by_. apply replace_str_absent with (c := 60); assumption. }
  rewrite (In60 "<summary>"%string) by (simpl; tauto).
  rewrite (In60 "</thinking>"%string) by (simpl; tauto).
  rewrite (In60 "<Full>"%string) by (simpl; tauto).
  rewrite (In60 "</Full>"%string) by (simpl; tauto).
  assert (Tlt : ~ In 60 (trim x)) by (intros H; apply Hlt, trim_incl, H).
  assert (Tgt : ~ In 62 (trim x)) by (intros H; apply Hgt, trim_incl, H).
  assert (M : (if JS.eqb (THINKING_PROCESSING config) (lit "think")
               then replace_str [Lit (lit "</details>")] (lit "</span>")
                      (replace_str [Lit (lit "<details");
                                    Star (fun c => negb (c =? 62)); Lit (lit ">")]
                         (lit "<span>") (trim x))
               else if JS.eqb (THINKING_PROCESSING config) (lit "strip")
               then replace_str [Lit (lit "</details>")] []
                      (replace_str [Lit (lit "<details");
                                    Star (fun c => negb (c =? 62)); Lit (lit ">")]
                         [] (trim x))
               else trim x) = trim x).
  { destruct (JS.eqb (THINKING_PROCESSING config) (lit "think")).
    - rewrite (In60 "<details"%string) by (simpl; tauto).
      apply In60; [simpl; tauto | exact Tlt].
    - destruct (JS.eqb (THINKING_PROCESSING config) (lit "strip")); [|reflexivity].
      rewrite (In60 "<details"%string) by (simpl; tauto).
      apply In60; [simpl; tauto | exact Tlt]. }
  rewrite M.
  rewrite (replace_go_absent 62 (lit "> ") [] _ true (trim x))
    by (simpl; tauto).
  rewrite (replace_str_absent 62 (nl ++ lit "> ") [] nl (trim x))
    by (simpl; tauto).
  apply trim_idem.
Qed.

End Thinking.

(** C4, as stated, fails: a quotation marker within a quotation marker is
    removed one level at a time, so a second application removes more, in
    each of the display modes. *)
Lemma transform_not_idempotent :
  let x := lit "> > a" in
  let f mode := transformThinkingContent (config_with (lit mode)) in
  f "think"%string (f "think"%string x) <> f "think"%string x
  /\ f "strip"%string (f "strip"%string x) <> f "strip"%string x
  /\ f "raw"%string (f "raw"%string x) <> f "raw"%string x.
Proof. vm_compute. repeat split; discriminate. Qed.

Section Settled.

Variable config : Config.

(** Replacing leaves a text in which the pattern is found nowhere. *)
Lemma replace_go_settled (bol : bool) (its : pattern)
    (f : list jsstr -> jsstr) (s : jsstr) :
  forall prev,
  found_somewhere bol its prev s = false -> replace_go bol its f prev O s = s.
Proof.
  induction s as [|c s IH]; intros prev H; [reflexivity|].
  cbn [found_somewhere] in H. cbn [replace_go].
  destruct (if negb bol || at_line_start prev
            then match_items its (c :: s) else None) as [[spans0 rest]|];
    [discriminate H|].
  rewrite (IH _ H). reflexivity.
Qed.

(** A pattern that begins with a literal holding [c] is found nowhere in
    a text without [c]. *)
Lemma found_somewhere_absent (c : N) (l : jsstr) (more : pattern) (bol : bool)
    (s : jsstr) :
  In c l -> ~ In c s ->
  forall prev, found_somewhere bol (Lit l :: more) prev s = false.
Proof.
  intros Hl. induction s as [|d s IH]; intros Hs prev; [reflexivity|].
  cbn [found_somewhere].
  assert (E : match_items (Lit l :: more) (d :: s) = None).
  { cbn [match_items]. rewrite (strip_prefix_absent c l (d :: s) Hl Hs).
    reflexivity. }
  rewrite E. destruct (negb bol || at_line_start prev);
    apply IH; intros H; apply Hs; right; exact H.
Qed.

(** What the transformation returns is trimmed. *)
Lemma transform_trimmed (x : jsstr) :
  trim (transformThinkingContent config x) = transformThinkingContent config x.
Proof. unfold transformThinkingContent. apply trim_idem. Qed.

(** The transformation returns a trimmed text in which it finds nothing to
    replace as it is. *)
Lemma transform_settled (y : jsstr) :
  settled config y = true -> trim y = y ->
  transformThinkingContent config y = y.
Proof.
  unfold settled. intros H T.
  repeat (apply andb_true_iff in H as [H ?]).
  repeat match goal with
         | K : negb _ = true |- _ => apply negb_true_iff in K
         end.
  unfold transformThinkingContent, replace_bol_str, replace_str, replace.
  rewrite (replace_go_settled false SUMMARY_PATTERN _ y None) by assumption.
  rewrite (replace_go_settled false [Lit (lit "</thinking>")] _ y None)
    by assumption.
  rewrite (replace_go_settled false [Lit (lit "<Full>")] _ y None) by assumption.
  rewrite (replace_go_settled false [Lit (lit "</Full>")] _ y None)
    by assumption.
  rewrite T.
  assert (M : (if JS.eqb (THINKING_PROCESSING config) (lit "think")
               then replace_go false [Lit (lit "</details>")]
                      (fun _ => lit "</span>") None O
                      (replace_go false DETAILS_OPEN_PATTERN
                         (fun _ => lit "<span>") None O y)
               else if JS.eqb (THINKING_PROCESSING config) (lit "strip")
               then replace_go false [Lit (lit "</details>")]
                      (fun _ => []) None O
                      (replace_go false DETAILS_OPEN_PATTERN
                         (fun _ => []) None O y)
               else y) = y).
  { destruct (JS.eqb (THINKING_PROCESSING config) (lit "think")).
    - cbn [orb] in *.
      match goal with
      | K : _ && _ = true |- _ => apply andb_true_iff in K as [K1 K2];
          apply negb_true_iff in K1, K2
      end.
      rewrite (replace_go_settled false DETAILS_OPEN_PATTERN _ y None K1).
      apply (replace_go_settled false _ _ y None K2).
    - cbn [orb] in *.
      destruct (JS.eqb (THINKING_PROCESSING config) (lit "strip"));
        [|reflexivity].
      match goal with
      | K : _ && _ = true |- _ => apply andb_true_iff in K as [K1 K2];
          apply negb_true_iff in K1, K2
      end.
      rewrite (replace_go_settled false DETAILS_OPEN_PATTERN _ y None K1).
      apply (replace_go_settled false _ _ y None K2). }
  rewrite M.
  rewrite (replace_go_settled true [Lit (lit "> ")] _ y None) by assumption.
  rewrite (replace_go_settled false [Lit (nl ++ lit "> ")] _ y None)
    by assumption.
  exact T.
Qed.

(** A text with neither [<] nor [>] holds nothing to replace. *)
Lemma plain_settled (y : jsstr) :
  ~ In 60%N y -> ~ In 62%N y -> settled config y = true.
Proof.
  intros Hlt Hgt. unfold settled, SUMMARY_PATTERN, DETAILS_OPEN_PATTERN.
  rewrite (found_somewhere_absent 60 (lit "<summary>") _ false y) by (simpl; tauto).
  rewrite (found_somewhere_absent 60 (lit "</thinking>") _ false y)
    by (simpl; tauto).
  rewrite (found_somewhere_absent 60 (lit "<Full>") _ false y) by (simpl; tauto).
  rewrite (found_somewhere_absent 60 (lit "</Full>") _ false y) by (simpl; tauto).
  rewrite (found_somewhere_absent 60 (lit "<details") _ false y) by (simpl; tauto).
  rewrite (found_somewhere_absent 60 (lit "</details>") _ false y)
    by (simpl; tauto).
  rewrite (found_somewhere_absent 62 (lit "> ") _ true y) by (simpl; tauto).
  rewrite (found_somewhere_absent 62 (nl ++ lit "> ") _ false y)
    by (simpl; tauto).
  destruct (JS.eqb (THINKING_PROCESSING config) (lit "think")
            || JS.eqb (THINKING_PROCESSING config) (lit "strip")); reflexivity.
Qed.

End Settled.

(** C4 (amended): transformThinkingContent is idempotent on every input
    whose output holds nothing that it replaces: none of its patterns is
    found in the output, under the display mode in force.  This is so, in
    every display mode, whenever the output holds neither [<] nor [>]. *)
Theorem transform_idempotent_on_settled_output (config : Config) (x : jsstr) :
  (settled config (transformThinkingContent config x) = true ->
   transformThinkingContent config (transformThinkingContent config x)
   = transformThinkingContent config x)
  /\ (~ In 60%N (transformThinkingContent config x) ->
      ~ In 62%N (transformThinkingContent config x) ->
      transformThinkingContent config (transformThinkingContent config x)
      = transformThinkingContent config x).
Proof.
  split.
  - intros H. apply transform_settled; [exact H | apply transform_trimmed].
  - intros Hlt Hgt. apply transform_settled; [|apply transform_trimmed].
    apply plain_settled; assumption.
Qed.

Lemma transform_idempotent_on_settled_output_witness :
  transformThinkingContent (config_with (lit "think"))
    (transformThinkingContent (config_with (lit "think")) sample_thinking)
  = transformThinkingContent (config_with (lit "think")) sample_thinking
  /\ transformThinkingContent (config_with (lit "strip"))
       (transformThinkingContent (config_with (lit "strip")) sample_thinking)
     = transformThinkingContent (config_with (lit "strip")) sample_thinking.
Proof.
  split.
  - apply (proj1 (transform_idempotent_on_settled_output
                    (config_with (lit "think")) sample_thinking)).
    vm_compute. reflexivity.
  - apply (proj2 (transform_idempotent_on_settled_output
                    (config_with (lit "strip")) sample_thinking));
      vm_compute; intuition discriminate.
Defined.

(** What the sample input of the specification becomes. *)
Example transform_sample :
  transformThinkingContent (config_with (lit "strip")) sample_thinking = lit "hi"
  /\ transformThinkingContent (config_with (lit "think")) sample_thinking
     = lit "<span>hi</span>"
  /\ transformThinkingContent (config_with (lit "raw")) sample_thinking
     = lit "<details>hi</details>".
Proof. vm_compute. repeat split. Qed.

(** ** The stream handler *)

Section StreamHandler.

Variable config : Config.
Variable now : N.

Lemma terminal_free_app (a b : list Line) :
  terminal_free (a ++ b) = terminal_free a && terminal_free b.
Proof. apply forallb_app. Qed.

(** [_processContent] returns, yields no terminal line, and changes at most
    the buffered content. *)
Lemma processContent_spec (f : UpstreamData) (sent : bool) (h : Handler) :
  exists out b,
    _processContent config f sent h = (out, set_bufferedContent h b, Ok tt)
    /\ terminal_free out = true.
Proof.
  destruct h as [m t b tc e].
  unfold _processContent, bind, this, update, yield, ret, set_bufferedContent.
  cbn [modelName hasTools bufferedContent toolCalls streamEnded].
  destruct (JS.truthy (if JS.truthy (delta_content (data f))
                       then delta_content (data f) else edit_content (data f)));
    cbn [negb]; [|exists [], b; split; reflexivity].
  destruct t; [eexists [], _; split; reflexivity|].
  destruct (negb sent && JS.truthy (edit_content (data f))
            && JS.eqb (phase (data f)) answer);
    [destruct (JS.truthy (_extractEditContent (edit_content (data f))))|];
    destruct (JS.truthy (delta_content (data f)));
    try destruct (JS.truthy (if JS.eqb (phase (data f)) thinking
                             then transformThinkingContent config (delta_content (data f))
                             else delta_content (data f)));
    try destruct (JS.eqb (phase (data f)) thinking);
    cbn; eexists _, b; split; reflexivity.
Qed.


(** One turn of the [for await] of [handle]. *)
Lemma process_stream_cons (f : UpstreamData) (frames : list UpstreamData)
    (ending : Ending) (sent : bool) (h : Handler) :
  process_stream config now sent (f :: frames) ending h =
  if _hasError f then
    if negb (streamEnded h)
    then ([Chunk (PRIMARY_MODEL config) NoDelta (Some stop); DONE],
          set_streamEnded h true, Ok tt)
    else ([], h, Ok tt)
  else
    let '(o1, h1, _) := _processContent config f sent h in
    if (done (data f) || JS.eqb (phase (data f)) done_phase)
       && negb (streamEnded h1)
    then
      match _sendEndChunk config now h1 with
      | (o2, h2, Ok _) => (o1 ++ o2, set_streamEnded h2 true, Ok tt)
      | (o2, h2, Throw) => (o1 ++ o2, h2, Throw)
      end
    else
      let '(o2, h2, r) := process_stream config now sent frames ending h1 in
      (o1 ++ o2, h2, r).
Proof.
  cbn [process_stream]. destruct (_hasError f).
  - unfold bind, this, handleUpstreamError, yield, update.
    destruct (negb (streamEnded h)); reflexivity.
  - destruct (processContent_spec f sent h) as (o1 & b & E & _).
    unfold bind at 1. rewrite E. unfold bind at 1. unfold this at 1.
    cbn [app].
    destruct ((done (data f) || JS.eqb (phase (data f)) done_phase)
              && negb (streamEnded (set_bufferedContent h b))).
    + unfold bind, update.
      destruct (_sendEndChunk config now (set_bufferedContent h b))
        as [[o2 h2] [[]|]]; rewrite ?app_nil_r; reflexivity.
    + destruct (process_stream config now sent frames ending
                  (set_bufferedContent h b)) as [[o2 h2] r]. reflexivity.
Qed.

(** The loop of [_sendEndChunk] over the tool calls yields no terminal line
    and leaves the fields alone. *)
Lemma send_tool_calls_spec (m : jsstr) (calls : list value) :
  forall i h, exists out r,
    send_tool_calls m i calls h = (out, h, r) /\ terminal_free out = true.
Proof.
  induction calls as [|tc calls IH]; intros i h.
  - exists [], (Ok tt). split; reflexivity.
  - cbn [send_tool_calls].
    destruct (get tc (lit "id")) as [id|]; [|exists [], Throw; split; reflexivity].
    destruct (get tc (lit "type")) as [ty|]; [|exists [], Throw; split; reflexivity].
    destruct (get tc function_key) as [fn|]; [|exists [], Throw; split; reflexivity].
    destruct (IH (S i) h) as (out & r & E & F).
    unfold bind, yield. rewrite E.
    eexists _, r. split; [reflexivity|]. cbn. exact F.
Qed.

(** [_sendEndChunk] on a stream that has not ended: one terminal sequence
    at the end and the latch set, unless the extraction throws first. *)
Lemma sendEndChunk_spec (h : Handler) :
  streamEnded h = false ->
  closes (_sendEndChunk config now h) \/ throws_open (_sendEndChunk config now h).
Proof.
  intros He. remember (_sendEndChunk config now h) as run eqn:R.
  unfold _sendEndChunk, bind at 1, this at 1 in R. rewrite He in R. cbn [app] in R.
  destruct (hasTools h).
  - destruct (extractToolInvocations config now (bufferedContent h))
      as [[calls|]|] eqn:Ex.
    + destruct (send_tool_calls_spec (modelName h) calls O
                  (set_toolCalls h (Some calls))) as (out & r & E & F).
      unfold bind, update, yield, ret in R. rewrite E in R.
      destruct r as [[]|]; cbn in R; subst run.
      * left. repeat split.
        exists out, (modelName h), (lit "tool_calls").
        rewrite app_nil_r. split; [reflexivity | exact F].
      * right. repeat split; assumption.
    + left. unfold bind, update, yield, ret in R.
      destruct (JS.truthy (removeToolJsonContent (bufferedContent h)));
        cbn in R; subst run; repeat split.
      * exists [Chunk (modelName h)
                  (ContentDelta (removeToolJsonContent (bufferedContent h))) None],
          (modelName h), stop. split; reflexivity.
      * exists [], (modelName h), stop. split; reflexivity.
    + right. unfold bind, throw in R. cbn in R. subst run.
      repeat split; assumption.
  - left. unfold bind, update, yield, ret in R. cbn in R. subst run.
    repeat split. exists [], (modelName h), stop. split; reflexivity.
Qed.

Lemma closes_prefix (o1 o2 : list Line) (h : Handler) (r : res unit) :
  terminal_free o1 = true -> closes (o2, h, r) -> closes (o1 ++ o2, h, r).
Proof.
  intros F (Hr & He & pre & m & reason & -> & Hp).
  repeat split; try assumption.
  exists (o1 ++ pre), m, reason. rewrite app_assoc. split; [reflexivity|].
  rewrite terminal_free_app, F, Hp. reflexivity.
Qed.

Lemma throws_open_prefix (o1 o2 : list Line) (h : Handler) (r : res unit) :
  terminal_free o1 = true -> throws_open (o2, h, r) -> throws_open (o1 ++ o2, h, r).
Proof.
  intros F (Hr & He & Hp). repeat split; try assumption.
  rewrite terminal_free_app, F, Hp. reflexivity.
Qed.

Lemma stays_open_prefix (o1 o2 : list Line) (h : Handler) (r : res unit) :
  terminal_free o1 = true -> stays_open (o2, h, r) -> stays_open (o1 ++ o2, h, r).
Proof.
  intros F (Hr & He & Hp). repeat split; try assumption.
  rewrite terminal_free_app, F, Hp. reflexivity.
Qed.

(** The loop of [handle], entered with the latch open. *)
Lemma process_stream_open (sent : bool) (frames : list UpstreamData)
    (ending : Ending) :
  forall h, streamEnded h = false ->
  let run := process_stream config now sent frames ending h in
  if existsb is_terminal frames then closes run \/ throws_open run
  else match ending with
       | ReadFails => throws_open run
       | EndOfData => stays_open run
       end.
Proof.
  induction frames as [|f frames IH]; intros h He.
  - cbn. destruct ending; cbn; repeat split; assumption.
  - cbv zeta. rewrite process_stream_cons. cbn [existsb]. unfold is_terminal at 1.
    destruct (_hasError f); cbn [orb].
    + rewrite He. cbn [negb]. left. cbn. repeat split.
      exists [], (PRIMARY_MODEL config), stop. split; reflexivity.
    + destruct (processContent_spec f sent h) as (o1 & b & E & F). rewrite E.
      assert (He1 : streamEnded (set_bufferedContent h b) = false) by exact He.
      rewrite He1. cbn [negb]. rewrite andb_true_r.
      destruct (done (data f) || JS.eqb (phase (data f)) done_phase); cbn [orb].
      * destruct (sendEndChunk_spec _ He1) as [C | T].
        -- left. destruct (_sendEndChunk config now (set_bufferedContent h b))
             as [[o2 h2] r]. destruct C as (-> & He2 & C).
           apply closes_prefix; [exact F|].
           split; [reflexivity|]. split; [reflexivity | exact C].
        -- right. destruct (_sendEndChunk config now (set_bufferedContent h b))
             as [[o2 h2] r]. destruct T as (-> & He2 & T).
           apply throws_open_prefix; [exact F|].
           split; [reflexivity|]. split; assumption.
      * specialize (IH _ He1). cbv zeta in IH.
        destruct (process_stream config now sent frames ending
                    (set_bufferedContent h b)) as [[o2 h2] r].
        destruct (existsb is_terminal frames).
        -- destruct IH as [C | T]; [left; apply closes_prefix | right; apply throws_open_prefix];
             assumption.
        -- destruct ending; [apply stays_open_prefix | apply throws_open_prefix];
             assumption.
Qed.

(** The loop of [handle], entered with the latch set: no terminal line, and
    the latch stays set. *)
Lemma process_stream_ended (sent : bool) (frames : list UpstreamData)
    (ending : Ending) :
  forall h, streamEnded h = true ->
  let '(out, h', _) := process_stream config now sent frames ending h in
  terminal_free out = true /\ streamEnded h' = true.
Proof.
  induction frames as [|f frames IH]; intros h He.
  - cbn. destruct ending; cbn; split; (reflexivity || assumption).
  - rewrite process_stream_cons. destruct (_hasError f).
    + rewrite He. cbn. split; [reflexivity | assumption].
    + destruct (processContent_spec f sent h) as (o1 & b & E & F). rewrite E.
      assert (He1 : streamEnded (set_bufferedContent h b) = true) by exact He.
      rewrite He1. cbn [negb]. rewrite andb_false_r.
      specialize (IH _ He1).
      destruct (process_stream config now sent frames ending
                  (set_bufferedContent h b)) as [[o2 h2] r].
      destruct IH as [F2 He2]. split; [|exact He2].
      rewrite terminal_free_app, F, F2. reflexivity.
Qed.


(** [handle] on a response that is ok, in terms of its loop. *)
Lemma handle_ok (frames : list UpstreamData) (ending : Ending) (h : Handler) :
  handle config now (Responds true frames ending) h =
  let role := Chunk (modelName h) (RoleDelta (lit "assistant")) None in
  let '(o, h1, r) := process_stream config now false frames ending h in
  let latch h := if negb (streamEnded h) then set_streamEnded h true else h in
  match r with
  | Ok _ => (role :: o, latch h1, Ok tt)
  | Throw =>
      if negb (streamEnded h1)
      then (role :: o ++ [Chunk (modelName h1) NoDelta (Some stop); DONE],
            set_streamEnded h1 true, Ok tt)
      else (role :: o, h1, Ok tt)
  end.
Proof.
  unfold handle, bind at 1, this at 1. cbn [app]. unfold bind at 1, yield at 1.
  unfold try_finally, try_catch.
  destruct (process_stream config now false frames ending h) as [[o h1] [[]|]].
  - unfold bind, this, update, ret.
    destruct (negb (streamEnded h1)); cbn; rewrite !app_nil_r; reflexivity.
  - unfold bind, this, update, ret, yield.
    destruct (streamEnded h1) eqn:E1; cbn; rewrite ?E1; cbn;
      rewrite ?app_nil_r; reflexivity.
Qed.

Lemma terminal_free_no_finish (out : list Line) :
  terminal_free out = true -> filter is_finish out = [].
Proof.
  induction out as [|l out IH]; [reflexivity|]. cbn.
  destruct (is_finish l); cbn; [discriminate|].
  destruct (is_done_marker l); cbn; [discriminate | exact IH].
Qed.

Lemma terminal_free_no_done (out : list Line) :
  terminal_free out = true -> filter is_done_marker out = [].
Proof.
  induction out as [|l out IH]; [reflexivity|]. cbn.
  destruct (is_finish l); cbn; [discriminate|].
  destruct (is_done_marker l); cbn; [discriminate | exact IH].
Qed.

Lemma terminal_free_sequences (out : list Line) :
  terminal_free out = true -> terminal_sequences out = O.
Proof.
  induction out as [|l out IH]; [reflexivity|]. cbn [terminal_free forallb].
  intros H. apply andb_true_iff in H as [Hl Ho].
  destruct out as [|l' out]; [reflexivity|].
  change (terminal_sequences (l :: l' :: out))
    with ((if is_finish l && is_done_marker l' then 1 else 0)
          + terminal_sequences (l' :: out))%nat.
  rewrite (IH Ho). destruct (is_finish l); [discriminate | reflexivity].
Qed.

Lemma closed_sequences (pre : list Line) (m reason : jsstr) :
  terminal_free pre = true ->
  terminal_sequences (pre ++ [Chunk m NoDelta (Some reason); DONE]) = 1%nat.
Proof.
  induction pre as [|l pre IH]; [reflexivity|]. cbn [terminal_free forallb].
  intros H. apply andb_true_iff in H as [Hl Ho]. specialize (IH Ho).
  destruct pre as [|l' pre].
  - cbn. destruct (is_finish l); [discriminate | reflexivity].
  - change (terminal_sequences ((l :: l' :: pre) ++ [Chunk m NoDelta (Some reason); DONE]))
      with ((if is_finish l && is_done_marker l' then 1 else 0)
            + terminal_sequences ((l' :: pre) ++ [Chunk m NoDelta (Some reason); DONE]))%nat.
    rewrite IH. destruct (is_finish l); [discriminate | reflexivity].
Qed.

Lemma terminal_count_closed (pre : list Line) (m reason : jsstr) :
  terminal_free pre = true ->
  terminal_count (pre ++ [Chunk m NoDelta (Some reason); DONE]) 1.
Proof.
  intros F. split; [apply closed_sequences, F|].
  rewrite !filter_app, (terminal_free_no_finish _ F), (terminal_free_no_done _ F).
  split; reflexivity.
Qed.

Lemma terminal_count_free (out : list Line) :
  terminal_free out = true -> terminal_count out 0.
Proof.
  intros F. split; [apply terminal_free_sequences, F|].
  rewrite (terminal_free_no_finish _ F), (terminal_free_no_done _ F).
  split; reflexivity.
Qed.


(** A frame in error, met with the latch open after frames that satisfy no
    terminal condition: the loop yields what those frames yield, then the
    terminal sequence of [handleUpstreamError], and stops. *)
Lemma process_stream_error (sent : bool) (before : list UpstreamData)
    (f : UpstreamData) (after : list UpstreamData) (ending : Ending) :
  _hasError f = true ->
  Forall (fun g => is_terminal g = false) before ->
  forall h, streamEnded h = false ->
  process_stream config now sent (before ++ f :: after) ending h =
  let '(o, h', _) := process_stream config now sent before EndOfData h in
  (o ++ [Chunk (PRIMARY_MODEL config) NoDelta (Some stop); DONE],
   set_streamEnded h' true, Ok tt).
Proof.
  intros Hf. induction 1 as [|g before Hg _ IH]; intros h He.
  - cbn [app]. rewrite process_stream_cons, Hf, He. reflexivity.
  - cbn [app]. rewrite !process_stream_cons.
    unfold is_terminal in Hg.
    apply orb_false_iff in Hg as [Hg Hp]. apply orb_false_iff in Hg as [Hg Hd].
    rewrite Hg, Hd, Hp. cbn [orb andb].
    destruct (processContent_spec g sent h) as (o1 & b & E & _). rewrite E.
    rewrite (IH (set_bufferedContent h b) He).
    destruct (process_stream config now sent before EndOfData
                (set_bufferedContent h b)) as [[o2 h2] r].
    rewrite app_assoc. reflexivity.
Qed.

Lemma process_stream_no_terminal (sent : bool) (frames : list UpstreamData) :
  Forall (fun g => is_terminal g = false) frames ->
  forall h, streamEnded h = false ->
  exists o h', process_stream config now sent frames EndOfData h = (o, h', Ok tt)
               /\ streamEnded h' = false.
Proof.
  intros F h He.
  pose proof (process_stream_open sent frames EndOfData h He) as P. cbv zeta in P.
  assert (X : existsb is_terminal frames = false).
  { clear P. induction F as [|g frames Hg _ IH]; [reflexivity|].
    cbn. rewrite Hg, IH. reflexivity. }
  rewrite X in P.
  destruct (process_stream config now sent frames EndOfData h) as [[o h'] r].
  destruct P as (-> & He' & _). exists o, h'. split; [reflexivity | exact He'].
Qed.

End StreamHandler.

(** C1, as stated, fails: when the upstream stream ends without a frame that
    is done or in error, the handler yields no terminal sequence at all. *)
Lemma stream_without_terminal_frame :
  let upstream :=
    Responds true [frame "answer" (lit "hi") [] false] EndOfData in
  stream_output default_config 0 (lit "GLM-4.5") false upstream
  = [Chunk (lit "GLM-4.5") (RoleDelta (lit "assistant")) None;
     Chunk (lit "GLM-4.5") (ContentDelta (lit "hi")) None]
  /\ terminal_sequences
       (stream_output default_config 0 (lit "GLM-4.5") false upstream) <> 1%nat.
Proof. vm_compute. split; [reflexivity | discriminate]. Qed.

(** The output of the stream handler ends with the terminal sequence when
    a terminal condition is met, and holds no terminal line otherwise. *)
Lemma stream_output_shape (config : Config) (now : N) (model : jsstr)
    (tools : bool) (upstream : Upstream) :
  if terminal_condition upstream
  then exists pre m reason,
         stream_output config now model tools upstream
         = pre ++ [Chunk m NoDelta (Some reason); DONE]
         /\ terminal_free pre = true
  else terminal_free (stream_output config now model tools upstream) = true.
Proof.
  unfold stream_output. destruct upstream as [|[] frames ending];
    [reflexivity | | reflexivity].
  rewrite handle_ok. cbv zeta.
  pose proof (process_stream_open config now false frames ending
                (new_handler model tools) eq_refl) as P.
  cbv zeta in P. unfold terminal_condition.
  destruct (process_stream config now false frames ending (new_handler model tools))
    as [[o h1] r].
  set (role := Chunk (modelName (new_handler model tools))
                 (RoleDelta (lit "assistant")) None).
  set (run := match r with
              | Ok _ => (role :: o,
                         (if negb (streamEnded h1)
                          then set_streamEnded h1 true else h1), Ok tt)
              | Throw =>
                  if negb (streamEnded h1)
                  then (role :: o ++ [Chunk (modelName h1) NoDelta (Some stop); DONE],
                        set_streamEnded h1 true, Ok tt)
                  else (role :: o, h1, Ok tt)
              end).
  assert (closed : closes (o, h1, r) ->
            exists pre m reason,
              fst (fst run) = pre ++ [Chunk m NoDelta (Some reason); DONE]
              /\ terminal_free pre = true).
  { intros (R & He & pre & m & reason & E & F). subst run. rewrite R, E.
    cbn [fst]. exists (role :: pre), m, reason. split; [reflexivity | exact F]. }
  assert (thrown : throws_open (o, h1, r) ->
            exists pre m reason,
              fst (fst run) = pre ++ [Chunk m NoDelta (Some reason); DONE]
              /\ terminal_free pre = true).
  { intros (R & He & F). subst run. rewrite R, He. cbn [negb fst].
    exists (role :: o), (modelName h1), stop. split; [reflexivity | exact F]. }
  destruct (existsb is_terminal frames); cbn [orb].
  - destruct P as [C | T]; [apply closed, C | apply thrown, T].
  - destruct ending; [|apply thrown, P].
    destruct P as (R & He & F). subst run. rewrite R. cbn [fst]. exact F.
Qed.

(** C1 (amended): the output of the stream handler holds at most one
    terminal sequence, one finish-reason chunk followed at once by one end
    marker.  When a frame satisfies a terminal condition or reading the
    stream throws, however many frames do, it holds exactly one, and this
    one is its end: the output is lines without finish reason and without
    end marker, then the finish-reason chunk, then the end marker.
    Otherwise it holds none.  The streamEnded flag is a one-way latch: a
    handler whose flag is set yields no terminal line and keeps the flag
    set, and every run on an ok response leaves it set. *)
Theorem stream_terminal_sequence_once (config : Config) (now : N)
    (model : jsstr) (tools : bool) (upstream : Upstream) :
  terminal_count (stream_output config now model tools upstream)
    (if terminal_condition upstream then 1 else 0)
  /\ (if terminal_condition upstream
      then exists pre m reason,
             stream_output config now model tools upstream
             = pre ++ [Chunk m NoDelta (Some reason); DONE]
             /\ terminal_free pre = true
      else terminal_free (stream_output config now model tools upstream) = true)
  /\ (forall h, streamEnded h = true ->
      let '(out, h', _) := handle config now upstream h in
      terminal_free out = true /\ streamEnded h' = true)
  /\ (forall frames ending h,
      upstream = Responds true frames ending ->
      streamEnded (snd (fst (handle config now upstream h))) = true).
Proof.
  pose proof (stream_output_shape config now model tools upstream) as S.
  split; [|split; [exact S|split]].
  - destruct (terminal_condition upstream).
    + destruct S as (pre & m & reason & -> & F).
      apply terminal_count_closed, F.
    + apply terminal_count_free, S.
  - intros h He. destruct upstream as [|[] frames ending];
      [split; [reflexivity | exact He] | | split; [reflexivity | exact He]].
    rewrite handle_ok. cbv zeta.
    pose proof (process_stream_ended config now false frames ending h He) as P.
    destruct (process_stream config now false frames ending h) as [[o h1] r].
    destruct P as [F He1]. rewrite He1. cbn [negb].
    destruct r as [[]|]; split; assumption.
  - intros frames ending h ->. rewrite handle_ok. cbv zeta.
    destruct (process_stream config now false frames ending h) as [[o h1] r].
    destruct r as [[]|]; destruct (streamEnded h1) eqn:E; cbn; try rewrite E;
      reflexivity.
Qed.

Lemma stream_terminal_sequence_once_witness :
  terminal_count
    (stream_output default_config 0 (lit "GLM-4.5") false
       (Responds true [frame "answer" (lit "hi") [] true;
                       frame "done" [] [] true] ReadFails)) 1
  /\ (exists pre m reason,
        stream_output default_config 0 (lit "GLM-4.5") false
          (Responds true [frame "answer" (lit "hi") [] true;
                          frame "done" [] [] true] ReadFails)
        = pre ++ [Chunk m NoDelta (Some reason); DONE]
        /\ terminal_free pre = true)
  /\ terminal_free
       (fst (fst (handle default_config 0
                    (Responds true [frame "done" [] [] true] EndOfData)
                    (set_streamEnded (new_handler (lit "GLM-4.5") false) true))))
     = true.
Proof.
  pose proof (stream_terminal_sequence_once default_config 0 (lit "GLM-4.5") false
                (Responds true [frame "answer" (lit "hi") [] true;
                                frame "done" [] [] true] ReadFails))
    as [H [E _]].
  pose proof (stream_terminal_sequence_once default_config 0 (lit "GLM-4.5") false
                (Responds true [frame "done" [] [] true] EndOfData))
    as [_ [_ [L _]]].
  specialize (L (set_streamEnded (new_handler (lit "GLM-4.5") false) true) eq_refl).
  split; [exact H|]. split; [exact E|].
  destruct (handle default_config 0
              (Responds true [frame "done" [] [] true] EndOfData)
              (set_streamEnded (new_handler (lit "GLM-4.5") false) true))
    as [[out h'] r].
  exact (proj1 L).
Defined.

(** C8: a frame that carries an error in any of the three places, met after
    frames that satisfy no terminal condition, makes the stream handler
    yield at once the terminal sequence with finish reason stop and the end
    marker, after what the earlier frames yielded; nothing of the frames
    after it, nor of how the body ends, shows in the output.  The error
    that is reported is the outer one, else the one of data, else the one
    of data.inner. *)
Theorem upstream_error_ends_stream (config : Config) (now : N) (model : jsstr)
    (tools : bool) (before : list UpstreamData) (f : UpstreamData)
    (after : list UpstreamData) (ending : Ending) :
  Forall (fun g => is_terminal g = false) before ->
  (error f <> None \/ data_error (data f) <> None
   \/ exists i, inner (data f) = Some i /\ inner_error i <> None) ->
  stream_output config now model tools (Responds true (before ++ f :: after) ending)
  = stream_output config now model tools (Responds true before EndOfData)
    ++ [Chunk (PRIMARY_MODEL config) NoDelta (Some stop); DONE]
  /\ (forall e, error f = Some e -> _getError f = Some e)
  /\ (forall e, error f = None -> data_error (data f) = Some e ->
                _getError f = Some e)
  /\ (forall i e, error f = None -> data_error (data f) = None ->
                  inner (data f) = Some i -> inner_error i = Some e ->
                  _getError f = Some e).
Proof.
  intros Hb Hf.
  assert (He : _hasError f = true).
  { unfold _hasError. destruct Hf as [H | [H | (i & Hi & H)]].
    - destruct (error f); [reflexivity | contradiction].
    - destruct (data_error (data f)); [|contradiction].
      cbn. rewrite orb_true_r. reflexivity.
    - rewrite Hi. destruct (inner_error i); [|contradiction].
      rewrite !orb_true_r. reflexivity. }
  split; [|unfold _getError; repeat split].
  - unfold stream_output. rewrite !handle_ok. cbv zeta.
    rewrite (process_stream_error config now false before f after ending He Hb
               (new_handler model tools) eq_refl).
    destruct (process_stream_no_terminal config now false before Hb
                (new_handler model tools) eq_refl) as (o & h' & E & He').
    rewrite E. reflexivity.
  - intros e ->. reflexivity.
  - intros e -> ->. reflexivity.
  - intros i e -> -> -> ->. reflexivity.
Qed.

Lemma upstream_error_ends_stream_witness :
  stream_output default_config 0 (lit "GLM-4.6") false
    (Responds true
       ([frame "answer" (lit "par") [] false] ++
        inner_error_frame :: [frame "answer" (lit "tial") [] true]) EndOfData)
  = [Chunk (lit "GLM-4.6") (RoleDelta (lit "assistant")) None;
     Chunk (lit "GLM-4.6") (ContentDelta (lit "par")) None;
     Chunk (lit "GLM-4.5") NoDelta (Some stop); DONE].
Proof.
  refine (eq_trans
    (proj1 (upstream_error_ends_stream default_config 0 (lit "GLM-4.6") false
              [frame "answer" (lit "par") [] false] inner_error_frame
              [frame "answer" (lit "tial") [] true] EndOfData _ _)) _).
  - repeat constructor.
  - right. right. exists {| inner_error := Some sample_error |}.
    split; [reflexivity | discriminate].
  - vm_compute. reflexivity.
Defined.

(** The example of the specification: reasoning, content, then the terminal
    sequence. *)
Example stream_thinking_then_answer :
  stream_output (config_with (lit "strip")) 0 (lit "GLM-4.5") false
    (Responds true
       [frame "thinking" (lit "<details><summary>x</summary>hi</details>") [] false;
        frame "answer" (lit "world") [] true]
       EndOfData)
  = [Chunk (lit "GLM-4.5") (RoleDelta (lit "assistant")) None;
     Chunk (lit "GLM-4.5") (ReasoningDelta (lit "hi")) None;
     Chunk (lit "GLM-4.5") (ContentDelta (lit "world")) None;
     Chunk (lit "GLM-4.5") NoDelta (Some stop);
     DONE].
Proof. vm_compute. reflexivity. Qed.

(** C7, on the code: in the streaming path without tools, a second answer
    frame whose edit_content is not empty is special-cased like the first,
    and the content found after the marker is yielded again. *)
Example initial_answer_sent_again :
  stream_output default_config 0 (lit "GLM-4.5") false
    (Responds true
       [frame "answer" [] (lit "<details>plan</details>Hello") false;
        frame "answer" (lit " world") (lit "<details>plan</details>Hello world") false]
       EndOfData)
  = [Chunk (lit "GLM-4.5") (RoleDelta (lit "assistant")) None;
     Chunk (lit "GLM-4.5") (ContentDelta (lit "Hello")) None;
     Chunk (lit "GLM-4.5") (ContentDelta (lit "Hello world")) None;
     Chunk (lit "GLM-4.5") (ContentDelta (lit " world")) None].
Proof. vm_compute. reflexivity. Qed.

(** ** The non-streaming handler *)

Section NonStream.

Variable config : Config.

Lemma collect_same_but_edit (frames frames' : list UpstreamData) (ending : Ending) :
  Forall2 same_but_edit frames frames' ->
  collect config frames ending = collect config frames' ending.
Proof.
  induction 1 as [|f g frames frames' (Hd & Hp & Hf) _ IH]; [reflexivity|].
  cbn [collect]. rewrite Hd, Hp, Hf, IH. reflexivity.
Qed.

Lemma collect_no_delta (frames : list UpstreamData) (ending : Ending) :
  Forall (fun f => delta_content (data f) = []) frames ->
  collect config frames ending = Ok []
  \/ (collect config frames ending = Throw /\ ending = ReadFails).
Proof.
  induction 1 as [|f frames Hf _ IH].
  - destruct ending; [left | right; split]; reflexivity.
  - cbn [collect]. rewrite Hf. cbn [JS.truthy].
    destruct (done (data f) || JS.eqb (phase (data f)) done_phase);
      [left; reflexivity|].
    destruct IH as [-> | [-> ->]]; [left | right; split]; reflexivity.
Qed.

End NonStream.

(** C10: the non-streaming handler collects the delta_content of the frames
    only: frames that differ in their edit_content alone are collected
    alike, and when every frame has an empty delta_content, whatever its
    edit_content, the message of the response has the empty string as its
    content (the handler rejects only if reading the body throws). *)
Theorem nonstream_collects_delta_only (config : Config) (now : N) (model : jsstr)
    (tools : bool) (frames : list UpstreamData) (ending : Ending) :
  (forall frames', Forall2 same_but_edit frames frames' ->
     collect config frames ending = collect config frames' ending)
  /\ (Forall (fun f => delta_content (data f) = []) frames ->
      match handle_full config now model tools (Responds true frames ending) with
      | Ok r => r = {| status := 200; body := Completion model (Some []) None stop |}
      | Throw => ending = ReadFails
      end).
Proof.
  split; [intros frames'; apply collect_same_but_edit|].
  intros H. unfold handle_full.
  destruct (collect_no_delta config frames ending H) as [-> | [-> ->]];
    [|reflexivity].
  destruct tools; reflexivity.
Qed.

Lemma nonstream_collects_delta_only_witness :
  handle_full default_config 0 (lit "GLM-4.5") false
    (Responds true
       [frame "answer" [] (lit "<details>plan</details>Hello") false;
        frame "answer" [] (lit "<details>plan</details>Hello world") true]
       EndOfData)
  = Ok {| status := 200;
          body := Completion (lit "GLM-4.5") (Some []) None stop |}.
Proof.
  pose proof (proj2 (nonstream_collects_delta_only default_config 0 (lit "GLM-4.5")
                       false
                       [frame "answer" [] (lit "<details>plan</details>Hello") false;
                        frame "answer" [] (lit "<details>plan</details>Hello world") true]
                       EndOfData)) as H.
  assert (F : Forall (fun f => delta_content (data f) = [])
                [frame "answer" [] (lit "<details>plan</details>Hello") false;
                 frame "answer" [] (lit "<details>plan</details>Hello world") true])
    by (repeat constructor).
  specialize (H F).
  destruct (handle_full default_config 0 (lit "GLM-4.5") false
              (Responds true
                 [frame "answer" [] (lit "<details>plan</details>Hello") false;
                  frame "answer" [] (lit "<details>plan</details>Hello world") true]
                 EndOfData)) as [r|].
  - f_equal. exact H.
  - discriminate H.
Defined.

(** ** The event decoder *)

Section Decoder.

(** Decoding a chunk after another is decoding their concatenation. *)
Lemma decode_app (a b : list Byte.byte) :
  forall st,
  Utf8.decode st (a ++ b) =
  let '(st1, t1) := Utf8.decode st a in
  let '(st2, t2) := Utf8.decode st1 b in
  (st2, t1 ++ t2).
Proof.
  induction a as [|x a IH]; intros st.
  - cbn. destruct (Utf8.decode st b). reflexivity.
  - cbn [app Utf8.decode]. destruct (Utf8.decode_byte st x) as [sx tx].
    rewrite IH. destruct (Utf8.decode sx a) as [s1 t1].
    destruct (Utf8.decode s1 b) as [s2 t2]. rewrite app_assoc. reflexivity.
Qed.

(** The pieces of [split('\n')], with a piece begun as [acc]. *)
Lemma split_nl_cons (acc : jsstr) (c : N) (s : jsstr) :
  split_go nl O acc (c :: s) =
  if c =? 10 then rev acc :: split_go nl O [] s
  else split_go nl O (c :: acc) s.
Proof.
  cbn [split_go]. unfold startsWith, nl. cbn [strip_prefix List.length Nat.sub].
  rewrite (N.eqb_sym 10 c). destruct (c =? 10); reflexivity.
Qed.

Lemma split_nl_nonempty (s : jsstr) : forall acc, split_go nl O acc s <> [].
Proof.
  induction s as [|c s IH]; intros acc; [discriminate|].
  rewrite split_nl_cons. destruct (c =? 10); [discriminate | apply IH].
Qed.

Lemma split_nl_app (a b : jsstr) :
  forall acc,
  split_go nl O acc (a ++ b) =
  removelast (split_go nl O acc a)
  ++ split_go nl O (rev (last (split_go nl O acc a) [])) b.
Proof.
  induction a as [|c a IH]; intros acc.
  - cbn. rewrite rev_involutive. reflexivity.
  - cbn [app]. rewrite !split_nl_cons. destruct (c =? 10); [|apply IH].
    rewrite IH.
    pose proof (split_nl_nonempty a []) as N.
    destruct (split_go nl O [] a) as [|p ps] eqn:E; [contradiction|].
    reflexivity.
Qed.

(** The last piece holds no line feed: split again, it is itself. *)
Lemma split_nl_last (s : jsstr) :
  forall acc, ~ In 10 acc ->
  split nl (last (split_go nl O acc s) []) = [last (split_go nl O acc s) []].
Proof.
  assert (plain : forall t acc, ~ In 10 t ->
            split_go nl O acc t = [rev acc ++ t]).
  { induction t as [|c t IH]; intros acc Ht.
    - cbn. rewrite app_nil_r. reflexivity.
    - rewrite split_nl_cons. destruct (N.eqb_spec c 10) as [->|Hc].
      + exfalso. apply Ht. left. reflexivity.
      + rewrite IH by (intros H; apply Ht; right; exact H).
        cbn [rev]. rewrite <- app_assoc. reflexivity. }
  induction s as [|c s IH]; intros acc Ha.
  - cbn [split_go last]. unfold split. rewrite plain.
    + reflexivity.
    + intros H. apply Ha. apply in_rev. exact H.
  - rewrite split_nl_cons. destruct (N.eqb_spec c 10) as [->|Hc].
    + pose proof (split_nl_nonempty s []) as N.
      destruct (split_go nl O [] s) as [|p ps] eqn:E; [contradiction|].
      change (last (rev acc :: p :: ps) []) with (last (p :: ps) []).
      rewrite <- E. apply IH. intros [].
    + apply IH. intros [H | H]; [apply Hc; exact H | exact (Ha H)].
Qed.

(** Splitting a text that goes on: the complete lines so far, then the
    split of the last piece with what follows. *)
Lemma split_nl_resume (s t : jsstr) :
  split nl (s ++ t) =
  removelast (split nl s) ++ split nl (last (split nl s) [] ++ t).
Proof.
  unfold split. rewrite (split_nl_app s t []). f_equal.
  rewrite (split_nl_app (last (split_go nl O [] s) []) t []).
  pose proof (split_nl_last s [] (fun H => H)) as L. unfold split in L.
  rewrite L. reflexivity.
Qed.

(** The loop of [iterEvents] yields the events of the complete lines of the
    buffer followed by the decoded rest of the body. *)
Lemma read_loop_lines (chunks : list (list Byte.byte)) (ending : Ending) :
  forall decoder buffer,
  split nl buffer = [buffer] ->
  read_loop decoder buffer chunks ending =
  (flat_map decode_line
     (removelast (split nl (buffer ++ snd (Utf8.decode decoder (concat chunks))))),
   outcome ending).
Proof.
  induction chunks as [|value chunks IH]; intros decoder buffer Hb.
  - cbn [read_loop concat Utf8.decode snd]. rewrite app_nil_r, Hb.
    destruct ending; reflexivity.
  - cbn [read_loop concat]. rewrite decode_app.
    destruct (Utf8.decode decoder value) as [d1 t1].
    specialize (IH d1 (last (split nl (buffer ++ t1)) [])).
    destruct (Utf8.decode d1 (concat chunks)) as [d2 t2] eqn:E2.
    cbn [snd] in *.
    rewrite IH by (apply split_nl_last; intros []).
    f_equal. rewrite <- flat_map_app. f_equal.
    rewrite app_assoc, (split_nl_resume (buffer ++ t1) t2).
    rewrite removelast_app by (apply split_nl_nonempty). reflexivity.
Qed.

End Decoder.

(** C2: however the bytes of a body are cut into chunks, [iterEvents]
    yields the same events and ends the same way; they are the events of
    the complete lines of the decoded body, the text after the last line
    feed being kept in the buffer and never decoded. *)
Theorem iterEvents_chunking_invariant (chunks1 chunks2 : list (list Byte.byte))
    (ending : Ending) :
  concat chunks1 = concat chunks2 ->
  iterEvents chunks1 ending = iterEvents chunks2 ending
  /\ fst (iterEvents chunks1 ending)
     = flat_map decode_line
         (removelast (split nl (snd (Utf8.decode Utf8.initial (concat chunks1))))).
Proof.
  intros H. unfold iterEvents.
  rewrite !read_loop_lines by reflexivity. rewrite H. split; reflexivity.
Qed.

Lemma iterEvents_chunking_invariant_witness :
  iterEvents [bytes "da"; bytes "ta: {}" ++ [Byte.x0a] ++ bytes "id"; bytes ": 7"]
    EndOfData
  = iterEvents [bytes "data: {}" ++ [Byte.x0a] ++ bytes "id: 7"] EndOfData.
Proof.
  apply (iterEvents_chunking_invariant
           [bytes "da"; bytes "ta: {}" ++ [Byte.x0a] ++ bytes "id"; bytes ": 7"]
           [bytes "data: {}" ++ [Byte.x0a] ++ bytes "id: 7"] EndOfData).
  vm_compute. reflexivity.
Defined.

(** ** Patterns and spans *)

Section Matching.

Lemma span_cons_inv (sp : jsstr) (r : option found) (spans0 : list jsstr)
    (rest : jsstr) :
  span_cons sp r = Some (spans0, rest) ->
  exists sps, spans0 = sp :: sps /\ r = Some (sps, rest).
Proof.
  destruct r as [[sps rest']|]; [|discriminate].
  cbn. intros H. injection H as <- <-. exists sps. split; reflexivity.
Qed.

Lemma span_push_inv (c : N) (r : option found) (spans0 : list jsstr)
    (rest : jsstr) :
  span_push c r = Some (spans0, rest) ->
  exists sp sps, spans0 = (c :: sp) :: sps /\ r = Some (sp :: sps, rest).
Proof.
  destruct r as [[[|sp sps] rest']|]; try discriminate.
  cbn. intros H. injection H as <- <-. exists sp, sps. split; reflexivity.
Qed.

(** What a match consumed, followed by the rest, is the text. *)
Lemma match_items_sound (its : pattern) :
  forall s spans0 rest,
  match_items its s = Some (spans0, rest) -> s = concat spans0 ++ rest.
Proof.
  induction its as [|it more IH]; intros s spans0 rest H.
  - cbn in H. injection H as <- <-. reflexivity.
  - destruct it as [l | a b | p | p | p]; cbn [match_items] in H.
    + destruct (strip_prefix l s) as [s'|] eqn:E; [|discriminate].
      apply span_cons_inv in H as (sps & -> & H).
      apply strip_prefix_app in E. apply IH in H. subst. cbn.
      rewrite app_assoc. reflexivity.
    + destruct (match strip_prefix a s with
                | Some s' => span_cons a (match_items more s')
                | None => None
                end) as [r|] eqn:Ea.
      * injection H as ->.
        destruct (strip_prefix a s) as [s'|] eqn:E; [|discriminate].
        apply span_cons_inv in Ea as (sps & -> & H).
        apply strip_prefix_app in E. apply IH in H. subst. cbn.
        rewrite app_assoc. reflexivity.
      * destruct (strip_prefix b s) as [s'|] eqn:E; [|discriminate].
        apply span_cons_inv in H as (sps & -> & H).
        apply strip_prefix_app in E. apply IH in H. subst. cbn.
        rewrite app_assoc. reflexivity.
    + destruct s as [|c s']; [discriminate|].
      destruct (p c); [|discriminate].
      apply span_cons_inv in H as (sps & -> & H). apply IH in H. subst.
      reflexivity.
    + revert spans0 rest H. induction s as [|c s' IHs]; intros spans0 rest H.
      * apply span_cons_inv in H as (sps & -> & H). apply IH in H. exact H.
      * destruct (p c).
        -- destruct (span_push c _) as [r|] eqn:Ep.
           ++ injection H as ->.
              apply span_push_inv in Ep as (sp & sps & -> & Ep).
              apply IHs in Ep. rewrite Ep. reflexivity.
           ++ apply span_cons_inv in H as (sps & -> & H). apply IH in H. exact H.
        -- apply span_cons_inv in H as (sps & -> & H). apply IH in H. exact H.
    + revert spans0 rest H. induction s as [|c s' IHs]; intros spans0 rest H.
      * destruct (span_cons [] (match_items more [])) as [r|] eqn:Ec; [|discriminate].
        injection H as ->.
        apply span_cons_inv in Ec as (sps & -> & H). apply IH in H. exact H.
      * destruct (span_cons [] (match_items more (c :: s'))) as [r|] eqn:Ec.
        -- injection H as ->.
           apply span_cons_inv in Ec as (sps & -> & H). apply IH in H. exact H.
        -- destruct (p c); [|discriminate].
           apply span_push_inv in H as (sp & sps & -> & Ep).
           apply IHs in Ep. rewrite Ep. reflexivity.
Qed.


(** A match reports one text for each item of the pattern. *)
Lemma match_items_length (its : pattern) :
  forall s spans0 rest,
  match_items its s = Some (spans0, rest) -> List.length spans0 = List.length its.
Proof.
  induction its as [|it more IH]; intros s spans0 rest H.
  - cbn in H. injection H as <- <-. reflexivity.
  - destruct it as [l | a b | p | p | p]; cbn [match_items] in H.
    + destruct (strip_prefix l s) as [s'|]; [|discriminate].
      apply span_cons_inv in H as (sps & -> & H). cbn. f_equal. eapply IH, H.
    + destruct (match strip_prefix a s with
                | Some s' => span_cons a (match_items more s')
                | None => None
                end) as [r|] eqn:Ea.
      * injection H as ->.
        destruct (strip_prefix a s) as [s'|]; [|discriminate].
        apply span_cons_inv in Ea as (sps & -> & H). cbn. f_equal. eapply IH, H.
      * destruct (strip_prefix b s) as [s'|]; [|discriminate].
        apply span_cons_inv in H as (sps & -> & H). cbn. f_equal. eapply IH, H.
    + destruct s as [|c s']; [discriminate|].
      destruct (p c); [|discriminate].
      apply span_cons_inv in H as (sps & -> & H). cbn. f_equal. eapply IH, H.
    + revert spans0 rest H. induction s as [|c s' IHs]; intros spans0 rest H.
      * apply span_cons_inv in H as (sps & -> & H). cbn. f_equal. eapply IH, H.
      * destruct (p c).
        -- destruct (span_push c _) as [r|] eqn:Ep.
           ++ injection H as ->.
              apply span_push_inv in Ep as (sp & sps & -> & Ep).
              apply IHs in Ep. exact Ep.
           ++ apply span_cons_inv in H as (sps & -> & H). cbn. f_equal. eapply IH, H.
        -- apply span_cons_inv in H as (sps & -> & H). cbn. f_equal. eapply IH, H.
    + revert spans0 rest H. induction s as [|c s' IHs]; intros spans0 rest H.
      * destruct (span_cons [] (match_items more [])) as [r|] eqn:Ec; [|discriminate].
        injection H as ->.
        apply span_cons_inv in Ec as (sps & -> & H). cbn. f_equal. eapply IH, H.
      * destruct (span_cons [] (match_items more (c :: s'))) as [r|] eqn:Ec.
        -- injection H as ->.
           apply span_cons_inv in Ec as (sps & -> & H). cbn. f_equal. eapply IH, H.
        -- destruct (p c); [|discriminate].
           apply span_push_inv in H as (sp & sps & -> & Ep).
           apply IHs in Ep. exact Ep.
Qed.

(** A pattern that begins with a literal: the first text of a match is the
    literal. *)
Lemma match_items_lit (l : jsstr) (more : pattern) (s : jsstr)
    (spans0 : list jsstr) (rest : jsstr) :
  match_items (Lit l :: more) s = Some (spans0, rest) ->
  exists sps, spans0 = l :: sps.
Proof.
  cbn [match_items]. destruct (strip_prefix l s) as [s'|]; [|discriminate].
  intros H. apply span_cons_inv in H as (sps & -> & _). exists sps. reflexivity.
Qed.

(** Every match of [matchAll] is a match at some place of the text. *)
Lemma match_all_go_in (its : pattern) (spans0 : list jsstr) (s : jsstr) :
  forall skip,
  In spans0 (match_all_go its skip s) ->
  exists pre suf rest,
    s = pre ++ suf /\ match_items its suf = Some (spans0, rest).
Proof.
  induction s as [|c s IH]; intros skip H; [destruct H|].
  assert (later : forall k, In spans0 (match_all_go its k s) ->
            exists pre suf rest,
              c :: s = pre ++ suf /\ match_items its suf = Some (spans0, rest)).
  { intros k Hk. destruct (IH k Hk) as (pre & suf & rest & -> & M).
    exists (c :: pre), suf, rest. split; [reflexivity | exact M]. }
  cbn [match_all_go] in H. destruct skip as [|k]; [|apply (later k), H].
  destruct (match_items its (c :: s)) as [[sp rest]|] eqn:M; [|apply (later O), H].
  destruct H as [-> | H]; [|eapply later, H].
  exists [], (c :: s), rest. split; [reflexivity | exact M].
Qed.

Lemma prefixes_in (p r : jsstr) : In p (prefixes (p ++ r)).
Proof.
  induction p as [|c p IH]; [destruct r; left; reflexivity|].
  cbn. right. apply in_map, IH.
Qed.

(** Every stretch of a text is among its spans. *)
Lemma spans_in (pre span post : jsstr) : In span (spans (pre ++ span ++ post)).
Proof.
  induction pre as [|c pre IH].
  - cbn [app]. destruct (span ++ post) eqn:E.
    + destruct span; [left; reflexivity | discriminate].
    + cbn [spans]. apply in_or_app. left. rewrite <- E. apply prefixes_in.
  - cbn [app spans]. apply in_or_app. right. exact IH.
Qed.

Lemma no_tool_call_span_at (text pre span post : jsstr) :
  no_tool_call_span text = true -> text = pre ++ span ++ post ->
  is_tool_call span = false.
Proof.
  intros H ->. unfold no_tool_call_span in H. rewrite forallb_forall in H.
  specialize (H span (spans_in pre span post)).
  destruct (is_tool_call span); [discriminate | reflexivity].
Qed.

End Matching.

(** ** Extraction *)

Section Extraction.

Lemma try_tool_calls_inv (jsonStr : jsstr) (calls : list value) :
  try_tool_calls jsonStr = Some calls ->
  exists parsed array,
    parse jsonStr = Some parsed
    /\ get parsed tool_calls_key = Ok (Some (Arr array))
    /\ ensure_all array = Ok calls.
Proof.
  unfold try_tool_calls. destruct (parse jsonStr) as [parsed|]; [|discriminate].
  destruct (get parsed tool_calls_key) as [[[| | | |array|]|]|] eqn:G;
    try discriminate.
  destruct (ensure_all array) as [normalized|] eqn:E; [|discriminate].
  intros H. injection H as <-. exists parsed, array.
  split; [reflexivity|]. split; [exact G | exact E].
Qed.

Lemma first_tool_calls_inv (candidates : list jsstr) (calls : list value) :
  first_tool_calls candidates = Some calls ->
  exists c, In c candidates /\ try_tool_calls c = Some calls.
Proof.
  induction candidates as [|c more IH]; [discriminate|].
  cbn [first_tool_calls]. destruct (try_tool_calls c) as [found0|] eqn:E.
  - intros H. injection H as <-. exists c. split; [left; reflexivity | exact E].
  - intros H. destruct (IH H) as (c' & Hin & Hc).
    exists c'. split; [right; exact Hin | exact Hc].
Qed.

Lemma scan_inline_inv (s : jsstr) (calls : list value) :
  scan_inline s = Some calls ->
  exists pre c s' n,
    s = pre ++ c :: s' /\ try_tool_calls (c :: firstn n s') = Some calls.
Proof.
  induction s as [|c s IH]; [discriminate|].
  assert (later : scan_inline s = Some calls ->
            exists pre c0 s' n,
              c :: s = pre ++ c0 :: s'
              /\ try_tool_calls (c0 :: firstn n s') = Some calls).
  { intros H. destruct (IH H) as (pre & c0 & s' & n & -> & T).
    exists (c :: pre), c0, s', n. split; [reflexivity | exact T]. }
  cbn [scan_inline]. destruct (c =? 123); [|exact later].
  unfold candidate. destruct (balance 1 false false O s) as [n|]; [|exact later].
  destruct (try_tool_calls (c :: firstn n s)) as [found0|] eqn:T; [|exact later].
  intros H. injection H as <-. exists [], c, s, n. split; [reflexivity | exact T].
Qed.

(** The group of a match of the fence pattern is a stretch of the text
    matched, which is not empty. *)
Lemma fence_group_of_match (suf : jsstr) (spans0 : list jsstr) (rest : jsstr) :
  match_items TOOL_CALL_FENCE_PATTERN suf = Some (spans0, rest) ->
  (exists a b, suf = a ++ fence_group spans0 ++ b) /\ concat spans0 <> [].
Proof.
  intros M. pose proof (match_items_length _ _ _ _ M) as L.
  pose proof (match_items_lit _ _ _ _ _ M) as (sps & E).
  apply match_items_sound in M. subst suf.
  split; [|rewrite E; discriminate].
  destruct spans0 as [|a [|b [|c [|d [|e [|f [|g [|]]]]]]]]; try discriminate L.
  exists (a ++ b), (f ++ g ++ rest).
  unfold fence_group. cbn. rewrite app_nil_r, <- !app_assoc. reflexivity.
Qed.

Lemma fence_group_span (s : jsstr) (spans0 : list jsstr) :
  In spans0 (match_all TOOL_CALL_FENCE_PATTERN s) ->
  exists pre post, s = pre ++ fence_group spans0 ++ post.
Proof.
  intros H. apply match_all_go_in in H as (pre & suf & rest & -> & M).
  apply fence_group_of_match in M as [(a & b & ->) _].
  exists (pre ++ a), b. rewrite <- app_assoc. reflexivity.
Qed.

(** A text that begins with the first ideograph of the natural language
    pattern is not JSON. *)
Lemma parse_ideograph (t : jsstr) : parse (35843 :: t) = None.
Proof.
  unfold parse. cbn [List.length].
  replace (2 * S (List.length t) + 2)%nat
    with (S (2 * S (List.length t) + 1))%nat by lia.
  reflexivity.
Qed.

Lemma trim_ideograph (t : jsstr) : exists u, trim (35843 :: t) = 35843 :: u.
Proof.
  unfold trim. rewrite trimStart_fixed by reflexivity.
  apply trimEnd_head. reflexivity.
Qed.

(** The matched texts of the natural language pattern are not JSON. *)
Lemma natural_match_not_json (s m : jsstr) :
  In m (map whole (match_all FUNCTION_CALL_PATTERN s)) -> parse (trim m) = None.
Proof.
  intros H. apply in_map_iff in H as (spans0 & <- & H).
  apply match_all_go_in in H as (pre & suf & rest & _ & M).
  apply match_items_lit in M as (sps & ->).
  change (whole ([35843; 29992; 20989; 25968] :: sps))
    with (35843 :: [29992; 20989; 25968] ++ concat sps).
  destruct (trim_ideograph ([29992; 20989; 25968] ++ concat sps)) as [u ->].
  apply parse_ideograph.
Qed.

(** What the third attempt comes to: [null], or a TypeError. *)
Lemma natural_attempt (now : N) (s : jsstr) :
  let attempt :=
    match map whole (match_all FUNCTION_CALL_PATTERN s) with
    | [] => Ok None
    | naturalLangMatch =>
        match nth_error naturalLangMatch 1 with
        | None => Throw
        | Some m1 =>
            match nth_error naturalLangMatch 2 with
            | None => Throw
            | Some m2 =>
                match parse (trim m2) with
                | Some _ =>
                    Ok (Some
                      [Obj [(lit "id", Str (lit "call_" ++ decimal (now * 1000000)));
                            (lit "type", Str (lit "function"));
                            (function_key,
                             Obj [(lit "name", Str (trim m1));
                                  (arguments_key, Str (trim m2))])]])
                | None => Ok None
                end
            end
        end
    end in
  attempt = Ok None \/ attempt = Throw.
Proof.
  cbv zeta. pose proof (natural_match_not_json s) as NJ.
  destruct (map whole (match_all FUNCTION_CALL_PATTERN s)) as [|m0 ms];
    [left; reflexivity|].
  destruct (nth_error (m0 :: ms) 1) as [m1|]; [|right; reflexivity].
  destruct (nth_error (m0 :: ms) 2) as [m2|] eqn:E2; [|right; reflexivity].
  rewrite (NJ m2 (nth_error_In _ _ E2)). left. reflexivity.
Qed.

(** Every list that the extraction returns is made of the [tool_calls]
    array of a JSON object found in the text. *)
Lemma extract_found (config : Config) (now : N) (text : jsstr)
    (calls : list value) :
  extractToolInvocations config now text = Ok (Some calls) -> found_in text calls.
Proof.
  unfold extractToolInvocations. destruct (negb (JS.truthy text)); [discriminate|].
  unfold substring. rewrite Nat.sub_0_r. cbn [skipn].
  set (scannableText := firstn (SCAN_LIMIT config) text).
  assert (within : forall pre jsonStr post,
            scannableText = pre ++ jsonStr ++ post ->
            try_tool_calls jsonStr = Some calls -> found_in text calls).
  { intros pre jsonStr post E T.
    apply try_tool_calls_inv in T as (parsed & array & P & G & N).
    exists pre, jsonStr, (post ++ skipn (SCAN_LIMIT config) text), parsed, array.
    repeat split; try assumption.
    rewrite <- (firstn_skipn (SCAN_LIMIT config) text) at 1.
    fold scannableText. rewrite E, <- !app_assoc. reflexivity. }
  destruct (first_tool_calls _) as [found1|] eqn:A1.
  - intros H. injection H as ->.
    apply first_tool_calls_inv in A1 as (c & Hin & T).
    apply in_map_iff in Hin as (spans0 & <- & Hin).
    apply fence_group_span in Hin as (pre & post & E).
    exact (within pre _ post E T).
  - destruct (scan_inline scannableText) as [found2|] eqn:A2.
    + intros H. injection H as ->.
      apply scan_inline_inv in A2 as (pre & c & s' & n & E & T).
      apply (within pre (c :: firstn n s') (skipn n s')); [|exact T].
      rewrite E. cbn [app]. rewrite firstn_skipn. reflexivity.
    + intros H. exfalso.
      destruct (natural_attempt now scannableText) as [N | N]; cbv zeta in N;
        rewrite N in H; discriminate H.
Qed.

Lemma ensure_all_length (array calls : list value) :
  ensure_all array = Ok calls -> List.length calls = List.length array.
Proof.
  revert calls. induction array as [|tc array IH]; intros calls H.
  - injection H as <-. reflexivity.
  - cbn [ensure_all] in H. destruct (ensure_arguments_string tc); [|discriminate].
    destruct (ensure_all array) as [more|]; [|discriminate].
    injection H as <-. cbn. f_equal. apply IH. reflexivity.
Qed.


(** An object from which the extraction takes its list is, for the removal,
    a tool call. *)
Lemma found_is_tool_call (jsonStr : jsstr) (parsed v : value) :
  parse jsonStr = Some parsed -> get parsed tool_calls_key = Ok (Some v) ->
  is_tool_call jsonStr = true.
Proof.
  intros P G. unfold is_tool_call. rewrite P.
  destruct parsed; try discriminate G. cbn in G |- *.
  injection G as ->. reflexivity.
Qed.

(** Replacing keeps a text in which the pattern matches nowhere. *)
Lemma replace_go_no_match (its : pattern) (f : list jsstr -> jsstr) :
  forall s prev,
  match_all_go its O s = [] -> replace_go false its f prev O s = s.
Proof.
  induction s as [|c s IH]; intros prev H; [reflexivity|].
  cbn [match_all_go] in H. cbn [replace_go negb orb].
  destruct (match_items its (c :: s)) as [[spans0 rest]|]; [discriminate|].
  rewrite (IH _ H). reflexivity.
Qed.

(** The inline removal keeps a text none of whose candidates is a tool
    call. *)
Lemma remove_inline_keep :
  forall s,
  (forall pre c s' n, s = pre ++ c :: s' -> is_tool_call (c :: firstn n s') = false) ->
  remove_inline O s = s.
Proof.
  induction s as [|c s IH]; intros H; [reflexivity|].
  assert (IH' : remove_inline O s = s).
  { apply IH. intros pre d s' n ->. apply (H (c :: pre) d s' n). reflexivity. }
  cbn [remove_inline]. destruct (c =? 123); [|rewrite IH'; reflexivity].
  destruct (balance 1 false false O s) as [n|]; [|rewrite IH'; reflexivity].
  rewrite (H [] c s n eq_refl), IH'. reflexivity.
Qed.

End Extraction.

(** C6, as stated, fails: an object whose tool_calls array is empty makes
    the extraction return the empty list. *)
Lemma extract_returns_empty_list :
  extractToolInvocations default_config 0 (q "{'tool_calls':[]}") = Ok (Some []).
Proof. vm_compute. reflexivity. Qed.

(** C6 (amended): whenever extractToolInvocations returns a list, a stretch
    of the text is a JSON object with a tool_calls array, and the list is
    that array, normalised: it has as many invocations as the array, and is
    empty when the array is. *)
Theorem extract_list_of_found_array (config : Config) (now : N) (text : jsstr)
    (calls : list value) :
  extractToolInvocations config now text = Ok (Some calls) ->
  exists pre jsonStr post parsed array,
    text = pre ++ jsonStr ++ post
    /\ parse jsonStr = Some parsed
    /\ get parsed tool_calls_key = Ok (Some (Arr array))
    /\ ensure_all array = Ok calls
    /\ List.length calls = List.length array
    /\ (array = [] -> calls = []).
Proof.
  intros H. apply extract_found in H
    as (pre & jsonStr & post & parsed & array & E & P & G & N).
  exists pre, jsonStr, post, parsed, array.
  split; [exact E|]. split; [exact P|]. split; [exact G|]. split; [exact N|].
  split; [apply ensure_all_length, N|].
  intros ->. cbn in N. injection N as <-. reflexivity.
Qed.

Lemma extract_list_of_found_array_witness :
  exists pre jsonStr post parsed array,
    fenced_call = pre ++ jsonStr ++ post
    /\ parse jsonStr = Some parsed
    /\ get parsed tool_calls_key = Ok (Some (Arr array))
    /\ ensure_all array = Ok fenced_call_result
    /\ List.length fenced_call_result = List.length array
    /\ (array = [] -> fenced_call_result = []).
Proof.
  apply (extract_list_of_found_array default_config 0 fenced_call fenced_call_result).
  vm_compute. reflexivity.
Defined.

(** The example of the specification: arguments given as an object come out
    as a JSON string. *)
Example extract_fenced_call :
  extractToolInvocations default_config 0 fenced_call = Ok (Some fenced_call_result).
Proof. vm_compute. reflexivity. Qed.

(** Where the normalisation does reach: arguments that are truthy and not
    a string come out as a string. *)
Lemma ensure_arguments_string_truthy (tc func args : value) :
  get tc function_key = Ok (Some func) -> truthy func = true ->
  get func arguments_key = Ok (Some args) -> truthy args = true ->
  exists tc' func' text,
    ensure_arguments_string tc = Ok tc'
    /\ get tc' function_key = Ok (Some func')
    /\ get func' arguments_key = Ok (Some (Str text)).
Proof.
  intros Gf Tf Ga Ta. unfold ensure_arguments_string. rewrite Gf, Tf, Ga, Ta.
  destruct tc as [| | | | |props]; try discriminate Gf.
  destruct func as [| | | | |fprops]; try discriminate Ga.
  unfold get in Gf, Ga.
  assert (assigned : forall key v ps w, lookup key ps = Some w ->
            lookup key (assign key v ps) = Some v).
  { intros key v ps. induction ps as [|[k u] ps IH]; intros w L; [discriminate|].
    cbn in L |- *. destruct (JS.eqb k key) eqn:K.
    - cbn. rewrite K. reflexivity.
    - cbn. rewrite K. eapply IH, L. }
  injection Gf as Gf. injection Ga as Ga.
  assert (stringified :
            exists tc' func',
              Ok (set_prop (Obj props) function_key
                    (set_prop (Obj fprops) arguments_key (Str (stringify args))))
              = Ok tc'
              /\ get tc' function_key = Ok (Some func')
              /\ get func' arguments_key = Ok (Some (Str (stringify args)))).
  { eexists _, _. split; [reflexivity|]. cbn [set_prop get]. split.
    - rewrite (assigned _ _ _ _ Gf). reflexivity.
    - cbn [get]. rewrite (assigned _ _ _ _ Ga). reflexivity. }
  destruct stringified as (tc' & func' & E & G1 & G2).
  destruct (typeof_object args) eqn:TO.
  - exists tc', func', (stringify args). repeat split; assumption.
  - destruct (typeof_string args) eqn:TS; cbn [negb].
    + destruct args as [| | |text| |]; try discriminate TS.
      exists (Obj props), (Obj fprops), text. unfold get. rewrite Gf, Ga.
      repeat split.
    + exists tc', func', (stringify args). repeat split; assumption.
Qed.

(** C5, on the code: arguments that are the number zero are left as they
    are, and so are false and null: the invocation returned has arguments
    that are not a string. *)
Example extract_keeps_falsy_arguments :
  extractToolInvocations default_config 0
    (q "{'tool_calls':[{'function':{'name':'f','arguments':0}}]}")
  = Ok (Some [Obj [(lit "function",
                    Obj [(lit "name", Str (lit "f"));
                         (lit "arguments",
                          Num {| neg := false; coeff := 0; exp10 := 0 |})])]])
  /\ extractToolInvocations default_config 0
       (q "{'tool_calls':[{'function':{'name':'f','arguments':false}}]}")
     = Ok (Some [Obj [(lit "function",
                       Obj [(lit "name", Str (lit "f"));
                            (lit "arguments", Bool false)])]]).
Proof. vm_compute. split; reflexivity. Qed.

(** C9, on the code: on a text that matches the natural language pattern
    once, with arguments that are valid JSON, the extraction throws a
    TypeError: the pattern is global, [match] returns the matched texts and
    not the groups, and [naturalLangMatch[1]] is undefined.  With three
    matches the second and third matched texts are taken for the name and
    the arguments, and the result is null. *)
Example extract_natural_call_throws :
  extractToolInvocations default_config 0 natural_call = Throw
  /\ extractToolInvocations default_config 0
       (natural_call ++ nl ++ natural_call ++ nl ++ natural_call) = Ok None.
Proof. vm_compute. split; reflexivity. Qed.


(** When the text holds no fenced block and no stretch of it is a JSON
    object with a tool_calls key, the removal only trims, and the
    extraction returns no list. *)
Lemma strip_keeps_plain (config : Config) (now : N)
    (text : jsstr) :
  no_fenced_block text = true ->
  no_tool_call_span text = true ->
  removeToolJsonContent text = trim text
  /\ forall calls, extractToolInvocations config now text <> Ok (Some calls).
Proof.
  intros F H. split.
  - unfold removeToolJsonContent, replace.
    rewrite replace_go_no_match.
    + rewrite remove_inline_keep; [reflexivity|].
      intros pre c s' n E.
      apply (no_tool_call_span_at text pre (c :: firstn n s') (skipn n s') H).
      rewrite E. cbn [app]. rewrite firstn_skipn. reflexivity.
    + unfold no_fenced_block, match_all in F.
      destruct (match_all_go TOOL_CALL_FENCE_PATTERN O text);
        [reflexivity | discriminate].
  - intros calls E. apply extract_found in E
      as (pre & jsonStr & post & parsed & array & Et & P & G & _).
    pose proof (found_is_tool_call jsonStr parsed _ P G) as T.
    rewrite (no_tool_call_span_at text pre jsonStr post H Et) in T. discriminate T.
Qed.

(** What the stripping makes of a fenced block: the replacement function
    reads the units of the matched text, and a back quote is all that stays
    of the block, whether it holds a tool call or not. *)
Example strip_fenced_block :
  removeToolJsonContent (lit "before " ++ fenced_call ++ lit " after")
  = lit "before ` after"
  /\ removeToolJsonContent
       (lit "```json" ++ nl ++ q "{'a':1}" ++ nl ++ lit "```")
     = lit "`".
Proof. vm_compute. split; reflexivity. Qed.

(** ** More on the stream handler *)

Section StreamMore.

Variable config : Config.
Variable now : N.

(** [_processContent] with tools: nothing is yielded, the processed
    content goes to the buffer. *)
Lemma processContent_tools (f : UpstreamData) (sent : bool) (h : Handler) :
  hasTools h = true ->
  _processContent config f sent h =
  ([], set_bufferedContent h (bufferedContent h ++ processed_content config f),
   Ok tt).
Proof.
  intros Ht. destruct h as [m t b tc e]. cbn in Ht. subst t.
  unfold _processContent, processed_content, bind, this, update, ret,
    set_bufferedContent.
  cbn [modelName hasTools bufferedContent toolCalls streamEnded].
  destruct (JS.truthy (delta_content (data f))) eqn:D.
  - rewrite D. reflexivity.
  - destruct (JS.truthy (edit_content (data f))) eqn:E; [reflexivity|].
    cbn [negb]. destruct (edit_content (data f)); [|discriminate E].
    destruct (JS.eqb (phase (data f)) thinking);
      [|rewrite app_nil_r; reflexivity].
    replace (transformThinkingContent config []) with (@nil N);
      [rewrite app_nil_r; reflexivity|].
    unfold transformThinkingContent.
    destruct (JS.eqb (THINKING_PROCESSING config) (lit "think"));
      [reflexivity|].
    destruct (JS.eqb (THINKING_PROCESSING config) (lit "strip")); reflexivity.
Qed.

Lemma not_terminal_parts (g : UpstreamData) :
  is_terminal g = false ->
  _hasError g = false /\ done (data g) = false
  /\ JS.eqb (phase (data g)) done_phase = false.
Proof.
  unfold is_terminal. intros H.
  apply orb_false_iff in H as [H Hp]. apply orb_false_iff in H as [He Hd].
  repeat split; assumption.
Qed.

(** The loop of [handle] with tools, over frames that satisfy no terminal
    condition: nothing is yielded and the buffer grows by the processed
    content of each frame. *)
Lemma process_stream_tools (sent : bool) (frames : list UpstreamData)
    (ending : Ending) :
  Forall (fun g => is_terminal g = false) frames ->
  forall h, hasTools h = true ->
  process_stream config now sent frames ending h =
  ([],
   set_bufferedContent h
     (bufferedContent h ++ concat (map (processed_content config) frames)),
   outcome ending).
Proof.
  induction 1 as [|g frames Hg _ IH]; intros h Ht.
  - cbn. rewrite app_nil_r. destruct h, ending; reflexivity.
  - rewrite process_stream_cons.
    destruct (not_terminal_parts g Hg) as (He & Hd & Hp).
    rewrite He, Hd, Hp, (processContent_tools g sent h Ht). cbn [orb andb].
    rewrite IH by exact Ht. destruct h. cbn. rewrite <- app_assoc. reflexivity.
Qed.

(** The loop of [_sendEndChunk] over calls none of which is null. *)
Lemma send_tool_calls_lines (model : jsstr) (calls : list value) :
  Forall (fun tc => tc <> Null) calls ->
  forall i h,
  send_tool_calls model i calls h = (tool_call_lines model i calls, h, Ok tt).
Proof.
  induction 1 as [|tc calls Htc _ IH]; intros i h; [reflexivity|].
  cbn [send_tool_calls tool_call_lines]. unfold prop.
  destruct tc as [| | | | |props]; try contradiction; cbn [get];
    unfold bind, yield; rewrite IH; cbn [app truthy_opt];
    try reflexivity.
  destruct (lookup (lit "type") props) as [t|];
    destruct (lookup function_key props) as [f|]; reflexivity.
Qed.

Lemma ensure_all_not_null (array calls : list value) :
  ensure_all array = Ok calls -> Forall (fun tc => tc <> Null) calls.
Proof.
  revert calls. induction array as [|tc array IH]; intros calls H.
  - injection H as <-. constructor.
  - cbn [ensure_all] in H.
    destruct (ensure_arguments_string tc) as [tc'|] eqn:E; [|discriminate].
    destruct (ensure_all array) as [more|]; [|discriminate].
    injection H as <-. constructor; [|apply IH; reflexivity].
    intros ->. unfold ensure_arguments_string in E.
    destruct tc as [| | | | |props]; try discriminate E;
      cbn [get] in E; try (injection E as E; discriminate E).
    destruct (lookup function_key props) as [func|];
      [|injection E as E; discriminate E].
    destruct (truthy func); [|injection E as E; discriminate E].
    destruct (get func arguments_key) as [[args|]|];
      try discriminate E; try (injection E as E; discriminate E).
    destruct (truthy args); [|injection E as E; discriminate E].
    destruct (typeof_object args);
      [injection E as E; discriminate E|].
    destruct (negb (typeof_string args)); injection E as E; discriminate E.
Qed.

Lemma extracted_not_null (text : jsstr) (calls : list value) :
  extractToolInvocations config now text = Ok (Some calls) ->
  Forall (fun tc => tc <> Null) calls.
Proof.
  intros H. apply extract_found in H as (_ & _ & _ & _ & array & _ & _ & _ & N).
  apply (ensure_all_not_null array calls N).
Qed.

End StreamMore.

Section StreamOutput.

Variable config : Config.
Variable now : N.

(** [_processContent] without tools, called as [handle] calls it: the
    fields stay as they are. *)
Lemma processContent_plain (f : UpstreamData) (h : Handler) :
  hasTools h = false ->
  _processContent config f false h = (frame_lines config (modelName h) f, h, Ok tt).
Proof.
  intros Ht. destruct h as [m t b tc e]. cbn in Ht. subst t.
  unfold _processContent, frame_lines, processed_content, bind, this, update,
    yield, ret.
  cbn [modelName hasTools bufferedContent toolCalls streamEnded negb andb].
  destruct (JS.truthy (delta_content (data f))) eqn:D.
  - cbn [negb andb].
    destruct (JS.truthy (edit_content (data f)));
      destruct (JS.eqb (phase (data f)) answer); cbn [andb];
      try destruct (JS.truthy (_extractEditContent (edit_content (data f))));
      destruct (JS.eqb (phase (data f)) thinking);
      try destruct (JS.truthy (transformThinkingContent config (delta_content (data f))));
      try destruct (JS.truthy (delta_content (data f)));
      try discriminate D; reflexivity.
  - destruct (JS.truthy (edit_content (data f))) eqn:E; cbn [negb andb];
      [|reflexivity].
    destruct (JS.eqb (phase (data f)) answer); cbn [andb];
      try destruct (JS.truthy (_extractEditContent (edit_content (data f))));
      reflexivity.
Qed.

(** The loop of [handle] without tools, over frames that satisfy no
    terminal condition. *)
Lemma process_stream_plain (frames : list UpstreamData) (ending : Ending) :
  Forall (fun g => is_terminal g = false) frames ->
  forall h, hasTools h = false ->
  process_stream config now false frames ending h =
  (flat_map (frame_lines config (modelName h)) frames, h, outcome ending).
Proof.
  induction 1 as [|g frames Hg _ IH]; intros h Ht.
  - cbn. destruct ending; reflexivity.
  - rewrite process_stream_cons.
    destruct (not_terminal_parts g Hg) as (He & Hd & Hp).
    rewrite He, Hd, Hp, (processContent_plain g h Ht). cbn [orb andb].
    rewrite IH by exact Ht. reflexivity.
Qed.

(** A frame that satisfies a terminal condition ends the loop: what comes
    after it, and how the body ends, is not looked at. *)
Lemma process_stream_stops (sent : bool) (before : list UpstreamData)
    (d : UpstreamData) (after : list UpstreamData) (ending : Ending) :
  is_terminal d = true ->
  forall h, streamEnded h = false ->
  process_stream config now sent (before ++ d :: after) ending h =
  process_stream config now sent (before ++ [d]) EndOfData h.
Proof.
  intros Hd. induction before as [|g before IH]; intros h He.
  - cbn [app]. rewrite !process_stream_cons.
    destruct (_hasError d) eqn:E; [reflexivity|].
    destruct (processContent_spec config d sent h) as (o1 & b & P & _).
    rewrite P.
    assert (T : done (data d) || JS.eqb (phase (data d)) done_phase = true).
    { unfold is_terminal in Hd. rewrite E in Hd. exact Hd. }
    rewrite T. destruct h; cbn in He; subst. reflexivity.
  - cbn [app]. rewrite !process_stream_cons.
    destruct (_hasError g); [reflexivity|].
    destruct (processContent_spec config g sent h) as (o1 & b & P & _).
    rewrite P.
    destruct ((done (data g) || JS.eqb (phase (data g)) done_phase)
              && negb (streamEnded (set_bufferedContent h b))); [reflexivity|].
    rewrite IH by exact He. reflexivity.
Qed.

(** [_sendEndChunk] with the latch open, without tools. *)
Lemma sendEndChunk_plain (h : Handler) :
  hasTools h = false -> streamEnded h = false ->
  _sendEndChunk config now h =
  (end_lines (modelName h) stop, set_streamEnded h true, Ok tt).
Proof.
  intros Ht He. unfold _sendEndChunk, bind, this, update, yield, ret.
  rewrite He, Ht. reflexivity.
Qed.

(** [_sendEndChunk] with the latch open, with tools: the lines are those of
    [tools_end_lines]; it throws only if the extraction does. *)
Lemma sendEndChunk_tools (h : Handler) :
  hasTools h = true -> streamEnded h = false ->
  exists h' r,
    _sendEndChunk config now h = 
    (match extractToolInvocations config now (bufferedContent h) with
     | Throw => []
     | _ => tools_end_lines config now (modelName h) (bufferedContent h)
     end, h', r)
    /\ (r = Throw <->
        extractToolInvocations config now (bufferedContent h) = Throw)
    /\ (r = Throw -> streamEnded h' = false)
    /\ modelName h' = modelName h.
Proof.
  intros Ht He. unfold _sendEndChunk, tools_end_lines, bind at 1, this at 1.
  rewrite He, Ht. cbn [app].
  destruct (extractToolInvocations config now (bufferedContent h))
    as [[calls|]|] eqn:X.
  - pose proof (extracted_not_null config now _ _ X) as NN.
    unfold bind, update, yield, ret.
    rewrite (send_tool_calls_lines _ _ NN). cbn.
    eexists _, _. split; [rewrite app_nil_r; reflexivity|].
    repeat split; try discriminate; reflexivity.
  - unfold bind, update, yield, ret.
    destruct (JS.truthy (removeToolJsonContent (bufferedContent h)));
      cbn; eexists _, _; (split; [reflexivity|]);
      repeat split; try discriminate; reflexivity.
  - unfold bind, throw. cbn. eexists _, _. split; [reflexivity|].
    repeat split; intros; try reflexivity; assumption.
Qed.

End StreamOutput.

Section StreamComposition.

Variable config : Config.
Variable now : N.

(** The loop of [handle] over frames without terminal condition, then
    over the frames that follow. *)
Lemma process_stream_app (sent : bool) (before rest : list UpstreamData)
    (ending : Ending) :
  Forall (fun g => is_terminal g = false) before ->
  forall h,
  process_stream config now sent (before ++ rest) ending h =
  let '(o1, h1, _) := process_stream config now sent before EndOfData h in
  let '(o2, h2, r) := process_stream config now sent rest ending h1 in
  (o1 ++ o2, h2, r).
Proof.
  induction 1 as [|g before Hg _ IH]; intros h.
  - cbn [app process_stream]. unfold ret.
    destruct (process_stream config now sent rest ending h) as [[o2 h2] r].
    reflexivity.
  - cbn [app]. rewrite !process_stream_cons.
    destruct (not_terminal_parts g Hg) as (He & Hd & Hp).
    rewrite He, Hd, Hp. cbn [orb andb].
    destruct (processContent_spec config g sent h) as (o1 & b & P & _).
    rewrite P, IH.
    destruct (process_stream config now sent before EndOfData
                (set_bufferedContent h b)) as [[o2 h2] r2].
    destruct (process_stream config now sent rest ending h2) as [[o3 h3] r3].
    rewrite app_assoc. reflexivity.
Qed.

(** The loop of [handle] without tools, in full. *)
Lemma process_stream_plain_lines (frames : list UpstreamData) (ending : Ending) :
  forall h, hasTools h = false -> streamEnded h = false ->
  exists L h' r,
    process_stream config now false frames ending h = (L, h', r)
    /\ modelName h' = modelName h
    /\ ((r = Ok tt /\ L = plain_lines config (modelName h) frames ending)
        \/ (r = Throw /\ streamEnded h' = false
            /\ L ++ end_lines (modelName h) stop
               = plain_lines config (modelName h) frames ending)).
Proof.
  induction frames as [|f frames IH]; intros h Ht He.
  - cbn. destruct ending; eexists _, _, _; (split; [reflexivity|]);
      (split; [reflexivity|]); [left | right]; repeat split; assumption.
  - rewrite process_stream_cons. cbn [plain_lines].
    destruct (_hasError f).
    + rewrite He. cbn [negb]. eexists _, _, _. split; [reflexivity|].
      split; [reflexivity|]. left. split; reflexivity.
    + rewrite (processContent_plain config f h Ht), He. cbn [negb].
      rewrite andb_true_r.
      destruct (done (data f) || JS.eqb (phase (data f)) done_phase).
      * rewrite (sendEndChunk_plain config now h Ht He).
        eexists _, _, _. split; [reflexivity|]. split; [reflexivity|].
        left. split; reflexivity.
      * destruct (IH h Ht He) as (L & h' & r & E & Hm & Hr). rewrite E.
        eexists _, _, _. split; [reflexivity|]. split; [exact Hm|].
        destruct Hr as [[-> ->] | (-> & He' & HL)]; [left | right].
        -- split; reflexivity.
        -- split; [reflexivity|]. split; [exact He'|].
           rewrite <- app_assoc, HL. reflexivity.
Qed.

(** The output of the stream handler without tools. *)
Lemma stream_output_plain (model : jsstr) (frames : list UpstreamData)
    (ending : Ending) :
  stream_output config now model false (Responds true frames ending)
  = role_line model :: plain_lines config model frames ending.
Proof.
  unfold stream_output. rewrite handle_ok. cbv zeta.
  destruct (process_stream_plain_lines frames ending (new_handler model false)
              eq_refl eq_refl) as (L & h' & r & E & Hm & Hr).
  rewrite E. cbn [modelName new_handler] in *.
  destruct Hr as [[-> ->] | (-> & He' & HL)].
  - reflexivity.
  - rewrite He', Hm. cbn [negb fst]. unfold role_line. f_equal. exact HL.
Qed.

End StreamComposition.

(** X1: with tools, while no frame satisfies a terminal condition the
    stream handler yields nothing but the role chunk: the processed content
    of the frames is buffered, in order.  If the body then ends, the
    buffered content is never sent: the output is the role chunk alone, or
    the role chunk and a bare terminal sequence when reading fails. *)
Theorem tool_mode_buffers_content (config : Config) (now : N) (model : jsstr)
    (frames : list UpstreamData) (ending : Ending) :
  Forall (fun g => is_terminal g = false) frames ->
  handle config now (Responds true frames ending) (new_handler model true)
  = (role_line model
       :: match ending with
          | EndOfData => []
          | ReadFails => end_lines model stop
          end,
     {| modelName := model; hasTools := true;
        bufferedContent := concat (map (processed_content config) frames);
        toolCalls := None; streamEnded := true |},
     Ok tt).
Proof.
  intros H. rewrite handle_ok. cbv zeta.
  rewrite (process_stream_tools config now false frames ending H
             (new_handler model true) eq_refl).
  destruct ending; reflexivity.
Qed.

Lemma tool_mode_buffers_content_witness :
  stream_output default_config 0 (lit "GLM-4.5") true
    (Responds true
       [frame "thinking" (lit "<details>hm</details>") [] false;
        frame "answer" (lit "Hello") [] false] EndOfData)
  = [role_line (lit "GLM-4.5")].
Proof.
  unfold stream_output.
  rewrite (tool_mode_buffers_content default_config 0 (lit "GLM-4.5")
             [frame "thinking" (lit "<details>hm</details>") [] false;
              frame "answer" (lit "Hello") [] false] EndOfData).
  - reflexivity.
  - repeat constructor.
Defined.

(** With tools, what a fresh handler yields up to a frame that says the
    response is done. *)
Lemma tool_mode_end_lines (config : Config) (now : N) (model : jsstr)
    (before : list UpstreamData) (d : UpstreamData)
    (after : list UpstreamData) (ending : Ending) :
  Forall (fun g => is_terminal g = false) before ->
  _hasError d = false ->
  done (data d) || JS.eqb (phase (data d)) done_phase = true ->
  stream_output config now model true
    (Responds true (before ++ d :: after) ending)
  = role_line model
      :: tools_end_lines config now model
           (concat (map (processed_content config) (before ++ [d]))).
Proof.
  intros Hb He Hd. unfold stream_output. rewrite handle_ok. cbv zeta.
  rewrite (process_stream_app config now false before (d :: after) ending Hb).
  rewrite (process_stream_tools config now false before EndOfData Hb
             (new_handler model true) eq_refl).
  rewrite process_stream_cons, He, processContent_tools by reflexivity.
  rewrite Hd. cbn [andb negb streamEnded set_bufferedContent new_handler
                   bufferedContent app modelName hasTools toolCalls].
  rewrite map_app, concat_app. cbn [map concat]. rewrite app_nil_r.
  set (B := concat (map (processed_content config) before)
            ++ processed_content config d).
  change (set_bufferedContent
            (set_bufferedContent (new_handler model true)
               (concat (map (processed_content config) before))) B)
    with {| modelName := model; hasTools := true; bufferedContent := B;
            toolCalls := None; streamEnded := false |}.
  destruct (sendEndChunk_tools config now
              {| modelName := model; hasTools := true; bufferedContent := B;
                 toolCalls := None; streamEnded := false |} eq_refl eq_refl)
    as (h' & r & E & Hr & Hopen & Hm).
  rewrite E. cbn [bufferedContent modelName] in *.
  unfold tools_end_lines in *.
  destruct (extractToolInvocations config now B) as [[calls|]|].
  - destruct r as [[]|]; [reflexivity|].
    destruct Hr as [Hr _]. specialize (Hr eq_refl). discriminate Hr.
  - destruct r as [[]|]; [reflexivity|].
    destruct Hr as [Hr _]. specialize (Hr eq_refl). discriminate Hr.
  - destruct r as [[]|].
    + destruct Hr as [_ Hr]. specialize (Hr eq_refl). discriminate Hr.
    + rewrite (Hopen eq_refl), Hm. reflexivity.
Qed.

(** X2: with tools, a frame that says the response is done, met after
    frames without terminal condition, makes the stream handler yield,
    after the role chunk, what the whole buffered content gives: one chunk
    for each extracted call, numbered from 0, and the terminal sequence with
    finish reason tool_calls; or, when the extraction returns null, the
    stripped content as one chunk, if it is not empty, and the terminal
    sequence with finish reason stop; or, when the extraction throws, the
    bare terminal sequence with finish reason stop. *)
Theorem tool_mode_end_of_stream (config : Config) (now : N) (model : jsstr)
    (before : list UpstreamData) (d : UpstreamData)
    (after : list UpstreamData) (ending : Ending) :
  Forall (fun g => is_terminal g = false) before ->
  _hasError d = false ->
  done (data d) || JS.eqb (phase (data d)) done_phase = true ->
  stream_output config now model true
    (Responds true (before ++ d :: after) ending)
  = role_line model
      :: tools_end_lines config now model
           (concat (map (processed_content config) (before ++ [d]))).
Proof.
  intros Hb He Hd. apply tool_mode_end_lines; assumption.
Qed.

Lemma tool_mode_end_of_stream_witness :
  stream_output default_config 0 (lit "GLM-4.5") true
    (Responds true
       ([frame "answer" (firstn 20 tool_reply) [] false]
        ++ frame "answer" (skipn 20 tool_reply) [] true :: []) EndOfData)
  = [role_line (lit "GLM-4.5");
     Chunk (lit "GLM-4.5")
       (ToolCallDelta 0 (Some (Str (lit "c1"))) (Str (lit "function"))
          (Obj [(lit "name", Str (lit "f"));
                (lit "arguments", Str (q "{'a':1}"))]))
       None;
     Chunk (lit "GLM-4.5") NoDelta (Some (lit "tool_calls"));
     DONE].
Proof.
  rewrite (tool_mode_end_of_stream default_config 0 (lit "GLM-4.5")
             [frame "answer" (firstn 20 tool_reply) [] false]
             (frame "answer" (skipn 20 tool_reply) [] true) [] EndOfData).
  - vm_compute. reflexivity.
  - repeat constructor.
  - reflexivity.
  - reflexivity.
Defined.

(** X3: the stream handler stops at the first frame that satisfies a
    terminal condition (an error, done, or the phase done): the frames
    after it, and the way the body ends, have no effect on the output. *)
Theorem stream_stops_at_terminal_frame (config : Config) (now : N)
    (model : jsstr) (tools : bool) (before : list UpstreamData)
    (d : UpstreamData) (after : list UpstreamData) (ending : Ending) :
  is_terminal d = true ->
  stream_output config now model tools
    (Responds true (before ++ d :: after) ending)
  = stream_output config now model tools
      (Responds true (before ++ [d]) EndOfData).
Proof.
  intros Hd. unfold stream_output. rewrite !handle_ok. cbv zeta.
  rewrite (process_stream_stops config now false before d after ending Hd
             (new_handler model tools) eq_refl).
  reflexivity.
Qed.

Lemma stream_stops_at_terminal_frame_witness :
  stream_output default_config 0 (lit "GLM-4.5") false
    (Responds true
       ([frame "answer" (lit "a") [] false]
        ++ frame "answer" (lit "b") [] true
           :: [frame "answer" (lit "c") [] false]) ReadFails)
  = [role_line (lit "GLM-4.5");
     Chunk (lit "GLM-4.5") (ContentDelta (lit "a")) None;
     Chunk (lit "GLM-4.5") (ContentDelta (lit "b")) None;
     Chunk (lit "GLM-4.5") NoDelta (Some stop); DONE].
Proof.
  rewrite (stream_stops_at_terminal_frame default_config 0 (lit "GLM-4.5") false
             [frame "answer" (lit "a") [] false]
             (frame "answer" (lit "b") [] true)
             [frame "answer" (lit "c") [] false] ReadFails).
  - vm_compute. reflexivity.
  - reflexivity.
Defined.

Section Channels.

Variable config : Config.
Variable model : jsstr.

Lemma frame_lines_thinking (f : UpstreamData) :
  JS.eqb (phase (data f)) thinking = true ->
  filter is_content (frame_lines config model f) = [].
Proof.
  intros H. unfold frame_lines. rewrite H.
  assert (A : JS.eqb (phase (data f)) answer = false).
  { destruct (phase (data f)) as [|c p]; [reflexivity|].
    cbn in H |- *. destruct (N.eqb_spec c 116) as [->|]; [reflexivity|].
    discriminate H. }
  rewrite A, andb_false_r. cbn [andb app].
  destruct (JS.truthy (delta_content (data f)) && _); reflexivity.
Qed.

Lemma frame_lines_not_thinking (f : UpstreamData) :
  JS.eqb (phase (data f)) thinking = false ->
  filter is_reasoning (frame_lines config model f) = [].
Proof.
  intros H. unfold frame_lines. rewrite H. rewrite filter_app.
  destruct (JS.truthy (edit_content (data f)) && _ && _);
    destruct (JS.truthy (delta_content (data f)) && _); reflexivity.
Qed.

Lemma plain_lines_no_content (frames : list UpstreamData) (ending : Ending) :
  Forall (fun f => JS.eqb (phase (data f)) thinking = true) frames ->
  filter is_content (plain_lines config model frames ending) = [].
Proof.
  induction 1 as [|f frames Hf _ IH]; cbn [plain_lines].
  - destruct ending; reflexivity.
  - destruct (_hasError f); [reflexivity|].
    rewrite filter_app, (frame_lines_thinking f Hf).
    destruct (done (data f) || _); [reflexivity | exact IH].
Qed.

Lemma plain_lines_no_reasoning (frames : list UpstreamData) (ending : Ending) :
  Forall (fun f => JS.eqb (phase (data f)) thinking = false) frames ->
  filter is_reasoning (plain_lines config model frames ending) = [].
Proof.
  induction 1 as [|f frames Hf _ IH]; cbn [plain_lines].
  - destruct ending; reflexivity.
  - destruct (_hasError f); [reflexivity|].
    rewrite filter_app, (frame_lines_not_thinking f Hf).
    destruct (done (data f) || _); [reflexivity | exact IH].
Qed.

End Channels.

(** X4: without tools, the stream handler keeps the two channels apart:
    frames in the thinking phase are streamed as reasoning_content only, so
    that an output from thinking frames alone holds no content chunk, and
    frames in any other phase are streamed as content only, so that an
    output without thinking frames holds no reasoning chunk. *)
Theorem stream_channels_by_phase (config : Config) (now : N) (model : jsstr)
    (frames : list UpstreamData) (ending : Ending) :
  (Forall (fun f => JS.eqb (phase (data f)) thinking = true) frames ->
   filter is_content
     (stream_output config now model false (Responds true frames ending)) = [])
  /\ (Forall (fun f => JS.eqb (phase (data f)) thinking = false) frames ->
      filter is_reasoning
        (stream_output config now model false (Responds true frames ending)) = []).
Proof.
  rewrite stream_output_plain. split; intros H; cbn [filter role_line is_content
                                                     is_reasoning].
  - apply plain_lines_no_content, H.
  - apply plain_lines_no_reasoning, H.
Qed.

Lemma stream_channels_by_phase_witness :
  filter is_content
    (stream_output (config_with (lit "strip")) 0 (lit "GLM-4.5") false
       (Responds true
          [frame "thinking" (lit "<details>let me see</details>") (lit "x</details>y")
             false;
           frame "thinking" (lit "> more") [] true] EndOfData)) = [].
Proof.
  apply (stream_channels_by_phase (config_with (lit "strip")) 0 (lit "GLM-4.5")
           [frame "thinking" (lit "<details>let me see</details>") (lit "x</details>y")
              false;
            frame "thinking" (lit "> more") [] true] EndOfData).
  repeat constructor.
Defined.

Section Agreement.

Variable config : Config.
Variable model : jsstr.

Lemma streamed_text_app (a b : list Line) :
  streamed_text (a ++ b) = streamed_text a ++ streamed_text b.
Proof. unfold streamed_text. rewrite map_app, concat_app. reflexivity. Qed.

(** The text of the lines of a frame whose edit_content is empty is the
    piece that the non-streaming handler collects for it. *)
Lemma frame_lines_text (f : UpstreamData) :
  edit_content (data f) = [] ->
  streamed_text (frame_lines config model f)
  = concat (if JS.truthy (delta_content (data f)) then
              let content :=
                if JS.eqb (phase (data f)) thinking
                then transformThinkingContent config (delta_content (data f))
                else delta_content (data f) in
              if JS.truthy content then [content] else []
            else []).
Proof.
  intros E. unfold frame_lines, processed_content. rewrite E. cbn [JS.truthy andb app].
  destruct (JS.truthy (delta_content (data f))); [|reflexivity]. cbn [andb].
  destruct (JS.eqb (phase (data f)) thinking).
  - destruct (JS.truthy (transformThinkingContent config (delta_content (data f))));
      [|reflexivity].
    unfold streamed_text. cbn. rewrite app_nil_r. reflexivity.
  - destruct (JS.truthy (delta_content (data f))); [|reflexivity].
    unfold streamed_text. cbn. rewrite app_nil_r. reflexivity.
Qed.

Lemma plain_lines_text (frames : list UpstreamData) (ending : Ending)
    (pieces : list jsstr) :
  Forall (fun f => edit_content (data f) = [] /\ _hasError f = false) frames ->
  collect config frames ending = Ok pieces ->
  streamed_text (plain_lines config model frames ending) = join pieces.
Proof.
  intros H. revert pieces.
  induction H as [|f frames [He Hx] _ IH]; intros pieces C.
  - cbn in C |- *. destruct ending; [|discriminate]. injection C as <-. reflexivity.
  - cbn [plain_lines collect] in C |- *. rewrite Hx.
    rewrite streamed_text_app, (frame_lines_text f He).
    destruct (done (data f) || JS.eqb (phase (data f)) done_phase).
    + injection C as <-. unfold join. cbn. rewrite app_nil_r. reflexivity.
    + destruct (collect config frames ending) as [later|]; [|discriminate].
      injection C as <-. rewrite (IH later eq_refl). unfold join.
      rewrite concat_app. reflexivity.
Qed.

End Agreement.

(** X5: the two handlers agree.  Without tools, on frames that carry no
    error and no edit_content, the texts of the content and reasoning
    chunks that the stream handler yields, put end to end, are the content
    of the message that the non-streaming handler returns. *)
Theorem stream_text_is_full_content (config : Config) (now : N) (model : jsstr)
    (frames : list UpstreamData) (ending : Ending) (r : Response) :
  Forall (fun f => edit_content (data f) = [] /\ _hasError f = false) frames ->
  handle_full config now model false (Responds true frames ending) = Ok r ->
  body r
  = Completion model
      (Some (streamed_text
               (stream_output config now model false
                  (Responds true frames ending))))
      None stop.
Proof.
  intros H F. unfold handle_full in F.
  destruct (collect config frames ending) as [pieces|] eqn:C; [|discriminate].
  injection F as <-. cbn [body]. rewrite stream_output_plain.
  change (role_line model :: plain_lines config model frames ending)
    with ([role_line model] ++ plain_lines config model frames ending).
  rewrite streamed_text_app, (plain_lines_text config model frames ending pieces H C).
  reflexivity.
Qed.

Lemma stream_text_is_full_content_witness :
  body {| status := 200;
          body := Completion (lit "GLM-4.5") (Some (lit "plan.Hello world")) None stop |}
  = Completion (lit "GLM-4.5")
      (Some (streamed_text
               (stream_output (config_with (lit "strip")) 0 (lit "GLM-4.5") false
                  (Responds true
                     [frame "thinking" (lit "<details>plan.</details>") [] false;
                      frame "answer" (lit "Hello") [] false;
                      frame "answer" (lit " world") [] true] EndOfData))))
      None stop.
Proof.
  apply (stream_text_is_full_content (config_with (lit "strip")) 0 (lit "GLM-4.5")
           [frame "thinking" (lit "<details>plan.</details>") [] false;
            frame "answer" (lit "Hello") [] false;
            frame "answer" (lit " world") [] true] EndOfData).
  - repeat constructor.
  - vm_compute. reflexivity.
Defined.

(** X6: the shape of the response of the non-streaming handler.  When it
    carries tool calls, tools were enabled, the content is null, the finish
    reason is tool_calls and no call is null; otherwise the finish reason is
    stop and the content is a string, which is empty only if nothing was
    collected from the frames: when the stripping leaves nothing, the
    collected text itself is returned. *)
Theorem nonstream_response_shape (config : Config) (now : N) (model : jsstr)
    (tools : bool) (frames : list UpstreamData) (ending : Ending)
    (r : Response) :
  handle_full config now model tools (Responds true frames ending) = Ok r ->
  exists pieces content calls reason,
    collect config frames ending = Ok pieces
    /\ r = {| status := 200; body := Completion model content calls reason |}
    /\ match calls with
       | Some l =>
           tools = true /\ content = None /\ reason = lit "tool_calls"
           /\ Forall (fun tc => tc <> Null) l
       | None =>
           reason = stop
           /\ exists c, content = Some c /\ (c = [] -> join pieces = [])
       end.
Proof.
  unfold handle_full.
  destruct (collect config frames ending) as [pieces|]; [|discriminate].
  destruct tools.
  - destruct (extractToolInvocations config now (join pieces))
      as [[l|]|] eqn:X; [| |discriminate]; intros H; injection H as <-.
    + exists pieces, None, (Some l), (lit "tool_calls").
      repeat split. apply (extracted_not_null config now _ _ X).
    + eexists pieces, _, None, stop. repeat split.
      eexists. split; [reflexivity|].
      destruct (removeToolJsonContent (join pieces)) as [|c s] eqn:R;
        cbn [JS.truthy]; [tauto | discriminate].
  - intros H. injection H as <-.
    exists pieces, (Some (join pieces)), None, stop. repeat split.
    exists (join pieces). split; [reflexivity | tauto].
Qed.

Lemma nonstream_response_shape_witness :
  exists pieces content calls reason,
    collect default_config
      [frame "answer" (firstn 20 tool_reply) [] false;
       frame "answer" (skipn 20 tool_reply) [] true] EndOfData = Ok pieces
    /\ {| status := 200;
          body := Completion (lit "GLM-4.5") None
                    (Some [Obj [(lit "id", Str (lit "c1"));
                                (lit "function",
                                 Obj [(lit "name", Str (lit "f"));
                                      (lit "arguments", Str (q "{'a':1}"))])]])
                    (lit "tool_calls") |}
       = {| status := 200; body := Completion (lit "GLM-4.5") content calls reason |}
    /\ match calls with
       | Some l =>
           true = true /\ content = None /\ reason = lit "tool_calls"
           /\ Forall (fun tc => tc <> Null) l
       | None =>
           reason = stop
           /\ exists c, content = Some c /\ (c = [] -> join pieces = [])
       end.
Proof.
  apply (nonstream_response_shape default_config 0 (lit "GLM-4.5") true
           [frame "answer" (firstn 20 tool_reply) [] false;
            frame "answer" (skipn 20 tool_reply) [] true] EndOfData).
  vm_compute. reflexivity.
Defined.

(** The extraction reads the first SCAN_LIMIT units of the text only. *)
Lemma extract_reads_scan_prefix (config : Config) (now : N) (text : jsstr) :
  extractToolInvocations config now text
  = extractToolInvocations config now (firstn (SCAN_LIMIT config) text).
Proof.
  unfold extractToolInvocations, substring. rewrite !Nat.sub_0_r. cbn [skipn].
  destruct text as [|c t]; [rewrite firstn_nil; reflexivity|].
  destruct (SCAN_LIMIT config) as [|n]; [reflexivity|].
  cbn [firstn JS.truthy negb]. rewrite firstn_firstn, Nat.min_id. reflexivity.
Qed.

(** ** The bracket balance method and JSON *)

Section Balance.

Local Open Scope nat_scope.

Lemma steps_nil (d : nat) (i e : bool) : steps d i e (S d) i e [].
Proof. intros j t. cbn. rewrite Nat.add_0_r. reflexivity. Qed.

Lemma steps_app (d1 : nat) (i1 e1 : bool) (d2 : nat) (i2 e2 : bool) (d3 : nat)
    (i3 e3 : bool) (p r : jsstr) :
  steps d1 i1 e1 (S d2) i2 e2 p -> steps d2 i2 e2 d3 i3 e3 r ->
  steps d1 i1 e1 d3 i3 e3 (p ++ r).
Proof.
  intros Hp Hr j t. rewrite <- app_assoc, Hp, Hr, length_app, Nat.add_assoc.
  reflexivity.
Qed.

Lemma steps_one (d1 : nat) (i1 e1 : bool) (d2 : nat) (i2 e2 : bool) (c : N) :
  (forall j t, balance (S d1) i1 e1 j (c :: t) = balance d2 i2 e2 (S j) t) ->
  steps d1 i1 e1 d2 i2 e2 [c].
Proof.
  intros H j t. cbn [app List.length]. rewrite H, Nat.add_1_r. reflexivity.
Qed.

Lemma plain_cases (c : N) :
  plain c = true ->
  (c =? 92)%N = false /\ (c =? 34)%N = false
  /\ (c =? 123)%N = false /\ (c =? 125)%N = false.
Proof.
  unfold plain. destruct (c =? 92)%N, (c =? 34)%N, (c =? 123)%N, (c =? 125)%N;
    cbn; intros H; try discriminate H; repeat split.
Qed.

Lemma steps_plain (d : nat) (c : N) :
  plain c = true -> steps d false false (S d) false false [c].
Proof.
  intros H. destruct (plain_cases c H) as (A & B & C & D).
  apply steps_one. intros j t. cbn [balance]. rewrite A, B, C, D. reflexivity.
Qed.

Lemma steps_all_plain (d : nat) (p : jsstr) :
  forallb plain p = true -> steps d false false (S d) false false p.
Proof.
  induction p as [|c p IH]; intros H; [apply steps_nil|].
  cbn in H. apply andb_true_iff in H as [Hc Hp].
  apply (steps_app d false false d false false (S d) false false [c] p).
  - apply steps_plain, Hc.
  - apply IH, Hp.
Qed.

Lemma steps_in_string (d : nat) (c : N) :
  plain_in_string c = true -> steps d true false (S d) true false [c].
Proof.
  unfold plain_in_string. intros H.
  destruct (c =? 92)%N eqn:A; [discriminate|].
  destruct (c =? 34)%N eqn:B; [discriminate|].
  apply steps_one. intros j t. cbn [balance]. rewrite A, B. reflexivity.
Qed.

Lemma steps_quote (d : nat) (i : bool) : steps d i false (S d) (negb i) false [34%N].
Proof. apply steps_one. intros j t. reflexivity. Qed.

Lemma steps_backslash (d : nat) (i : bool) : steps d i false (S d) i true [92%N].
Proof. apply steps_one. intros j t. reflexivity. Qed.

Lemma steps_escaped (d : nat) (i : bool) (c : N) : steps d i true (S d) i false [c].
Proof. apply steps_one. intros j t. reflexivity. Qed.

Lemma steps_open (d : nat) : steps d false false (S (S d)) false false [123%N].
Proof. apply steps_one. intros j t. reflexivity. Qed.

Lemma steps_close (d : nat) : steps d false false d false false [125%N].
Proof. apply steps_one. intros j t. reflexivity. Qed.

Lemma is_ws_plain (c : N) : is_ws c = true -> plain c = true.
Proof.
  unfold is_ws. intros H.
  destruct (c =? 32)%N eqn:A; [apply N.eqb_eq in A; subst; reflexivity|].
  destruct (c =? 9)%N eqn:B; [apply N.eqb_eq in B; subst; reflexivity|].
  destruct (c =? 10)%N eqn:C; [apply N.eqb_eq in C; subst; reflexivity|].
  destruct (c =? 13)%N eqn:D; [apply N.eqb_eq in D; subst; reflexivity|].
  discriminate H.
Qed.

Lemma range_plain (c lo hi : N) :
  (lo <= c)%N -> (c <= hi)%N ->
  (hi < 92 \/ 92 < lo)%N -> (hi < 34 \/ 34 < lo)%N ->
  (hi < 123 \/ 123 < lo)%N -> (hi < 125 \/ 125 < lo)%N ->
  plain c = true.
Proof.
  intros L H A B C D. unfold plain.
  destruct (N.eqb_spec c 92); [lia|].
  destruct (N.eqb_spec c 34); [lia|].
  destruct (N.eqb_spec c 123); [lia|].
  destruct (N.eqb_spec c 125); [lia | reflexivity].
Qed.

Lemma is_digit_plain (c : N) : is_digit c = true -> plain c = true.
Proof.
  unfold is_digit. intros H. apply andb_true_iff in H as [L U].
  apply N.leb_le in L, U. apply (range_plain c 48 57); lia.
Qed.

(** What the parser skips as white space, the loop passes. *)
Lemma skip_ws_split (s : jsstr) :
  exists p, s = p ++ skip_ws s /\ forallb plain p = true.
Proof.
  induction s as [|c s (p & E & F)]; [exists []; split; reflexivity|].
  cbn [skip_ws]. destruct (is_ws c) eqn:W.
  - exists (c :: p). split; [cbn; f_equal; exact E|].
    cbn. rewrite (is_ws_plain c W), F. reflexivity.
  - exists []. split; reflexivity.
Qed.

Lemma digits_split (s : jsstr) :
  forall acc n v m rest,
  digits acc n s = (v, m, rest) ->
  exists p, s = p ++ rest /\ forallb plain p = true.
Proof.
  induction s as [|c s IH]; intros acc n v m rest E; cbn [digits] in E.
  - injection E as _ _ <-. exists []. split; reflexivity.
  - destruct (is_digit c) eqn:D.
    + apply IH in E as (p & -> & F). exists (c :: p).
      split; [reflexivity|]. cbn. rewrite (is_digit_plain c D), F. reflexivity.
    + injection E as _ _ <-. exists []. split; reflexivity.
Qed.

Lemma plain_split_cons (c : N) (s rest p : jsstr) :
  plain c = true -> s = p ++ rest -> forallb plain p = true ->
  exists p', c :: s = p' ++ rest /\ forallb plain p' = true.
Proof.
  intros Hc -> F. exists (c :: p). split; [reflexivity|].
  cbn. rewrite Hc, F. reflexivity.
Qed.

Lemma plain_split_trans (s mid rest p r : jsstr) :
  s = p ++ mid -> forallb plain p = true ->
  mid = r ++ rest -> forallb plain r = true ->
  exists p', s = p' ++ rest /\ forallb plain p' = true.
Proof.
  intros -> Fp -> Fr. exists (p ++ r). split; [apply app_assoc|].
  rewrite forallb_app, Fp, Fr. reflexivity.
Qed.

Lemma parse_exponent_split (s : jsstr) (e : Z) (rest : jsstr) :
  parse_exponent s = Some (e, rest) ->
  exists p, s = p ++ rest /\ forallb plain p = true.
Proof.
  unfold parse_exponent. destruct s as [|c s].
  - intros E. injection E as _ <-. exists []. split; reflexivity.
  - destruct ((c =? 101) || (c =? 69))%N eqn:C.
    + assert (Pc : plain c = true).
      { apply orb_true_iff in C as [C | C]; apply N.eqb_eq in C; subst; reflexivity. }
      assert (signed : forall sign s'',
                (sign, s'') =
                match s with
                | d :: t => if (d =? 43)%N then (false, t)
                            else if (d =? 45)%N then (true, t) else (false, s)
                | [] => (false, s)
                end ->
                exists p, s = p ++ s'' /\ forallb plain p = true).
      { intros sign s'' E. destruct s as [|d t].
        - injection E as _ ->. exists []. split; reflexivity.
        - destruct (N.eqb_spec d 43) as [->|].
          + injection E as _ ->. exists [43%N]. split; reflexivity.
          + destruct (N.eqb_spec d 45) as [->|].
            * injection E as _ ->. exists [45%N]. split; reflexivity.
            * injection E as _ ->. exists []. split; reflexivity. }
      destruct (match s with
                | d :: t => if (d =? 43)%N then (false, t)
                            else if (d =? 45)%N then (true, t) else (false, s)
                | [] => (false, s)
                end) as [sign s''] eqn:S.
      destruct (signed sign s'' eq_refl) as (p1 & E1 & F1).
      destruct (digits 0 0 s'') as [[v m] r] eqn:D.
      destruct (digits_split _ _ _ _ _ _ D) as (p2 & E2 & F2).
      destruct m; [discriminate|]. intros E. injection E as _ <-.
      destruct (plain_split_trans _ _ _ _ _ E1 F1 E2 F2) as (p & Ep & Fp).
      apply (plain_split_cons c s r p Pc Ep Fp).
    + intros E. injection E as _ <-. exists []. split; reflexivity.
Qed.

Lemma parse_fraction_split (int : N) (s : jsstr) (m : N) (n : nat)
    (rest : jsstr) :
  parse_fraction int s = Some (m, n, rest) ->
  exists p, s = p ++ rest /\ forallb plain p = true.
Proof.
  unfold parse_fraction. destruct s as [|c s].
  - intros E. injection E as _ _ <-. exists []. split; reflexivity.
  - destruct (N.eqb_spec c 46) as [->|].
    + destruct (digits int 0 s) as [[v k] r] eqn:D.
      destruct (digits_split _ _ _ _ _ _ D) as (p & Ep & Fp).
      destruct k; [discriminate|]. intros E. injection E as _ _ <-.
      apply (plain_split_cons 46%N s r p eq_refl Ep Fp).
    + intros E. injection E as _ _ <-. exists []. split; reflexivity.
Qed.

Lemma parse_number_split (s : jsstr) (n : number) (rest : jsstr) :
  parse_number s = Some (n, rest) ->
  exists p, s = p ++ rest /\ forallb plain p = true.
Proof.
  unfold parse_number.
  assert (signed : forall sign s1,
            (sign, s1) =
            match s with
            | c :: t => if (c =? 45)%N then (true, t) else (false, s)
            | [] => (false, s)
            end ->
            exists p, s = p ++ s1 /\ forallb plain p = true).
  { intros sign s1 E. destruct s as [|c t].
    - injection E as _ ->. exists []. split; reflexivity.
    - destruct (N.eqb_spec c 45) as [->|].
      + injection E as _ ->. exists [45%N]. split; reflexivity.
      + injection E as _ ->. exists []. split; reflexivity. }
  destruct (match s with
            | c :: t => if (c =? 45)%N then (true, t) else (false, s)
            | [] => (false, s)
            end) as [sign s1] eqn:S.
  destruct (signed sign s1 eq_refl) as (p0 & E0 & F0).
  destruct s1 as [|c t]; [discriminate|].
  assert (tail : forall i s2,
            s2 = [] ++ s2 ->
            (exists p, c :: t = p ++ s2 /\ forallb plain p = true) ->
            match parse_fraction i s2 with
            | Some (m, nfrac, s3) =>
                match parse_exponent s3 with
                | Some (e, s4) =>
                    Some ({| neg := sign; coeff := m;
                             exp10 := (e - Z.of_nat nfrac)%Z |}, s4)
                | None => None
                end
            | None => None
            end = Some (n, rest) ->
            exists p, s = p ++ rest /\ forallb plain p = true).
  { intros i s2 _ (p1 & E1 & F1) H.
    destruct (parse_fraction i s2) as [[[m nf] s3]|] eqn:Fr; [|discriminate].
    destruct (parse_fraction_split _ _ _ _ _ Fr) as (p2 & E2 & F2).
    destruct (parse_exponent s3) as [[e s4]|] eqn:X; [|discriminate].
    destruct (parse_exponent_split _ _ _ X) as (p3 & E3 & F3).
    injection H as _ <-.
    destruct (plain_split_trans _ _ _ _ _ E0 F0 E1 F1) as (pa & Ea & Fa).
    destruct (plain_split_trans _ _ _ _ _ Ea Fa E2 F2) as (pb & Eb & Fb).
    apply (plain_split_trans _ _ _ _ _ Eb Fb E3 F3). }
  destruct (N.eqb_spec c 48) as [->|].
  - apply (tail 0%N t eq_refl). exists [48%N]. split; reflexivity.
  - destruct (is_digit c) eqn:Dc; [|discriminate].
    destruct (digits 0 0 (c :: t)) as [[v k] r] eqn:D.
    apply (tail v r eq_refl). apply (digits_split _ _ _ _ _ _ D).
Qed.

Lemma hex_digit_in_string (c u : N) :
  hex_digit c = Some u -> plain_in_string c = true.
Proof.
  unfold hex_digit, plain_in_string, is_digit. intros H.
  destruct (N.eqb_spec c 92) as [->|]; [discriminate H|].
  destruct (N.eqb_spec c 34) as [->|]; [discriminate H | reflexivity].
Qed.

(** A string literal, from after its opening quote to its closing quote:
    the loop is out of the string again, at the same depth. *)
Lemma parse_string_steps (n : nat) :
  forall s body rest,
  List.length s <= n -> parse_string s = Some (body, rest) ->
  exists p, s = p ++ rest /\ forall d, steps d true false (S d) false false p.
Proof.
  induction n as [|n IH]; intros s body rest L E.
  - destruct s; [discriminate E | cbn in L; lia].
  - destruct s as [|c s']; [discriminate|]. cbn [parse_string] in E.
    cbn [List.length] in L.
    destruct (N.eqb_spec c 34) as [->|C34].
    { injection E as _ <-. exists [34%N]. split; [reflexivity|].
      intros d. apply (steps_quote d true). }
    destruct (N.eqb_spec c 92) as [->|C92].
    + destruct s' as [|e t]; [discriminate|]. cbn [List.length] in L.
      destruct (N.eqb_spec e 117) as [->|].
      * destruct t as [|h1 [|h2 [|h3 [|h4 t']]]]; try discriminate.
        unfold hex4 in E.
        destruct (hex_digit h1) eqn:H1; [|discriminate].
        destruct (hex_digit h2) eqn:H2; [|discriminate].
        destruct (hex_digit h3) eqn:H3; [|discriminate].
        destruct (hex_digit h4) eqn:H4; [|discriminate].
        destruct (parse_string t') as [[b r]|] eqn:P; [|discriminate].
        injection E as _ <-.
        destruct (IH t' b r) as (p & -> & Hp); [cbn [List.length] in L; lia | exact P |].
        exists ([92%N] ++ [117%N] ++ [h1] ++ [h2] ++ [h3] ++ [h4] ++ p).
        split; [reflexivity|]. intros d.
        eapply steps_app; [apply steps_backslash|].
        eapply steps_app; [apply steps_escaped|].
        eapply steps_app; [apply steps_in_string, (hex_digit_in_string _ _ H1)|].
        eapply steps_app; [apply steps_in_string, (hex_digit_in_string _ _ H2)|].
        eapply steps_app; [apply steps_in_string, (hex_digit_in_string _ _ H3)|].
        eapply steps_app; [apply steps_in_string, (hex_digit_in_string _ _ H4)|].
        apply Hp.
      * destruct (unescape e); [|discriminate].
        destruct (parse_string t) as [[b r]|] eqn:P; [|discriminate].
        injection E as _ <-.
        destruct (IH t b r) as (p & -> & Hp); [lia | exact P |].
        exists ([92%N] ++ [e] ++ p). split; [reflexivity|]. intros d.
        eapply steps_app; [apply steps_backslash|].
        eapply steps_app; [apply steps_escaped|].
        apply Hp.
    + destruct (c <? 32)%N; [discriminate|].
      destruct (parse_string s') as [[b r]|] eqn:P; [|discriminate].
      injection E as _ <-.
      destruct (IH s' b r) as (p & -> & Hp); [lia | exact P |].
      exists ([c] ++ p). split; [reflexivity|]. intros d.
      eapply steps_app; [|apply Hp].
      apply steps_in_string. unfold plain_in_string.
      destruct (N.eqb_spec c 92); [contradiction|].
      destruct (N.eqb_spec c 34); [contradiction | reflexivity].
Qed.

Lemma passes_app (p r : jsstr) : passes p -> passes r -> passes (p ++ r).
Proof. intros Hp Hr d. eapply steps_app; [apply Hp | apply Hr]. Qed.

Lemma passes_leaves (p r : jsstr) : passes p -> leaves r -> leaves (p ++ r).
Proof. intros Hp Hr d. eapply steps_app; [apply Hp | apply Hr]. Qed.

Lemma passes_plain (p : jsstr) : forallb plain p = true -> passes p.
Proof. intros H d. apply steps_all_plain, H. Qed.

Lemma passes_braces (p : jsstr) : leaves p -> passes ([123%N] ++ p).
Proof. intros H d. eapply steps_app; [apply steps_open | apply H]. Qed.

Lemma passes_string (p : jsstr) :
  (forall d, steps d true false (S d) false false p) -> passes ([34%N] ++ p).
Proof. intros H d. eapply steps_app; [apply (steps_quote d false) | apply H]. Qed.

Lemma leaves_close : leaves [125%N].
Proof. intros d. apply steps_close. Qed.

Lemma skip_ws_passes (s : jsstr) : exists p, s = p ++ skip_ws s /\ passes p.
Proof.
  destruct (skip_ws_split s) as (p & E & F). exists p.
  split; [exact E | apply passes_plain, F].
Qed.

(** What the parser consumed for a value, the loop passes; what it
    consumed after the opening brace of an object, the loop passes and
    leaves that brace. *)
Lemma parse_passes (f : nat) :
  (forall s v rest,
     parse_value f s = Some (v, rest) ->
     (exists p, s = p ++ rest /\ passes p)
     /\ forall s', s = 123%N :: s' -> exists p', s' = p' ++ rest /\ leaves p')
  /\ (forall s vs rest,
        parse_elements f s = Some (vs, rest) ->
        exists p, s = p ++ rest /\ passes p)
  /\ (forall props s ps rest,
        parse_members f props s = Some (ps, rest) ->
        exists p, s = p ++ rest /\ leaves p).
Proof.
  induction f as [|f (IHv & IHe & IHm)];
    [repeat split; intros; discriminate|].
  split; [|split].
  - (* parse_value *)
    intros s v rest E. cbn [parse_value] in E.
    destruct (skip_ws_passes s) as (w & Ew & Pw).
    destruct (skip_ws s) as [|c s1] eqn:W; [discriminate|].
    assert (not_brace : c <> 123%N ->
              (exists p1, c :: s1 = p1 ++ rest /\ passes p1) ->
              (exists p, s = p ++ rest /\ passes p)
              /\ forall s', s = 123%N :: s' ->
                            exists p', s' = p' ++ rest /\ leaves p').
    { intros Hc (p1 & E1 & P1). split.
      - exists (w ++ p1). split; [rewrite Ew, E1; apply app_assoc|].
        apply passes_app; assumption.
      - intros s' ->. cbn in W. injection W as <- _. contradiction. }
    assert (literal : forall word w0,
              forallb plain word = true ->
              parse_literal word w0 (c :: s1) = Some (v, rest) ->
              exists p1, c :: s1 = p1 ++ rest /\ passes p1).
    { intros word w0 Fw P. unfold parse_literal in P.
      destruct (strip_prefix word (c :: s1)) as [r|] eqn:SP; [|discriminate].
      injection P as _ <-. apply strip_prefix_app in SP.
      exists word. split; [exact SP | apply passes_plain, Fw]. }
    destruct (N.eqb_spec c 110) as [->|C1].
    { apply not_brace; [discriminate|]. eapply literal; [|exact E]. reflexivity. }
    destruct (N.eqb_spec c 116) as [->|C2].
    { apply not_brace; [discriminate|]. eapply literal; [|exact E]. reflexivity. }
    destruct (N.eqb_spec c 102) as [->|C3].
    { apply not_brace; [discriminate|]. eapply literal; [|exact E]. reflexivity. }
    destruct (N.eqb_spec c 34) as [->|C4].
    { apply not_brace; [discriminate|].
      destruct (parse_string s1) as [[body r]|] eqn:P; [|discriminate].
      injection E as _ <-.
      destruct (parse_string_steps _ _ _ _ (le_n _) P) as (p & -> & Hp).
      exists ([34%N] ++ p). split; [reflexivity | apply passes_string, Hp]. }
    destruct (N.eqb_spec c 91) as [->|C5].
    { apply not_brace; [discriminate|].
      destruct (skip_ws_passes s1) as (w1 & Ew1 & Pw1).
      destruct (skip_ws s1) as [|d r] eqn:W1.
      - destruct (parse_elements f s1) as [[vs r']|] eqn:P; [|discriminate].
        injection E as _ <-. destruct (IHe _ _ _ P) as (p & -> & Hp).
        exists ([91%N] ++ p). split; [reflexivity|].
        apply passes_app; [apply passes_plain; reflexivity | exact Hp].
      - destruct (N.eq_dec d 93) as [->|Hd].
        + injection E as _ <-. exists ([91%N] ++ w1 ++ [93%N]).
          split; [cbn; f_equal; rewrite Ew1, <- app_assoc; reflexivity|].
          apply passes_app; [apply passes_plain; reflexivity|].
          apply passes_app; [exact Pw1 | apply passes_plain; reflexivity].
        + assert (E' : match parse_elements f s1 with
                       | Some (vs, rest0) => Some (Arr vs, rest0)
                       | None => None
                       end = Some (v, rest)).
          { destruct d as [|q]; [exact E|].
            do 7 (destruct q as [q|q|]; try exact E). contradiction. }
          destruct (parse_elements f s1) as [[vs r']|] eqn:P; [|discriminate].
          injection E' as _ <-. destruct (IHe _ _ _ P) as (p & -> & Hp).
          exists ([91%N] ++ p). split; [reflexivity|].
          apply passes_app; [apply passes_plain; reflexivity | exact Hp]. }
    destruct (N.eqb_spec c 123) as [->|C6].
    { assert (inner : exists p', s1 = p' ++ rest /\ leaves p').
      { destruct (skip_ws_passes s1) as (w1 & Ew1 & Pw1).
        destruct (skip_ws s1) as [|d r] eqn:W1.
        - destruct (parse_members f [] s1) as [[ps r']|] eqn:P; [|discriminate].
          injection E as _ <-. apply (IHm _ _ _ _ P).
        - destruct (N.eq_dec d 125) as [->|Hd].
          + injection E as _ <-. exists (w1 ++ [125%N]).
            split; [rewrite Ew1, <- app_assoc; reflexivity|].
            apply passes_leaves; [exact Pw1 | apply leaves_close].
          + assert (E' : match parse_members f [] s1 with
                         | Some (ps, rest0) => Some (Obj ps, rest0)
                         | None => None
                         end = Some (v, rest)).
            { destruct d as [|q]; [exact E|].
              do 7 (destruct q as [q|q|]; try exact E). contradiction. }
            destruct (parse_members f [] s1) as [[ps r']|] eqn:P; [|discriminate].
            injection E' as _ <-. apply (IHm _ _ _ _ P). }
      destruct inner as (p' & Ep & Lp). split.
      - exists (w ++ [123%N] ++ p'). split.
        + rewrite Ew, Ep, <- !app_assoc. reflexivity.
        + apply passes_app; [exact Pw | apply passes_braces, Lp].
      - intros s' ->. cbn in W. injection W as <-. exists p'.
        split; [exact Ep | exact Lp]. }
    apply not_brace; [exact C6|].
    destruct (parse_number (c :: s1)) as [[n r]|] eqn:P; [|discriminate].
    injection E as _ <-. destruct (parse_number_split _ _ _ P) as (p & Ep & Fp).
    exists p. split; [exact Ep | apply passes_plain, Fp].
  - (* parse_elements *)
    intros s vs rest E. cbn [parse_elements] in E.
    destruct (parse_value f s) as [[v r]|] eqn:P; [|discriminate].
    destruct (IHv _ _ _ P) as [(p1 & -> & Hp1) _].
    destruct (skip_ws_passes r) as (w & Ew & Pw).
    destruct (skip_ws r) as [|c r'] eqn:W; [discriminate|].
    destruct (N.eqb_spec c 44) as [->|C1].
    + destruct (parse_elements f r') as [[vs' rest']|] eqn:Q; [|discriminate].
      injection E as _ <-. destruct (IHe _ _ _ Q) as (p2 & -> & Hp2).
      exists (p1 ++ w ++ [44%N] ++ p2). split.
      * rewrite Ew, <- !app_assoc. reflexivity.
      * apply passes_app; [exact Hp1|]. apply passes_app; [exact Pw|].
        apply passes_app; [apply passes_plain; reflexivity | exact Hp2].
    + destruct (N.eqb_spec c 93) as [->|C2]; [|discriminate].
      injection E as _ <-. exists (p1 ++ w ++ [93%N]). split.
      * rewrite Ew, <- !app_assoc. reflexivity.
      * apply passes_app; [exact Hp1|]. apply passes_app; [exact Pw|].
        apply passes_plain. reflexivity.
  - (* parse_members *)
    intros props s ps rest E. cbn [parse_members] in E.
    destruct (skip_ws_passes s) as (w & Ew & Pw).
    destruct (skip_ws s) as [|c s1] eqn:W; [discriminate|].
    destruct (N.eqb_spec c 34) as [->|C1]; [|discriminate].
    destruct (parse_string s1) as [[key s2]|] eqn:K; [|discriminate].
    destruct (parse_string_steps _ _ _ _ (le_n _) K) as (pk & -> & Hk).
    destruct (skip_ws_passes s2) as (w2 & Ew2 & Pw2).
    destruct (skip_ws s2) as [|d s3] eqn:W2; [discriminate|].
    destruct (N.eqb_spec d 58) as [->|C2]; [|discriminate].
    destruct (parse_value f s3) as [[v r]|] eqn:P; [|discriminate].
    destruct (IHv _ _ _ P) as [(pv & -> & Hv) _].
    destruct (skip_ws_passes r) as (w3 & Ew3 & Pw3).
    destruct (skip_ws r) as [|e r'] eqn:W3; [discriminate|].
    assert (head : forall tail_ p3,
              r' = p3 ++ tail_ ->
              s = (w ++ ([34%N] ++ pk) ++ w2 ++ [58%N] ++ pv ++ w3 ++ [e] ++ p3)
                  ++ tail_).
    { intros tail_ p3 ->. rewrite Ew, Ew2, Ew3, <- !app_assoc. reflexivity. }
    assert (front : passes (w ++ ([34%N] ++ pk) ++ w2 ++ [58%N] ++ pv ++ w3)).
    { apply passes_app; [exact Pw|].
      apply passes_app; [apply passes_string, Hk|].
      apply passes_app; [exact Pw2|].
      apply passes_app; [apply passes_plain; reflexivity|].
      apply passes_app; [exact Hv | exact Pw3]. }
    destruct (N.eqb_spec e 44) as [->|C3].
    + destruct (IHm _ _ _ _ E) as (pm & Em & Hm).
      eexists. split; [apply (head rest pm Em)|].
      replace (w ++ ([34%N] ++ pk) ++ w2 ++ [58%N] ++ pv ++ w3 ++ [44%N] ++ pm)
        with ((w ++ ([34%N] ++ pk) ++ w2 ++ [58%N] ++ pv ++ w3)
              ++ [44%N] ++ pm)
        by (rewrite <- !app_assoc; reflexivity).
      apply passes_leaves; [exact front|].
      apply passes_leaves; [apply passes_plain; reflexivity | exact Hm].
    + destruct (N.eqb_spec e 125) as [->|C4]; [|discriminate].
      injection E as _ <-.
      eexists. split; [apply (head r' [] eq_refl)|].
      replace (w ++ ([34%N] ++ pk) ++ w2 ++ [58%N] ++ pv ++ w3 ++ [125%N] ++ [])
        with ((w ++ ([34%N] ++ pk) ++ w2 ++ [58%N] ++ pv ++ w3) ++ [125%N])
        by (rewrite <- !app_assoc; reflexivity).
      apply passes_leaves; [exact front | apply leaves_close].
Qed.

End Balance.

(** ** Inline objects: what the two scans make of a JSON object in prose *)

Section InlineObjects.

Local Open Scope nat_scope.

Lemma balance_zero (i e : bool) (j : nat) (t : jsstr) :
  balance 0 i e j t = Some j.
Proof. destruct t; reflexivity. Qed.

Lemma skip_ws_nil (s : jsstr) : skip_ws s = [] -> forallb is_ws s = true.
Proof.
  induction s as [|c s IH]; [reflexivity|]. cbn [skip_ws forallb].
  destruct (is_ws c); [exact IH | discriminate].
Qed.

(** After the opening brace of a JSON object that ends with its closing
    brace, the inner loop stops exactly behind that closing brace. *)
Lemma object_extent (mid : jsstr) (v : value) (t : jsstr) :
  parse (123%N :: mid ++ [125%N]) = Some v ->
  balance 1 false false 0 ((mid ++ [125%N]) ++ t)
  = Some (List.length (mid ++ [125%N])).
Proof.
  unfold parse. intros P.
  destruct (parse_value _ _) as [[v' rest]|] eqn:PV; [|discriminate].
  destruct (skip_ws rest) eqn:W; [|discriminate].
  apply skip_ws_nil in W.
  destruct (proj1 (parse_passes _) _ _ _ PV) as [_ inner].
  destruct (inner _ eq_refl) as (p' & E & L).
  assert (R : rest = []).
  { destruct rest as [|x rest0] using rev_ind; [reflexivity|].
    rewrite app_assoc in E. apply app_inj_tail in E as [_ <-].
    rewrite forallb_app in W. apply andb_true_iff in W as [_ W].
    discriminate W. }
  subst rest. rewrite app_nil_r in E. rewrite E.
  rewrite (L 0 0 t). apply balance_zero.
Qed.

Lemma firstn_length_app (p t : jsstr) : firstn (List.length p) (p ++ t) = p.
Proof.
  rewrite firstn_app, Nat.sub_diag, firstn_all. cbn. apply app_nil_r.
Qed.

Lemma skipn_length_app (p t : jsstr) : skipn (List.length p) (p ++ t) = t.
Proof.
  rewrite skipn_app, Nat.sub_diag, skipn_all. reflexivity.
Qed.

(** The candidate that the scan cuts out at the opening brace of such an
    object is the object. *)
Lemma candidate_object (mid : jsstr) (v : value) (t : jsstr) :
  parse (123%N :: mid ++ [125%N]) = Some v ->
  candidate 123 ((mid ++ [125%N]) ++ t) = Some (123%N :: mid ++ [125%N]).
Proof.
  intros P. unfold candidate. rewrite (object_extent mid v t P).
  rewrite firstn_length_app. reflexivity.
Qed.

Lemma try_tool_calls_parses (jsonStr : jsstr) (calls : list value) :
  try_tool_calls jsonStr = Some calls -> exists v, parse jsonStr = Some v.
Proof.
  unfold try_tool_calls. destruct (parse jsonStr) as [v|]; [|discriminate].
  intros _. exists v. reflexivity.
Qed.

(** The inline scan does not pass over an object that holds tool calls. *)
Lemma scan_inline_finds (pre mid t : jsstr) (calls : list value) :
  try_tool_calls (123%N :: mid ++ [125%N]) = Some calls ->
  exists found,
    scan_inline (pre ++ 123%N :: (mid ++ [125%N]) ++ t) = Some found
    /\ (~ In 123%N pre -> found = calls).
Proof.
  intros T. destruct (try_tool_calls_parses _ _ T) as (v & P).
  induction pre as [|c pre (found & S & F)].
  - exists calls. split; [|reflexivity]. cbn [app scan_inline].
    rewrite (candidate_object mid v t P), T. reflexivity.
  - cbn [app scan_inline]. destruct (N.eqb_spec c 123) as [->|C].
    + destruct (match candidate 123 _ with
                | Some jsonStr => try_tool_calls jsonStr
                | None => None
                end) as [early|].
      * exists early. split; [reflexivity|]. intros N. exfalso. apply N. left.
        reflexivity.
      * exists found. split; [exact S|]. intros N. exfalso. apply N. left.
        reflexivity.
    + exists found. split; [exact S|]. intros N. apply F. intros I. apply N.
      right. exact I.
Qed.

Lemma ensure_arguments_string_ok (tc : value) :
  tc <> Null -> exists tc', ensure_arguments_string tc = Ok tc'.
Proof.
  intros N. unfold ensure_arguments_string.
  destruct tc; try contradiction; cbn [get]; try (eexists; reflexivity).
  destruct (lookup function_key props) as [func|]; [|eexists; reflexivity].
  destruct (truthy func) eqn:TF; [|eexists; reflexivity].
  destruct func; try discriminate TF; cbn [get]; try (eexists; reflexivity).
  destruct (lookup arguments_key props0) as [args|]; [|eexists; reflexivity].
  destruct (truthy args); [|eexists; reflexivity].
  destruct (typeof_object args); [eexists; reflexivity|].
  destruct (negb (typeof_string args)); eexists; reflexivity.
Qed.

(** The normalisation goes through for an array without null. *)
Lemma ensure_all_ok (array : list value) :
  Forall (fun tc => tc <> Null) array -> exists calls, ensure_all array = Ok calls.
Proof.
  induction 1 as [|tc array N _ (more & E)]; [exists []; reflexivity|].
  destruct (ensure_arguments_string_ok tc N) as (tc' & E').
  exists (tc' :: more). cbn [ensure_all]. rewrite E', E. reflexivity.
Qed.

(** The inline removal keeps what stands before the first opening brace. *)
Lemma remove_inline_before (pre s : jsstr) :
  ~ In 123%N pre -> remove_inline 0 (pre ++ s) = pre ++ remove_inline 0 s.
Proof.
  induction pre as [|c pre IH]; intros N; [reflexivity|].
  cbn [app remove_inline]. destruct (N.eqb_spec c 123) as [->|C].
  - exfalso. apply N. left. reflexivity.
  - rewrite IH; [reflexivity|]. intros I. apply N. right. exact I.
Qed.

Lemma remove_inline_skip (p t : jsstr) :
  remove_inline (List.length p) (p ++ t) = remove_inline 0 t.
Proof. induction p as [|c p IH]; [reflexivity | exact IH]. Qed.

Lemma remove_inline_no_brace (s : jsstr) :
  ~ In 123%N s -> remove_inline 0 s = s.
Proof.
  intros N. rewrite <- (app_nil_r s) at 1. rewrite (remove_inline_before s [] N).
  apply app_nil_r.
Qed.

Lemma is_tool_call_parses (jsonStr : jsstr) :
  is_tool_call jsonStr = true -> exists v, parse jsonStr = Some v.
Proof.
  unfold is_tool_call. destruct (parse jsonStr) as [v|]; [|discriminate].
  intros _. exists v. reflexivity.
Qed.

(** The inline removal takes out an object that is a tool call, from brace
    to brace, and goes on behind it. *)
Lemma remove_inline_object (pre mid t : jsstr) :
  is_tool_call (123%N :: mid ++ [125%N]) = true -> ~ In 123%N pre ->
  remove_inline 0 (pre ++ (123%N :: mid ++ [125%N]) ++ t)
  = pre ++ remove_inline 0 t.
Proof.
  intros T N. destruct (is_tool_call_parses _ T) as (v & P).
  rewrite (remove_inline_before _ _ N). f_equal.
  cbn [app remove_inline N.eqb Pos.eqb].
  rewrite (object_extent mid v t P), firstn_length_app, T.
  apply remove_inline_skip.
Qed.

End InlineObjects.

Section InlineScan.

Local Open Scope nat_scope.

Lemma scannable_prefix (limit : nat) (head post : jsstr) :
  List.length head <= limit ->
  firstn limit (head ++ post) = head ++ firstn (limit - List.length head) post.
Proof. intros L. rewrite firstn_app, (firstn_all2 head L). reflexivity. Qed.

Lemma truthy_object (pre rest : jsstr) :
  JS.truthy (pre ++ 123%N :: rest) = true.
Proof. destruct pre; reflexivity. Qed.

Lemma no_fenced_block_inv (text : jsstr) :
  no_fenced_block text = true -> match_all_go TOOL_CALL_FENCE_PATTERN 0 text = [].
Proof.
  unfold no_fenced_block, match_all.
  destruct (match_all_go TOOL_CALL_FENCE_PATTERN 0 text);
    [reflexivity | discriminate].
Qed.

End InlineScan.

(** X8: extractToolInvocations does not miss an inline tool call: when the
    first SCAN_LIMIT units of the text hold, from an opening brace to a
    closing brace, a JSON object whose tool_calls is an array without null,
    the result is a list, neither null nor an exception, whatever stands
    before and after the object. *)
Theorem extract_finds_inline_object (config : Config) (now : N)
    (pre mid post : jsstr) (parsed : value) (array : list value) :
  parse (lit "{" ++ mid ++ lit "}") = Some parsed ->
  get parsed tool_calls_key = Ok (Some (Arr array)) ->
  Forall (fun tc => tc <> Null) array ->
  (List.length (pre ++ lit "{" ++ mid ++ lit "}") <= SCAN_LIMIT config)%nat ->
  exists calls,
    extractToolInvocations config now (pre ++ (lit "{" ++ mid ++ lit "}") ++ post)
    = Ok (Some calls).
Proof.
  change (lit "{") with [123%N]. change (lit "}") with [125%N]. cbn [app].
  intros P G N L. destruct (ensure_all_ok array N) as (calls & E).
  assert (T : try_tool_calls (123%N :: mid ++ [125%N]) = Some calls).
  { unfold try_tool_calls. rewrite P, G, E. reflexivity. }
  unfold extractToolInvocations. rewrite truthy_object. cbn [negb].
  unfold substring. rewrite Nat.sub_0_r. cbn [skipn].
  change (pre ++ 123%N :: (mid ++ [125%N]) ++ post)
    with (pre ++ (123%N :: mid ++ [125%N]) ++ post).
  rewrite app_assoc, (scannable_prefix _ _ post L), <- app_assoc.
  destruct (first_tool_calls _) as [fenced|]; [exists fenced; reflexivity|].
  destruct (scan_inline_finds pre mid
              (firstn (SCAN_LIMIT config
                       - List.length (pre ++ 123%N :: mid ++ [125%N])) post)
              calls T) as (found & S & _).
  cbn [app] in S |- *. rewrite S. exists found. reflexivity.
Qed.

Lemma extract_finds_inline_object_witness :
  exists calls,
    extractToolInvocations default_config 0
      (lit "Calling: "
       ++ (lit "{"
           ++ q "'tool_calls':[{'id':'c1','function':{'name':'f','arguments':{'a':1}}}]"
           ++ lit "}")
       ++ lit " done {")
    = Ok (Some calls).
Proof.
  apply (extract_finds_inline_object default_config 0 (lit "Calling: ")
           (q "'tool_calls':[{'id':'c1','function':{'name':'f','arguments':{'a':1}}}]")
           (lit " done {")
           (Obj [(lit "tool_calls",
                  Arr [Obj [(lit "id", Str (lit "c1"));
                            (lit "function",
                             Obj [(lit "name", Str (lit "f"));
                                  (lit "arguments",
                                   Obj [(lit "a",
                                         Num {| neg := false; coeff := 1;
                                                exp10 := 0 |})])])]])])
           [Obj [(lit "id", Str (lit "c1"));
                 (lit "function",
                  Obj [(lit "name", Str (lit "f"));
                       (lit "arguments",
                        Obj [(lit "a",
                              Num {| neg := false; coeff := 1; exp10 := 0 |})])])]]).
  - vm_compute. reflexivity.
  - vm_compute. reflexivity.
  - repeat constructor. discriminate.
  - apply Nat.leb_le. vm_compute. reflexivity.
Defined.

(** X9: in a text whose first SCAN_LIMIT units hold no fenced block, the
    first inline object decides: when no opening brace stands before a JSON
    object whose tool_calls is an array, and the normalisation of the array
    gives a list, extractToolInvocations returns that list. *)
Theorem extract_first_inline_object (config : Config) (now : N)
    (pre mid post : jsstr) (parsed : value) (array calls : list value) :
  parse (lit "{" ++ mid ++ lit "}") = Some parsed ->
  get parsed tool_calls_key = Ok (Some (Arr array)) ->
  ensure_all array = Ok calls ->
  (List.length (pre ++ lit "{" ++ mid ++ lit "}") <= SCAN_LIMIT config)%nat ->
  ~ In 123%N pre ->
  no_fenced_block
    (firstn (SCAN_LIMIT config) (pre ++ (lit "{" ++ mid ++ lit "}") ++ post))
  = true ->
  extractToolInvocations config now (pre ++ (lit "{" ++ mid ++ lit "}") ++ post)
  = Ok (Some calls).
Proof.
  change (lit "{") with [123%N]. change (lit "}") with [125%N]. cbn [app].
  intros P G E L B F.
  assert (T : try_tool_calls (123%N :: mid ++ [125%N]) = Some calls).
  { unfold try_tool_calls. rewrite P, G, E. reflexivity. }
  unfold extractToolInvocations. rewrite truthy_object. cbn [negb].
  unfold substring. rewrite Nat.sub_0_r. cbn [skipn].
  unfold match_all. rewrite (no_fenced_block_inv _ F). cbn [map first_tool_calls].
  change (pre ++ 123%N :: (mid ++ [125%N]) ++ post)
    with (pre ++ (123%N :: mid ++ [125%N]) ++ post).
  rewrite app_assoc, (scannable_prefix _ _ post L), <- app_assoc.
  destruct (scan_inline_finds pre mid
              (firstn (SCAN_LIMIT config
                       - List.length (pre ++ 123%N :: mid ++ [125%N])) post)
              calls T) as (found & S & Same).
  cbn [app] in S |- *. rewrite S, (Same B). reflexivity.
Qed.

Lemma extract_first_inline_object_witness :
  extractToolInvocations default_config 0
    (lit "I will call it. "
     ++ (lit "{"
         ++ q "'tool_calls':[{'function':{'name':'g','arguments':[1,2]}}],'note':'{'"
         ++ lit "}")
     ++ q " {'tool_calls':[]}")
  = Ok (Some [Obj [(lit "function",
                    Obj [(lit "name", Str (lit "g"));
                         (lit "arguments", Str (lit "[1,2]"))])]]).
Proof.
  apply (extract_first_inline_object default_config 0 (lit "I will call it. ")
           (q "'tool_calls':[{'function':{'name':'g','arguments':[1,2]}}],'note':'{'")
           (q " {'tool_calls':[]}")
           (Obj [(lit "tool_calls",
                  Arr [Obj [(lit "function",
                             Obj [(lit "name", Str (lit "g"));
                                  (lit "arguments",
                                   Arr [Num {| neg := false; coeff := 1;
                                               exp10 := 0 |};
                                        Num {| neg := false; coeff := 2;
                                               exp10 := 0 |}])])]]);
                 (lit "note", Str (lit "{"))])
           [Obj [(lit "function",
                  Obj [(lit "name", Str (lit "g"));
                       (lit "arguments",
                        Arr [Num {| neg := false; coeff := 1; exp10 := 0 |};
                             Num {| neg := false; coeff := 2; exp10 := 0 |}])])]]).
  - vm_compute. reflexivity.
  - vm_compute. reflexivity.
  - vm_compute. reflexivity.
  - apply Nat.leb_le. vm_compute. reflexivity.
  - intros I. vm_compute in I. repeat (destruct I as [I|I]; [discriminate I|]).
    exact I.
  - vm_compute. reflexivity.
Defined.

(** X10: removeToolJsonContent takes an inline tool call out from brace to
    brace: in a text without fenced block, a JSON object with a tool_calls
    key, with no opening brace before it or after it, is removed, and what
    stood around it is returned, trimmed. *)
Theorem strip_removes_inline_object (pre mid post : jsstr) (parsed : value) :
  parse (lit "{" ++ mid ++ lit "}") = Some parsed ->
  has_in tool_calls_key parsed = Ok true ->
  no_fenced_block (pre ++ (lit "{" ++ mid ++ lit "}") ++ post) = true ->
  ~ In 123%N pre -> ~ In 123%N post ->
  removeToolJsonContent (pre ++ (lit "{" ++ mid ++ lit "}") ++ post)
  = trim (pre ++ post).
Proof.
  change (lit "{") with [123%N]. change (lit "}") with [125%N].
  intros P H F B A.
  assert (T : is_tool_call (123%N :: mid ++ [125%N]) = true).
  { unfold is_tool_call. cbn [app] in P. rewrite P, H. reflexivity. }
  unfold removeToolJsonContent, replace.
  rewrite (replace_go_no_match _ _ _ _ (no_fenced_block_inv _ F)).
  change ([123%N] ++ mid ++ [125%N]) with (123%N :: mid ++ [125%N]).
  rewrite (remove_inline_object pre mid post T B), (remove_inline_no_brace post A).
  reflexivity.
Qed.

Lemma strip_removes_inline_object_witness :
  removeToolJsonContent
    (lit "  I will call it. "
     ++ (lit "{"
         ++ q "'tool_calls':[{'function':{'name':'g','arguments':[1,2]}}],'note':'}{'"
         ++ lit "}")
     ++ lit " Done.  ")
  = lit "I will call it.  Done.".
Proof.
  apply (strip_removes_inline_object (lit "  I will call it. ")
           (q "'tool_calls':[{'function':{'name':'g','arguments':[1,2]}}],'note':'}{'")
           (lit " Done.  ")
           (Obj [(lit "tool_calls",
                  Arr [Obj [(lit "function",
                             Obj [(lit "name", Str (lit "g"));
                                  (lit "arguments",
                                   Arr [Num {| neg := false; coeff := 1;
                                               exp10 := 0 |};
                                        Num {| neg := false; coeff := 2;
                                               exp10 := 0 |}])])]]);
                 (lit "note", Str (lit "}{"))])).
  - vm_compute. reflexivity.
  - vm_compute. reflexivity.
  - vm_compute. reflexivity.
  - intros I. vm_compute in I. repeat (destruct I as [I|I]; [discriminate I|]).
    exact I.
  - intros I. vm_compute in I. repeat (destruct I as [I|I]; [discriminate I|]).
    exact I.
Defined.

(** ** The iterators over data events *)

Section Iterators.

Context {T : Type}.
Variable validator : value -> res T.

(** A data event carries the trimmed text after the colon, and the JSON
    value of that text when it has one. *)
Lemma decode_line_data (line : jsstr) (event : SSEEvent) :
  In event (decode_line line) ->
  match event with
  | DataEvent data raw is_json =>
      trim raw = raw
      /\ if is_json then parse raw = Some data
         else parse raw = None /\ data = Str raw
  | _ => True
  end.
Proof.
  unfold decode_line. destruct (negb (JS.truthy (trim line))); [intros []|].
  destruct (startsWith line (lit ":")); [intros []|].
  destruct (indexOf 58 line) as [colonIndex|]; [|intros []].
  set (value := trim (substring_from (colonIndex + 1) line)).
  assert (V : trim value = value) by apply trim_idem.
  destruct (JS.eqb _ (lit "data")).
  - destruct (parse value) as [data|] eqn:P; intros [<- | []].
    + split; [exact V | exact P].
    + split; [exact V|]. split; [exact P | reflexivity].
  - destruct (JS.eqb _ (lit "event")); [intros [<- | []]; exact I|].
    destruct (JS.eqb _ (lit "id")); [intros [<- | []]; exact I|].
    destruct (JS.eqb _ (lit "retry")); [intros [<- | []]; exact I|].
    intros [].
Qed.

Lemma read_loop_data (chunks : list (list Byte.byte)) (ending : Ending)
    (event : SSEEvent) :
  In event (fst (iterEvents chunks ending)) ->
  exists line, In event (decode_line line).
Proof.
  unfold iterEvents. rewrite read_loop_lines by reflexivity. cbn [fst].
  intros H. apply in_flat_map in H as (line & _ & H). exists line. exact H.
Qed.

Lemma validated_inv (event : SSEEvent) (e : JsonEvent T) :
  In e (validated validator event) ->
  exists data,
    event = DataEvent data (json_raw e) true
    /\ json_is_json e = true /\ validator data = Ok (json_data e).
Proof.
  destruct event as [data raw is_json| | |]; try (intros []).
  cbn [validated]. destruct is_json; [|intros []].
  destruct (validator data) as [validatedData|] eqn:V; [|intros []].
  intros [<- | []].
  exists data. split; [reflexivity|]. split; [reflexivity | exact V].
Qed.

Lemma iterJsonData_events (chunks : list (list Byte.byte)) (ending : Ending) :
  iterJsonData validator chunks ending
  = (flat_map (validated validator) (fst (iterEvents chunks ending)),
     snd (iterEvents chunks ending)).
Proof.
  unfold iterJsonData. destruct (iterEvents chunks ending). reflexivity.
Qed.

End Iterators.

(** X11: every event that iterJsonData yields is a JSON data event that
    has passed the validator: its raw text is trimmed and is the text of a
    JSON value, and its data is what the validator returns for that value.
    Events whose text is not JSON, and events for which the validator
    throws, are not among them. *)
Theorem iterJsonData_yields_validated {T : Type} (validator : value -> res T)
    (chunks : list (list Byte.byte)) (ending : Ending) (e : JsonEvent T) :
  In e (fst (iterJsonData validator chunks ending)) ->
  json_is_json e = true
  /\ trim (json_raw e) = json_raw e
  /\ exists data,
       parse (json_raw e) = Some data /\ validator data = Ok (json_data e).
Proof.
  rewrite iterJsonData_events. cbn [fst snd]. intros H.
  apply in_flat_map in H as (event & Hin & H).
  apply validated_inv in H as (data & -> & J & V).
  apply read_loop_data in Hin as (line & Hin).
  apply decode_line_data in Hin as (R & P).
  split; [exact J|]. split; [exact R|].
  exists data. split; [exact P | exact V].
Qed.

Lemma iterJsonData_yields_validated_witness :
  json_is_json
    {| json_data := frame "answer" (lit "Hi") [] false;
       json_raw := q "{'data':{'delta_content':'Hi','phase':'answer'}}";
       json_is_json := true |} = true
  /\ trim (q "{'data':{'delta_content':'Hi','phase':'answer'}}")
     = q "{'data':{'delta_content':'Hi','phase':'answer'}}"
  /\ exists data,
       parse (q "{'data':{'delta_content':'Hi','phase':'answer'}}") = Some data
       /\ sample_validator data = Ok (frame "answer" (lit "Hi") [] false).
Proof.
  apply (iterJsonData_yields_validated sample_validator
           [bytes "data: 1" ++ [Byte.x0a] ++ bytes "data: {oops" ++ [Byte.x0a]
            ++ qbytes "data:  {'data':{'delta_content':'Hi',";
            qbytes "'phase':'answer'}} " ++ [Byte.x0a]] ReadFails
           {| json_data := frame "answer" (lit "Hi") [] false;
              json_raw := q "{'data':{'delta_content':'Hi','phase':'answer'}}";
              json_is_json := true |}).
  vm_compute. left. reflexivity.
Defined.

(** X12: what a client receives does not depend on how the bytes of the
    upstream body arrive: for two ways of cutting the same bytes into
    chunks, whatever the validator of the frames, the stream handler yields
    the same lines and the non-streaming handler returns the same
    response. *)
Theorem responses_chunking_invariant (schema_parse : value -> res UpstreamData)
    (config : Config) (now : N) (model : jsstr) (tools ok : bool)
    (chunks1 chunks2 : list (list Byte.byte)) (ending : Ending) :
  concat chunks1 = concat chunks2 ->
  stream_output config now model tools
    (upstream_of_body schema_parse ok chunks1 ending)
  = stream_output config now model tools
      (upstream_of_body schema_parse ok chunks2 ending)
  /\ handle_full config now model tools
       (upstream_of_body schema_parse ok chunks1 ending)
     = handle_full config now model tools
         (upstream_of_body schema_parse ok chunks2 ending).
Proof.
  intros H.
  assert (E : upstream_frames schema_parse chunks1 ending
              = upstream_frames schema_parse chunks2 ending).
  { unfold upstream_frames. rewrite !iterJsonData_events. cbn [fst].
    unfold iterEvents. rewrite !read_loop_lines by reflexivity. rewrite H.
    reflexivity. }
  unfold upstream_of_body. rewrite E. split; reflexivity.
Qed.

Lemma responses_chunking_invariant_witness :
  stream_output default_config 0 (lit "GLM-4.5") false
    (upstream_of_body sample_validator true
       [qbytes "data: {'data':{'delta_content':'Hi',";
        qbytes "'phase':'answer'}}" ++ [Byte.x0a] ++ qbytes "data: {'data':{'done':";
        bytes "true}}" ++ [Byte.x0a]] EndOfData)
  = stream_output default_config 0 (lit "GLM-4.5") false
      (upstream_of_body sample_validator true
         [qbytes "data: {'data':{'delta_content':'Hi','phase':'answer'}}"
          ++ [Byte.x0a] ++ qbytes "data: {'data':{'done':true}}" ++ [Byte.x0a]]
         EndOfData)
  /\ handle_full default_config 0 (lit "GLM-4.5") false
       (upstream_of_body sample_validator true
          [qbytes "data: {'data':{'delta_content':'Hi',";
           qbytes "'phase':'answer'}}" ++ [Byte.x0a] ++ qbytes "data: {'data':{'done':";
           bytes "true}}" ++ [Byte.x0a]] EndOfData)
     = handle_full default_config 0 (lit "GLM-4.5") false
         (upstream_of_body sample_validator true
            [qbytes "data: {'data':{'delta_content':'Hi','phase':'answer'}}"
             ++ [Byte.x0a] ++ qbytes "data: {'data':{'done':true}}" ++ [Byte.x0a]]
            EndOfData).
Proof.
  apply (responses_chunking_invariant sample_validator default_config 0
           (lit "GLM-4.5") false true
           [qbytes "data: {'data':{'delta_content':'Hi',";
            qbytes "'phase':'answer'}}" ++ [Byte.x0a] ++ qbytes "data: {'data':{'done':";
            bytes "true}}" ++ [Byte.x0a]]
           [qbytes "data: {'data':{'delta_content':'Hi','phase':'answer'}}"
            ++ [Byte.x0a] ++ qbytes "data: {'data':{'done':true}}" ++ [Byte.x0a]]
           EndOfData).
  vm_compute. reflexivity.
Defined.

(** ** Model configurations *)

Lemma eqb_eq (a b : jsstr) : JS.eqb a b = true <-> a = b.
Proof.
  revert b. induction a as [|x a IH]; intros [|y b]; cbn [JS.eqb];
    try (split; [discriminate | discriminate]); [tauto|].
  rewrite andb_true_iff, N.eqb_eq, IH. split.
  - intros [-> ->]. reflexivity.
  - intros H. injection H as -> ->. split; reflexivity.
Qed.

Section ModelFacts.

Variable toLowerCase : jsstr -> jsstr.
Variable inherited : jsstr -> bool.

(** No unit of a lowered string is a capital letter of ASCII. *)
Hypothesis lower_no_capital :
  forall s c, In c (toLowerCase s) -> Models.is_capital c = false.

(** The id of every supported model starts with a capital letter. *)
Lemma normalized_no_id (modelId : jsstr) (m : Models.ModelConfig) :
  In m Models.SUPPORTED_MODELS ->
  JS.eqb (Models.id m) (trim (toLowerCase modelId)) = false.
Proof.
  intros Hm. destruct (JS.eqb _ _) eqn:E; [|reflexivity].
  apply eqb_eq in E.
  assert (G : In 71%N (trim (toLowerCase modelId))).
  { rewrite <- E. destruct Hm as [<- | [<- | [<- | [<- | []]]]];
      left; reflexivity. }
  apply trim_incl, lower_no_capital in G. discriminate G.
Qed.

Lemma find_no_id (modelId : jsstr) :
  find (Models.is_id (Models.IdString (trim (toLowerCase modelId))))
    Models.SUPPORTED_MODELS = None.
Proof.
  unfold Models.SUPPORTED_MODELS. cbn [find Models.is_id].
  rewrite !normalized_no_id; [reflexivity | | | |];
    unfold Models.SUPPORTED_MODELS; cbn; tauto.
Qed.

(** The configuration is chosen by the table of mappings alone. *)
Lemma getModelConfig_cases (modelId : jsstr) :
  Models.getModelConfig toLowerCase inherited modelId
  = match Models.own (trim (toLowerCase modelId)) Models.modelMappings with
    | Some mapped =>
        if JS.eqb mapped (lit "GLM-4.5") then Models.GLM_4_5
        else if JS.eqb mapped (lit "GLM-4.5V") then Models.GLM_4_5V
        else Models.GLM_4_6
    | None => Models.GLM_4_6
    end.
Proof.
  unfold Models.getModelConfig, Models.normalizeModelId. cbv zeta.
  pose proof (find_no_id modelId) as F.
  set (normalized := trim (toLowerCase modelId)) in *.
  unfold Models.modelMappings. cbn [Models.own].
  repeat (match goal with
          | |- context [JS.eqb (lit ?k) normalized] =>
              destruct (JS.eqb (lit k) normalized); [reflexivity|]
          end).
  destruct (inherited normalized); [reflexivity|]. rewrite F. reflexivity.
Qed.

End ModelFacts.

Section AsciiLower.

Lemma ascii_lower_no_capital (s : jsstr) (c : N) :
  In c (map Models.ascii_lower s) -> Models.is_capital c = false.
Proof.
  intros H. apply in_map_iff in H as (x & <- & _).
  unfold Models.ascii_lower, Models.is_capital.
  destruct ((65 <=? x) && (x <=? 90)) eqn:E; [|exact E].
  apply andb_true_iff in E as [A B]. apply N.leb_le in A, B.
  apply andb_false_iff. right. apply N.leb_gt. lia.
Qed.

Lemma own_value (key mapped : jsstr) :
  Models.own key Models.modelMappings = Some mapped ->
  mapped = lit "GLM-4.6" \/ mapped = lit "GLM-4.5V" \/ mapped = lit "GLM-4.5".
Proof.
  unfold Models.modelMappings. cbn [Models.own].
  repeat (match goal with
          | |- context [JS.eqb (lit ?k) key] =>
              destruct (JS.eqb (lit k) key);
              [intros H; injection H as <-; tauto|]
          end).
  discriminate.
Qed.

End AsciiLower.

(** X13: the configuration of a model is chosen by the table of mappings
    alone.  Whatever the id, getModelConfig returns the configuration whose
    id the table gives for the lowered and trimmed id, and the first
    configuration, GLM-4.6, for every id that the table does not hold; it
    never returns the configuration GLM-4.5-Air, whose id, like every id of
    SUPPORTED_MODELS, no lowered string equals. *)
Theorem model_config_by_mapping_table (toLowerCase : jsstr -> jsstr)
    (inherited : jsstr -> bool) (modelId : jsstr) :
  (forall s c, In c (toLowerCase s) -> Models.is_capital c = false) ->
  Models.getModelConfig toLowerCase inherited modelId <> Models.GLM_4_5_Air
  /\ (forall mapped,
        Models.own (trim (toLowerCase modelId)) Models.modelMappings = Some mapped ->
        Models.id (Models.getModelConfig toLowerCase inherited modelId) = mapped)
  /\ (Models.own (trim (toLowerCase modelId)) Models.modelMappings = None ->
      Models.getModelConfig toLowerCase inherited modelId = Models.GLM_4_6).
Proof.
  intros L. rewrite (getModelConfig_cases toLowerCase inherited L modelId).
  destruct (Models.own _ _) as [mapped|] eqn:O.
  - split; [|split; [|discriminate]].
    + destruct (JS.eqb mapped (lit "GLM-4.5")); [discriminate|].
      destruct (JS.eqb mapped (lit "GLM-4.5V")); discriminate.
    + intros m H. injection H as <-.
      destruct (own_value _ _ O) as [-> | [-> | ->]]; reflexivity.
  - split; [discriminate|]. split; [discriminate | reflexivity].
Qed.

Lemma model_config_by_mapping_table_witness :
  Models.getModelConfig (map Models.ascii_lower) Models.object_prototype
    (lit " GLM-4.5-Air") <> Models.GLM_4_5_Air
  /\ (forall mapped,
        Models.own (trim (map Models.ascii_lower (lit " GLM-4.5-Air")))
          Models.modelMappings = Some mapped ->
        Models.id
          (Models.getModelConfig (map Models.ascii_lower) Models.object_prototype
             (lit " GLM-4.5-Air")) = mapped)
  /\ (Models.own (trim (map Models.ascii_lower (lit " GLM-4.5-Air")))
        Models.modelMappings = None ->
      Models.getModelConfig (map Models.ascii_lower) Models.object_prototype
        (lit " GLM-4.5-Air") = Models.GLM_4_6).
Proof.
  apply (model_config_by_mapping_table (map Models.ascii_lower)
           Models.object_prototype (lit " GLM-4.5-Air")).
  exact ascii_lower_no_capital.
Defined.

(** X14: the configuration found for the upstream id of a configuration
    that getModelConfig returns is that configuration: the model name that
    the handlers put in their responses, which they look up by the upstream
    id of the request, is the name of the configuration chosen for the
    model that the client asked for. *)
Theorem model_config_of_upstream_id (toLowerCase : jsstr -> jsstr)
    (inherited : jsstr -> bool) (modelId : jsstr) :
  (forall s c, In c (toLowerCase s) -> Models.is_capital c = false) ->
  (forall s, forallb Models.is_ascii s = true ->
             toLowerCase s = map Models.ascii_lower s) ->
  Models.getModelConfig toLowerCase inherited
    (Models.upstreamId (Models.getModelConfig toLowerCase inherited modelId))
  = Models.getModelConfig toLowerCase inherited modelId.
Proof.
  intros L A. rewrite (getModelConfig_cases toLowerCase inherited L modelId).
  assert (each : forall m,
            In m [Models.GLM_4_5; Models.GLM_4_5V; Models.GLM_4_6] ->
            Models.getModelConfig toLowerCase inherited (Models.upstreamId m) = m).
  { intros m H. rewrite (getModelConfig_cases toLowerCase inherited L).
    destruct H as [<- | [<- | [<- | []]]];
      (rewrite A by reflexivity); reflexivity. }
  destruct (Models.own _ _) as [mapped|]; [|apply each; cbn; tauto].
  destruct (JS.eqb mapped (lit "GLM-4.5")); [apply each; cbn; tauto|].
  destruct (JS.eqb mapped (lit "GLM-4.5V")); apply each; cbn; tauto.
Qed.

Lemma model_config_of_upstream_id_witness :
  Models.getModelConfig (map Models.ascii_lower) Models.object_prototype
    (Models.upstreamId
       (Models.getModelConfig (map Models.ascii_lower) Models.object_prototype
          (lit " GPT-4 ")))
  = Models.getModelConfig (map Models.ascii_lower) Models.object_prototype
      (lit " GPT-4 ").
Proof.
  apply (model_config_of_upstream_id (map Models.ascii_lower)
           Models.object_prototype (lit " GPT-4 ")).
  - exact ascii_lower_no_capital.
  - intros s _. reflexivity.
Defined.

(** ** Texts without an opening brace *)

Section NoBrace.

(** Matching an item, then the rest of the pattern. *)
Lemma match_items_cons (it : item) (more : pattern) :
  forall s spans0 rest,
  match_items (it :: more) s = Some (spans0, rest) ->
  exists sp sps s',
    spans0 = sp :: sps /\ match_items more s' = Some (sps, rest)
    /\ forall l, it = Lit l -> sp = l.
Proof.
  intros s spans0 rest H.
  destruct it as [l | a b | p | p | p]; cbn [match_items] in H.
  - destruct (strip_prefix l s) as [s'|]; [|discriminate].
    apply span_cons_inv in H as (sps & -> & H). exists l, sps, s'.
    repeat split; [exact H|]. intros l' E. injection E as <-. reflexivity.
  - destruct (match strip_prefix a s with
              | Some s' => span_cons a (match_items more s')
              | None => None
              end) as [r|] eqn:Ea.
    + injection H as ->. destruct (strip_prefix a s) as [s'|]; [|discriminate].
      apply span_cons_inv in Ea as (sps & -> & H). exists a, sps, s'.
      repeat split; [exact H | discriminate].
    + destruct (strip_prefix b s) as [s'|]; [|discriminate].
      apply span_cons_inv in H as (sps & -> & H). exists b, sps, s'.
      repeat split; [exact H | discriminate].
  - destruct s as [|c s']; [discriminate|]. destruct (p c); [|discriminate].
    apply span_cons_inv in H as (sps & -> & H). exists [c], sps, s'.
    repeat split; [exact H | discriminate].
  - revert spans0 rest H. induction s as [|c s' IHs]; intros spans0 rest H.
    + apply span_cons_inv in H as (sps & -> & H). exists [], sps, [].
      repeat split; [exact H | discriminate].
    + assert (stop : span_cons [] (match_items more (c :: s')) = Some (spans0, rest) ->
                exists sp sps s'0,
                  spans0 = sp :: sps /\ match_items more s'0 = Some (sps, rest)
                  /\ forall l, Star p = Lit l -> sp = l).
      { intros E. apply span_cons_inv in E as (sps & -> & E).
        exists [], sps, (c :: s'). repeat split; [exact E | discriminate]. }
      destruct (p c); [|exact (stop H)].
      destruct (span_push c _) as [r|] eqn:Ep; [|exact (stop H)].
      injection H as ->. apply span_push_inv in Ep as (sp & sps & -> & Ep).
      apply IHs in Ep as (sp' & sps' & s0 & E & M & _).
      injection E as -> ->. exists (c :: sp'), sps', s0.
      repeat split; [exact M | discriminate].
  - revert spans0 rest H. induction s as [|c s' IHs]; intros spans0 rest H.
    + destruct (span_cons [] (match_items more [])) as [r|] eqn:Ec; [|discriminate].
      injection H as ->. apply span_cons_inv in Ec as (sps & -> & H).
      exists [], sps, []. repeat split; [exact H | discriminate].
    + destruct (span_cons [] (match_items more (c :: s'))) as [r|] eqn:Ec.
      * injection H as ->. apply span_cons_inv in Ec as (sps & -> & H).
        exists [], sps, (c :: s'). repeat split; [exact H | discriminate].
      * destruct (p c); [|discriminate].
        apply span_push_inv in H as (sp & sps & -> & Ep).
        apply IHs in Ep as (sp' & sps' & s0 & E & M & _).
        injection E as -> ->. exists (c :: sp'), sps', s0.
        repeat split; [exact M | discriminate].
Qed.

(** A literal of the pattern is one of the texts of a match. *)
Lemma match_items_literal (l : jsstr) (its : pattern) :
  In (Lit l) its ->
  forall s spans0 rest, match_items its s = Some (spans0, rest) -> In l spans0.
Proof.
  induction its as [|it more IH]; intros Hin s spans0 rest H; [destruct Hin|].
  apply match_items_cons in H as (sp & sps & s' & -> & M & L).
  destruct Hin as [-> | Hin].
  - left. apply L. reflexivity.
  - right. apply (IH Hin s' sps rest M).
Qed.

(** A pattern with a literal opening brace matches nowhere in a text
    without opening brace. *)
Lemma match_all_no_brace (its : pattern) (s : jsstr) :
  In (Lit (lit "{")) its -> ~ In 123%N s -> match_all its s = [].
Proof.
  intros Hin N. destruct (match_all its s) as [|spans0 more] eqn:E; [reflexivity|].
  exfalso. apply N.
  assert (H : In spans0 (match_all its s)) by (rewrite E; left; reflexivity).
  apply match_all_go_in in H as (pre & suf & rest & -> & M).
  pose proof (match_items_literal _ _ Hin _ _ _ M) as L.
  apply match_items_sound in M. subst suf.
  apply in_or_app. right. apply in_or_app. left.
  apply in_concat. exists (lit "{"). split; [exact L | left; reflexivity].
Qed.

Lemma scan_inline_no_brace (s : jsstr) : ~ In 123%N s -> scan_inline s = None.
Proof.
  induction s as [|c s IH]; intros N; [reflexivity|]. cbn [scan_inline].
  destruct (N.eqb_spec c 123) as [->|_].
  - exfalso. apply N. left. reflexivity.
  - apply IH. intros H. apply N. right. exact H.
Qed.

End NoBrace.

(** X7: extractToolInvocations returns null on every text whose first
    SCAN_LIMIT units hold no opening brace, whatever comes after them: a
    tool call that starts beyond the scan limit is not seen. *)
Theorem extract_null_without_brace (config : Config) (now : N) (text : jsstr) :
  ~ In 123%N (firstn (SCAN_LIMIT config) text) ->
  extractToolInvocations config now text = Ok None.
Proof.
  intros N. unfold extractToolInvocations.
  destruct (negb (JS.truthy text)); [reflexivity|].
  unfold substring. rewrite Nat.sub_0_r. cbn [skipn].
  assert (fence : In (Lit (lit "{")) TOOL_CALL_FENCE_PATTERN) by (cbn; tauto).
  assert (natural : In (Lit (lit "{")) FUNCTION_CALL_PATTERN) by (cbn; tauto).
  rewrite (match_all_no_brace _ _ fence N). cbn [map first_tool_calls].
  rewrite (scan_inline_no_brace _ N), (match_all_no_brace _ _ natural N).
  reflexivity.
Qed.

Lemma extract_null_without_brace_witness :
  extractToolInvocations (config_with_limit 16) 0
    (lit "I will call it: " ++ tool_reply) = Ok None.
Proof.
  apply (extract_null_without_brace (config_with_limit 16) 0
           (lit "I will call it: " ++ tool_reply)).
  intros I. vm_compute in I. repeat (destruct I as [I|I]; [discriminate I|]).
  exact I.
Defined.

(** ** The validation of the API key *)

(** X15: a request passes the validation of the API key exactly when
    SKIP_AUTH_TOKEN is set or its Authorization header is the word Bearer,
    one space and AUTH_TOKEN, unit for unit; no other header passes, and
    without SKIP_AUTH_TOKEN a request without the header never does. *)
Theorem api_key_valid_iff (settings : Route.Settings)
    (authorization : option jsstr) :
  Route.validate_api_key settings authorization = Route.Valid
  <-> Route.SKIP_AUTH_TOKEN settings = true
      \/ authorization = Some (lit "Bearer " ++ Route.AUTH_TOKEN settings).
Proof.
  unfold Route.validate_api_key.
  destruct (Route.SKIP_AUTH_TOKEN settings); cbn [negb]; [tauto|].
  split.
  - intros H. right. destruct authorization as [a|]; [|discriminate].
    destruct (JS.truthy a); [|discriminate]. cbn [negb orb] in H.
    unfold startsWith in H.
    destruct (strip_prefix (lit "Bearer ") a) as [apiKey|] eqn:P; [|discriminate].
    apply strip_prefix_app in P. subst a. cbn [negb] in H.
    change (substring_from 7 (lit "Bearer " ++ apiKey)) with apiKey in H.
    destruct (JS.eqb apiKey (Route.AUTH_TOKEN settings)) eqn:E; [|discriminate].
    apply eqb_eq in E. subst apiKey. reflexivity.
  - intros [H | ->]; [discriminate|].
    change (substring_from 7 (lit "Bearer " ++ Route.AUTH_TOKEN settings))
      with (Route.AUTH_TOKEN settings).
    change (JS.truthy (lit "Bearer " ++ Route.AUTH_TOKEN settings)) with true.
    replace (startsWith (lit "Bearer " ++ Route.AUTH_TOKEN settings) (lit "Bearer "))
      with true by reflexivity.
    cbn [negb orb].
    rewrite (proj2 (eqb_eq _ _) eq_refl). reflexivity.
Qed.

(** ** When the non-streaming handler fails *)

Section NonStreamFails.

Variable config : Config.

Lemma collect_throws_iff (frames : list UpstreamData) (ending : Ending) :
  collect config frames ending = Throw
  <-> ending = ReadFails
      /\ Forall (fun f => done (data f) || JS.eqb (phase (data f)) done_phase
                          = false) frames.
Proof.
  induction frames as [|f frames IH]; cbn [collect].
  - destruct ending; split; try discriminate.
    + intros [H _]. discriminate H.
    + intros _. split; [reflexivity | constructor].
    + reflexivity.
  - destruct (done (data f) || JS.eqb (phase (data f)) done_phase) eqn:D.
    + split; [discriminate|]. intros [_ H]. inversion H as [|? ? Hf _]; subst.
      rewrite D in Hf. discriminate Hf.
    + destruct (collect config frames ending) as [later|].
      * split; [discriminate|]. intros [E H]. inversion H; subst.
        assert (T : @Ok (list jsstr) later = Throw) by (apply IH; tauto).
        discriminate T.
      * split; [|reflexivity]. intros _.
        destruct (proj1 IH eq_refl) as [E H]. split; [exact E|].
        constructor; [exact D | exact H].
Qed.

End NonStreamFails.

(** X16: when the non-streaming handler fails.  On an ok response, its
    promise is rejected in two cases only: reading the body fails before
    any frame says that the response is done, or, with tools, the
    extraction throws on the collected text.  In every other case a
    response is returned. *)
Theorem nonstream_throws_iff (config : Config) (now : N) (model : jsstr)
    (tools : bool) (frames : list UpstreamData) (ending : Ending) :
  handle_full config now model tools (Responds true frames ending) = Throw
  <-> (ending = ReadFails
       /\ Forall (fun f => done (data f) || JS.eqb (phase (data f)) done_phase
                           = false) frames)
      \/ (tools = true
          /\ exists pieces,
               collect config frames ending = Ok pieces
               /\ extractToolInvocations config now (join pieces) = Throw).
Proof.
  unfold handle_full. rewrite <- (collect_throws_iff config frames ending).
  destruct (collect config frames ending) as [pieces|].
  - destruct tools.
    + destruct (extractToolInvocations config now (join pieces)) as [[calls|]|] eqn:X.
      * split; [discriminate|].
        intros [H | (_ & p & E & T)]; [discriminate H|].
        injection E as <-. rewrite X in T. discriminate T.
      * split; [discriminate|].
        intros [H | (_ & p & E & T)]; [discriminate H|].
        injection E as <-. rewrite X in T. discriminate T.
      * split; [|reflexivity]. intros _. right. split; [reflexivity|].
        exists pieces. split; [reflexivity | exact X].
    + split; [discriminate|].
      intros [H | (H & _)]; discriminate H.
  - split; [|reflexivity]. intros _. left. reflexivity.
Qed.

Lemma api_key_valid_iff_witness :
  Route.validate_api_key
    {| Route.AUTH_TOKEN := lit "sk-your-api-key"; Route.SKIP_AUTH_TOKEN := false |}
    (Some (lit "Bearer sk-your-api-key")) = Route.Valid.
Proof.
  apply (proj2 (api_key_valid_iff
                  {| Route.AUTH_TOKEN := lit "sk-your-api-key";
                     Route.SKIP_AUTH_TOKEN := false |}
                  (Some (lit "Bearer sk-your-api-key")))).
  right. reflexivity.
Defined.

Lemma nonstream_throws_iff_witness :
  handle_full default_config 0 (lit "GLM-4.5") false
    (Responds true [frame "answer" (lit "Hel") [] false] ReadFails) = Throw.
Proof.
  apply (proj2 (nonstream_throws_iff default_config 0 (lit "GLM-4.5") false
                  [frame "answer" (lit "Hel") [] false] ReadFails)).
  left. split; [reflexivity|]. repeat constructor.
Defined.

(** ** Lines and the white space around them *)

Section LineSpace.

Lemma trimStart_space_l (ws s : jsstr) :
  forallb is_space ws = true -> trimStart (ws ++ s) = trimStart s.
Proof.
  induction ws as [|c ws IH]; intros H; [reflexivity|].
  cbn in H. apply andb_true_iff in H as [Hc Hw].
  cbn [app trimStart]. rewrite Hc. apply IH, Hw.
Qed.

Lemma trimEnd_space_r (s ws : jsstr) :
  forallb is_space ws = true -> trimEnd (s ++ ws) = trimEnd s.
Proof.
  intros H. assert (E : trimEnd ws = []).
  { induction ws as [|c ws IH]; [reflexivity|].
    cbn in H. apply andb_true_iff in H as [Hc Hw].
    cbn [trimEnd]. rewrite (IH Hw), Hc. reflexivity. }
  induction s as [|c s IH]; [exact E|].
  cbn [app trimEnd]. rewrite IH. reflexivity.
Qed.

Lemma trimStart_all_space (s : jsstr) :
  forallb is_space s = true -> trimStart s = [].
Proof.
  intros H. rewrite <- (app_nil_r s), (trimStart_space_l s [] H). reflexivity.
Qed.

Lemma trimStart_app (s t : jsstr) :
  forallb is_space s = false -> trimStart (s ++ t) = trimStart s ++ t.
Proof.
  induction s as [|c s IH]; intros H; [discriminate H|].
  cbn in H. cbn [app trimStart]. destruct (is_space c); [|reflexivity].
  apply IH, H.
Qed.

Lemma trim_space_l (ws s : jsstr) :
  forallb is_space ws = true -> trim (ws ++ s) = trim s.
Proof. intros H. unfold trim. rewrite (trimStart_space_l ws s H). reflexivity. Qed.

Lemma trim_space_r (s ws : jsstr) :
  forallb is_space ws = true -> trim (s ++ ws) = trim s.
Proof.
  intros H. unfold trim. destruct (forallb is_space s) eqn:S.
  - rewrite (trimStart_all_space s S), trimStart_all_space; [reflexivity|].
    rewrite forallb_app, S, H. reflexivity.
  - rewrite (trimStart_app s ws S). apply trimEnd_space_r, H.
Qed.

Lemma indexOf_space_l (ws s : jsstr) :
  forallb is_space ws = true ->
  indexOf 58 (ws ++ s)
  = match indexOf 58 s with
    | Some i => Some (List.length ws + i)%nat
    | None => None
    end.
Proof.
  induction ws as [|c ws IH]; intros H.
  - cbn. destruct (indexOf 58 s); reflexivity.
  - cbn in H. apply andb_true_iff in H as [Hc Hw]. cbn [app indexOf].
    destruct (N.eqb_spec c 58) as [->|_]; [discriminate Hc|].
    rewrite (IH Hw). destruct (indexOf 58 s); reflexivity.
Qed.

Lemma indexOf_app (s t : jsstr) (i : nat) :
  indexOf 58 s = Some i ->
  indexOf 58 (s ++ t) = Some i /\ (i < List.length s)%nat.
Proof.
  revert i. induction s as [|c s IH]; intros i H; [discriminate H|].
  cbn [app indexOf List.length] in *. destruct (c =? 58).
  - injection H as <-. split; [reflexivity | lia].
  - destruct (indexOf 58 s) as [j|]; [|discriminate]. injection H as <-.
    destruct (IH j eq_refl) as [-> L]. split; [reflexivity | lia].
Qed.

Lemma indexOf_space_r (s ws : jsstr) :
  forallb is_space ws = true -> indexOf 58 s = None ->
  indexOf 58 (s ++ ws) = None.
Proof.
  intros H. induction s as [|c s IH]; intros E.
  - cbn [app]. induction ws as [|c ws IHw]; [reflexivity|].
    cbn in H. apply andb_true_iff in H as [Hc Hw]. cbn [indexOf].
    destruct (N.eqb_spec c 58) as [->|_]; [discriminate Hc|].
    rewrite (IHw Hw). reflexivity.
  - cbn [app indexOf] in *. destruct (c =? 58); [discriminate E|].
    destruct (indexOf 58 s); [discriminate E|]. rewrite IH; reflexivity.
Qed.

Lemma startsWith_colon (s : jsstr) :
  startsWith s (lit ":") = true -> exists t, s = 58%N :: t.
Proof.
  unfold startsWith. destruct (strip_prefix (lit ":") s) as [t|] eqn:P;
    [|discriminate].
  intros _. apply strip_prefix_app in P. exists t. exact P.
Qed.

End LineSpace.

(** X17: white space around a line does not change its events: a line
    with white space before it or after it, such as the carriage return
    that a body with CRLF line ends leaves before each line feed, yields
    the events of the line without it. *)
Theorem decode_line_ignores_outer_space (before line after : jsstr) :
  forallb is_space before = true -> forallb is_space after = true ->
  decode_line (before ++ line ++ after) = decode_line line.
Proof.
  intros B A. unfold decode_line.
  rewrite (trim_space_l before _ B), (trim_space_r line after A).
  destruct (negb (JS.truthy (trim line))) eqn:T; [reflexivity|].
  rewrite (indexOf_space_l before _ B).
  destruct (indexOf 58 line) as [i|] eqn:I.
  - destruct (indexOf_app line after i I) as [-> L].
    assert (F : trim (substring 0 (List.length before + i) (before ++ line ++ after))
                = trim (substring 0 i line)).
    { unfold substring. rewrite !Nat.sub_0_r. cbn [skipn].
      rewrite firstn_app, firstn_all2 by lia.
      replace (List.length before + i - List.length before)%nat with i by lia.
      rewrite firstn_app.
      replace (i - List.length line)%nat with O by lia.
      rewrite firstn_O, app_nil_r. apply trim_space_l, B. }
    assert (V : trim (substring_from (List.length before + i + 1)
                        (before ++ line ++ after))
                = trim (substring_from (i + 1) line)).
    { unfold substring_from. rewrite skipn_app, skipn_all2 by lia. cbn [app].
      replace (List.length before + i + 1 - List.length before)%nat
        with (i + 1)%nat by lia.
      rewrite skipn_app.
      replace (i + 1 - List.length line)%nat with O by lia.
      cbn [skipn]. apply trim_space_r, A. }
    rewrite F, V.
    destruct (startsWith line (lit ":")) eqn:S.
    + destruct (startsWith (before ++ line ++ after) (lit ":")); [reflexivity|].
      apply startsWith_colon in S as (t & ->).
      cbn in I. injection I as <-. reflexivity.
    + destruct (startsWith (before ++ line ++ after) (lit ":")) eqn:S';
        [|reflexivity].
      apply startsWith_colon in S' as (t & E).
      destruct before as [|b before'].
      * cbn [app] in E. destruct line as [|c line']; [discriminate I|].
        injection E as -> _. discriminate S.
      * injection E as -> _. discriminate B.
  - rewrite (indexOf_space_r line after A I).
    destruct (startsWith (before ++ line ++ after) (lit ":")),
      (startsWith line (lit ":")); reflexivity.
Qed.

Lemma decode_line_ignores_outer_space_witness :
  decode_line (lit " " ++ q "data: {'a':1}" ++ [13])
  = decode_line (q "data: {'a':1}").
Proof.
  apply (decode_line_ignores_outer_space (lit " ") (q "data: {'a':1}") [13]);
    reflexivity.
Defined.

(** ** The model name in the lines of a stream *)

Section ModelNames.

Variable config : Config.
Variable now : N.
Variable model : jsstr.
Variable error_seen : Prop.

Local Open Scope gen_scope.

Lemma keeps_ret {A} (a : A) : keeps_model config model error_seen (ret a).
Proof. intros h H. split; [constructor | exact H]. Qed.

Lemma keeps_throw {A} : keeps_model config model error_seen (@throw A).
Proof. intros h H. split; [constructor | exact H]. Qed.

Lemma keeps_yield (l : Line) :
  names_model config model error_seen l ->
  keeps_model config model error_seen (yield l).
Proof.
  intros P h H. split; [|exact H]. cbn. constructor; [exact P | constructor].
Qed.

Lemma keeps_update (f : Handler -> Handler) :
  (forall h, modelName (f h) = modelName h) ->
  keeps_model config model error_seen (update f).
Proof. intros F h H. split; [constructor | cbn; rewrite F; exact H]. Qed.

Lemma keeps_bind {A B} (m : Gen A) (f : A -> Gen B) :
  keeps_model config model error_seen m ->
  (forall a, keeps_model config model error_seen (f a)) ->
  keeps_model config model error_seen (bind m f).
Proof.
  intros Hm Hf h H. unfold bind. specialize (Hm h H).
  destruct (m h) as [[out h'] [a|]]; cbn [fst snd] in Hm; [|exact Hm].
  destruct Hm as [Fo Hh]. specialize (Hf a h' Hh).
  destruct (f a h') as [[out' h''] r]. cbn [fst snd] in *.
  destruct Hf as [Fo' Hh']. split; [apply Forall_app; split; assumption | exact Hh'].
Qed.

Lemma keeps_this {B} (k : Handler -> Gen B) :
  (forall h, modelName h = model -> keeps_model config model error_seen (k h)) ->
  keeps_model config model error_seen (bind this k).
Proof.
  intros Hk h H. unfold bind, this. specialize (Hk h H h H).
  destruct (k h h) as [[out' h''] r]. exact Hk.
Qed.

Lemma keeps_try_catch {A} (body handler : Gen A) :
  keeps_model config model error_seen body ->
  keeps_model config model error_seen handler ->
  keeps_model config model error_seen (try_catch body handler).
Proof.
  intros Hb Hc h H. unfold try_catch. specialize (Hb h H).
  destruct (body h) as [[out h'] [a|]]; cbn [fst snd] in Hb; [exact Hb|].
  destruct Hb as [Fo Hh]. specialize (Hc h' Hh).
  destruct (handler h') as [[out' h''] r]. cbn [fst snd] in *.
  destruct Hc as [Fo' Hh']. split; [apply Forall_app; split; assumption | exact Hh'].
Qed.

Lemma keeps_try_finally {A} (body : Gen A) (cleanup : Gen unit) :
  keeps_model config model error_seen body ->
  keeps_model config model error_seen cleanup ->
  keeps_model config model error_seen (try_finally body cleanup).
Proof.
  intros Hb Hc h H. unfold try_finally. specialize (Hb h H).
  destruct (body h) as [[out h'] r]. cbn [fst snd] in Hb.
  destruct Hb as [Fo Hh]. specialize (Hc h' Hh).
  destruct (cleanup h') as [[out' h''] r']. cbn [fst snd] in *.
  destruct Hc as [Fo' Hh']. split; [apply Forall_app; split; assumption | exact Hh'].
Qed.

Lemma names_own (h : Handler) (d : Delta) (f : option jsstr) :
  modelName h = model ->
  names_model config model error_seen (Chunk (modelName h) d f).
Proof. intros H m E. injection E as <-. left. exact H. Qed.

Lemma names_other (l : Line) :
  line_model l = None -> names_model config model error_seen l.
Proof. intros N m E. rewrite N in E. discriminate E. Qed.

Ltac keeps_step :=
  first
    [ apply keeps_ret
    | apply keeps_throw
    | apply keeps_yield; first [apply names_own; assumption
                               | apply names_other; reflexivity]
    | apply keeps_update; intros; reflexivity
    | apply keeps_this; intros ? ?
    | apply keeps_bind; [|intros ?] ].

Lemma keeps_processContent (upstreamData : UpstreamData) (sent : bool) :
  keeps_model config model error_seen (_processContent config upstreamData sent).
Proof.
  unfold _processContent. cbv zeta.
  destruct (negb (JS.truthy _)); [apply keeps_ret|].
  apply keeps_this. intros h H.
  destruct (hasTools h); [keeps_step|].
  apply keeps_bind.
  - destruct (negb sent && _ && _); [|keeps_step].
    destruct (JS.truthy (_extractEditContent _)); keeps_step.
  - intros _. destruct (JS.truthy (delta_content _)); [|keeps_step].
    destruct (JS.truthy _); [|keeps_step].
    destruct (JS.eqb _ thinking); keeps_step.
Qed.

Lemma keeps_send_tool_calls (calls : list value) :
  forall i, keeps_model config model error_seen (send_tool_calls model i calls).
Proof.
  induction calls as [|tc more IH]; intros i; cbn [send_tool_calls];
    [apply keeps_ret|].
  destruct (get tc (lit "id")); [|apply keeps_throw].
  destruct (get tc (lit "type")); [|apply keeps_throw].
  destruct (get tc function_key); [|apply keeps_throw].
  apply keeps_bind; [|intros _; apply IH].
  apply keeps_yield. intros m E. injection E as <-. left. reflexivity.
Qed.

Lemma keeps_sendEndChunk :
  keeps_model config model error_seen (_sendEndChunk config now).
Proof.
  unfold _sendEndChunk. apply keeps_this. intros h H.
  destruct (streamEnded h); [apply keeps_ret|].
  apply keeps_bind.
  - destruct (hasTools h); [|apply keeps_ret].
    destruct (extractToolInvocations config now (bufferedContent h))
      as [[calls|]|]; [| |apply keeps_throw].
    + apply keeps_bind; [keeps_step|]. intros _.
      apply keeps_bind; [|intros _; apply keeps_ret].
      rewrite H. apply keeps_send_tool_calls.
    + apply keeps_bind; [keeps_step|]. intros _.
      apply keeps_bind; [|intros _; apply keeps_ret].
      destruct (JS.truthy _); keeps_step.
  - intros finishReason. repeat keeps_step.
Qed.

Lemma keeps_process_stream (sent : bool) (ending : Ending) :
  forall frames,
  (existsb _hasError frames = true -> error_seen) ->
  keeps_model config model error_seen
    (process_stream config now sent frames ending).
Proof.
  induction frames as [|f frames IH]; intros E; cbn [process_stream].
  - destruct ending; [apply keeps_ret | apply keeps_throw].
  - cbn [existsb] in E. destruct (_hasError f).
    + apply keeps_this. intros h H.
      destruct (negb (streamEnded h)); [|apply keeps_ret].
      apply keeps_bind; [|intros _; keeps_step].
      unfold handleUpstreamError. apply keeps_bind; [|intros _; keeps_step].
      apply keeps_yield. intros m _. right. split; [apply E; reflexivity|].
      reflexivity.
    + apply keeps_bind; [apply keeps_processContent|]. intros _.
      apply keeps_this. intros h H.
      destruct (_ && negb (streamEnded h)).
      * apply keeps_bind; [apply keeps_sendEndChunk|]. intros _. keeps_step.
      * apply IH, E.
Qed.

Lemma keeps_handle (upstream : Upstream) :
  (match upstream with
   | Responds _ frames _ => existsb _hasError frames = true
   | CallFails => False
   end -> error_seen) ->
  keeps_model config model error_seen (handle config now upstream).
Proof.
  intros E. destruct upstream as [|[|] frames ending]; cbn [handle];
    try (apply keeps_yield, names_other; reflexivity).
  apply keeps_this. intros h H.
  apply keeps_bind; [keeps_step|]. intros _. cbv zeta.
  apply keeps_try_finally.
  - apply keeps_try_catch; [apply keeps_process_stream, E|].
    apply keeps_this. intros h' H'.
    destruct (negb (streamEnded h')); repeat keeps_step.
  - apply keeps_this. intros h' H'.
    destruct (negb (streamEnded h')); keeps_step.
Qed.

End ModelNames.

(** X18: the model name in the lines of a stream.  Every chunk that the
    stream handler yields names the model of the handler, but for one: the
    end chunk after a frame with an upstream error names PRIMARY_MODEL,
    whatever model was asked for.  When no frame carries an error, every
    chunk names the model of the handler. *)
Theorem stream_chunks_name_model (config : Config) (now : N) (model : jsstr)
    (tools ok : bool) (frames : list UpstreamData) (ending : Ending)
    (l : Line) (m : jsstr) :
  In l (stream_output config now model tools (Responds ok frames ending)) ->
  line_model l = Some m ->
  m = model
  \/ (existsb _hasError frames = true /\ l = error_end config).
Proof.
  intros Hin Hm. unfold stream_output in Hin.
  destruct (keeps_handle config now model (existsb _hasError frames = true)
              (Responds ok frames ending) (fun H => H)
              (new_handler model tools) eq_refl) as [F _].
  rewrite Forall_forall in F. exact (F l Hin m Hm).
Qed.

Lemma stream_chunks_name_model_witness :
  lit "GLM-4.5" = lit "GLM-4.6"
  \/ (existsb _hasError [frame "answer" (lit "Hi") [] false; inner_error_frame] = true
      /\ Chunk (lit "GLM-4.5") NoDelta (Some stop) = error_end default_config).
Proof.
  apply (stream_chunks_name_model default_config 0 (lit "GLM-4.6") false true
           [frame "answer" (lit "Hi") [] false; inner_error_frame] EndOfData
           (Chunk (lit "GLM-4.5") NoDelta (Some stop)) (lit "GLM-4.5")).
  - vm_compute. right. right. left. reflexivity.
  - reflexivity.
Defined.

(** ** Fenced blocks *)

Section FencedBlocks.

Local Open Scope nat_scope.

Lemma strip_prefix_here (l s : jsstr) : strip_prefix l (l ++ s) = Some s.
Proof.
  induction l as [|c l IH]; [reflexivity|]. cbn. rewrite N.eqb_refl. exact IH.
Qed.

Lemma match_lit (l : jsstr) (more : pattern) (s : jsstr) :
  match_items (Lit l :: more) (l ++ s) = span_cons l (match_items more s).
Proof. cbn [match_items]. rewrite strip_prefix_here. reflexivity. Qed.

Lemma match_lit_fails (l : jsstr) (more : pattern) (c d : N) (l' s : jsstr) :
  l = c :: l' -> c <> d -> match_items (Lit l :: more) (d :: s) = None.
Proof.
  intros -> H. cbn [match_items strip_prefix].
  destruct (N.eqb_spec c d); [contradiction | reflexivity].
Qed.

(** Whether the text does not begin with a unit of the class. *)
Lemma star_greedy (p : N -> bool) (more : pattern) (s : jsstr)
    (sps : list jsstr) (rest : jsstr) :
  match s with c :: _ => p c = false | [] => True end ->
  match_items more s = Some (sps, rest) ->
  forall ws, forallb p ws = true ->
  match_items (Star p :: more) (ws ++ s) = Some (ws :: sps, rest).
Proof.
  intros Hs M. induction ws as [|c ws IH]; intros H.
  - cbn [app]. destruct s as [|c s']; cbn [match_items].
    + cbn [match_items] in M. rewrite M. reflexivity.
    + rewrite Hs, M. reflexivity.
  - cbn in H. apply andb_true_iff in H as [Hc Hw]. specialize (IH Hw).
    cbn [app]. cbn [match_items] in IH |- *. rewrite Hc, IH. reflexivity.
Qed.

Lemma lazy_first (p : N -> bool) (more : pattern) (s : jsstr)
    (sps : list jsstr) (rest : jsstr) :
  match_items more s = Some (sps, rest) ->
  forall mid, forallb p mid = true ->
  (forall x c y, mid = x ++ c :: y -> match_items more (c :: y ++ s) = None) ->
  match_items (Lazy p :: more) (mid ++ s) = Some (mid :: sps, rest).
Proof.
  intros M. induction mid as [|c mid IH]; intros H F.
  - cbn [app]. destruct s as [|c s']; cbn [match_items];
      cbn [match_items] in M; rewrite M; reflexivity.
  - cbn in H. apply andb_true_iff in H as [Hc Hm].
    assert (IH' : match_items (Lazy p :: more) (mid ++ s) = Some (mid :: sps, rest)).
    { apply IH; [exact Hm|]. intros x d y E. apply (F (c :: x) d y).
      rewrite E. reflexivity. }
    cbn [app]. cbn [match_items] in IH' |- *.
    rewrite (F [] c mid eq_refl). cbn [span_cons]. rewrite Hc, IH'. reflexivity.
Qed.

Lemma space_prefix (y : jsstr) :
  forallb is_space y = true
  \/ exists sp d y', y = sp ++ d :: y' /\ forallb is_space sp = true
                     /\ is_space d = false.
Proof.
  induction y as [|c y IH]; [left; reflexivity|].
  destruct (is_space c) eqn:C.
  - destruct IH as [A | (sp & d & y' & -> & S & D)].
    + left. cbn. rewrite C, A. reflexivity.
    + right. exists (c :: sp), d, y'. cbn. rewrite C, S. repeat split. exact D.
  - right. exists [], c, y. repeat split. exact C.
Qed.

(** White space that ends before a unit which is no back quote is not
    followed by the fence. *)
Lemma space_then_fence_fails (d : N) (s0 : jsstr) :
  is_space d = false -> d <> 96%N ->
  forall sp, forallb is_space sp = true ->
  match_items [Star is_space; Lit (lit "```")] (sp ++ d :: s0) = None.
Proof.
  intros D N. induction sp as [|c sp IH]; intros H.
  - cbn [app match_items]. rewrite D. cbn [span_cons strip_prefix lit].
    change (strip_prefix (lit "```") (d :: s0))
      with (if (96 =? d)%N then strip_prefix (lit "``") s0 else None).
    destruct (N.eqb_spec 96 d) as [E|_]; [symmetry in E; contradiction|].
    reflexivity.
  - cbn in H. apply andb_true_iff in H as [Hc Hs]. specialize (IH Hs).
    cbn [app]. cbn [match_items] in IH |- *. rewrite Hc, IH. cbn [span_push].
    change (strip_prefix (lit "```") (c :: sp ++ d :: s0))
      with (if (96 =? c)%N then strip_prefix (lit "``") (sp ++ d :: s0) else None).
    destruct (N.eqb_spec 96 c) as [<-|_]; [discriminate Hc | reflexivity].
Qed.

(** Inside the braces, the end of the pattern matches nowhere. *)
Lemma fence_end_fails (c : N) (y ws2 post : jsstr) :
  ~ In 96%N y ->
  match_items [Lit (lit "}"); Star is_space; Lit (lit "```")]
    (c :: y ++ lit "}" ++ ws2 ++ lit "```" ++ post) = None.
Proof.
  intros N. destruct (N.eqb_spec 125 c) as [<-|C].
  - change (125%N :: y ++ lit "}" ++ ws2 ++ lit "```" ++ post)
      with (lit "}" ++ y ++ lit "}" ++ ws2 ++ lit "```" ++ post).
    rewrite match_lit.
    destruct (space_prefix y) as [A | (sp & d & y' & -> & S & D)].
    + change (y ++ lit "}" ++ ws2 ++ lit "```" ++ post)
        with (y ++ 125%N :: ws2 ++ lit "```" ++ post).
      rewrite space_then_fence_fails; [reflexivity | reflexivity | discriminate | exact A].
    + rewrite <- app_assoc. cbn [app].
      rewrite space_then_fence_fails; [reflexivity | exact D | | exact S].
      intros ->. apply N, in_or_app. right. left. reflexivity.
  - apply (match_lit_fails (lit "}") _ 125 c []); [reflexivity | exact C].
Qed.

(** The fence pattern matches a fenced block whose text holds no back
    quote as a whole. *)
Lemma fence_match (ws1 mid ws2 post : jsstr) :
  forallb is_space ws1 = true -> forallb is_space ws2 = true ->
  ~ In 96%N mid ->
  match_items TOOL_CALL_FENCE_PATTERN (fenced_block ws1 mid ws2 ++ post)
  = Some (fenced_spans ws1 mid ws2, post).
Proof.
  intros S1 S2 N. unfold TOOL_CALL_FENCE_PATTERN, fenced_block, fenced_spans.
  rewrite <- !app_assoc. rewrite match_lit.
  assert (tail_ : match_items [Lit (lit "}"); Star is_space; Lit (lit "```")]
                    (lit "}" ++ ws2 ++ lit "```" ++ post)
                  = Some ([lit "}"; ws2; lit "```"], post)).
  { rewrite match_lit.
    rewrite (star_greedy is_space [Lit (lit "```")] (lit "```" ++ post)
               [lit "```"] post); [reflexivity | reflexivity | | exact S2].
    rewrite match_lit. reflexivity. }
  assert (body : match_items
                   [Lit (lit "{"); Lazy any; Lit (lit "}"); Star is_space;
                    Lit (lit "```")]
                   (lit "{" ++ mid ++ lit "}" ++ ws2 ++ lit "```" ++ post)
                 = Some ([lit "{"; mid; lit "}"; ws2; lit "```"], post)).
  { rewrite match_lit.
    rewrite (lazy_first any _ _ _ _ tail_ mid); [reflexivity | |].
    - apply forallb_forall. reflexivity.
    - intros x c y E. apply fence_end_fails. intros I. apply N. rewrite E.
      apply in_or_app. right. right. exact I. }
  rewrite (star_greedy is_space _
             (lit "{" ++ mid ++ lit "}" ++ ws2 ++ lit "```" ++ post) _ _
             eq_refl body ws1 S1).
  reflexivity.
Qed.

Lemma fence_no_match (c : N) (s : jsstr) :
  c <> 96%N -> match_items TOOL_CALL_FENCE_PATTERN (c :: s) = None.
Proof.
  intros N. apply (match_lit_fails (lit "```json") _ 96 c (lit "``json"));
    [reflexivity|]. intros E. apply N. symmetry. exact E.
Qed.

Lemma match_all_go_before (pre s : jsstr) :
  ~ In 96%N pre ->
  match_all_go TOOL_CALL_FENCE_PATTERN 0 (pre ++ s)
  = match_all_go TOOL_CALL_FENCE_PATTERN 0 s.
Proof.
  induction pre as [|c pre IH]; intros N; [reflexivity|].
  cbn [app match_all_go]. rewrite fence_no_match.
  - apply IH. intros I. apply N. right. exact I.
  - intros ->. apply N. left. reflexivity.
Qed.

(** The first match in a text that holds no back quote before a fenced
    block is the block. *)
Lemma match_all_fenced (pre ws1 mid ws2 post : jsstr) :
  forallb is_space ws1 = true -> forallb is_space ws2 = true ->
  ~ In 96%N pre -> ~ In 96%N mid ->
  exists more,
    match_all TOOL_CALL_FENCE_PATTERN (pre ++ fenced_block ws1 mid ws2 ++ post)
    = fenced_spans ws1 mid ws2 :: more.
Proof.
  intros S1 S2 Np Nm. unfold match_all. rewrite (match_all_go_before _ _ Np).
  pose proof (fence_match ws1 mid ws2 post S1 S2 Nm) as M.
  destruct (fenced_block ws1 mid ws2 ++ post) as [|c s] eqn:E; [discriminate M|].
  cbn [match_all_go]. rewrite M. eexists. reflexivity.
Qed.

Lemma replace_go_before (f : list jsstr -> jsstr) (pre s : jsstr) :
  ~ In 96%N pre ->
  forall prev,
  exists prev',
    replace_go false TOOL_CALL_FENCE_PATTERN f prev 0 (pre ++ s)
    = pre ++ replace_go false TOOL_CALL_FENCE_PATTERN f prev' 0 s.
Proof.
  induction pre as [|c pre IH]; intros N prev; [exists prev; reflexivity|].
  cbn [app replace_go negb orb]. rewrite fence_no_match.
  - destruct (IH (fun I => N (or_intror I)) (Some c)) as (prev' & ->).
    exists prev'. reflexivity.
  - intros ->. apply N. left. reflexivity.
Qed.

Lemma replace_go_skip (bol : bool) (its : pattern) (f : list jsstr -> jsstr)
    (x s : jsstr) :
  forall prev,
  exists prev',
    replace_go bol its f prev (List.length x) (x ++ s)
    = replace_go bol its f prev' 0 s.
Proof.
  induction x as [|c x IH]; intros prev; [exists prev; reflexivity|].
  cbn [app List.length replace_go]. apply IH.
Qed.

Lemma replace_go_none (f : list jsstr -> jsstr) (s : jsstr) :
  ~ In 96%N s ->
  forall prev, replace_go false TOOL_CALL_FENCE_PATTERN f prev 0 s = s.
Proof.
  intros N prev. destruct (replace_go_before f s [] N prev) as (prev' & E).
  rewrite app_nil_r in E. rewrite E. apply app_nil_r.
Qed.

(** What the replacement function returns for a fenced block. *)
Lemma removeToolCallBlock_fenced (ws1 mid ws2 : jsstr) :
  removeToolCallBlock (whole (fenced_spans ws1 mid ws2)) = lit "`".
Proof. reflexivity. Qed.

End FencedBlocks.

(** The first attempt returns what the try block makes of the first
    fenced block. *)
Lemma extract_fenced (config : Config) (now : N)
    (pre ws1 mid ws2 post : jsstr) (calls : list value) :
  forallb is_space ws1 = true -> forallb is_space ws2 = true ->
  ~ In 96%N pre -> ~ In 96%N mid ->
  try_tool_calls (lit "{" ++ mid ++ lit "}") = Some calls ->
  (List.length (pre ++ fenced_block ws1 mid ws2) <= SCAN_LIMIT config)%nat ->
  extractToolInvocations config now (pre ++ fenced_block ws1 mid ws2 ++ post)
  = Ok (Some calls).
Proof.
  intros S1 S2 Np Nm T L. unfold extractToolInvocations.
  assert (truthy_ : JS.truthy (pre ++ fenced_block ws1 mid ws2 ++ post) = true)
    by (destruct pre; reflexivity).
  rewrite truthy_. cbn [negb]. unfold substring. rewrite Nat.sub_0_r. cbn [skipn].
  rewrite app_assoc, (scannable_prefix _ _ post L), <- app_assoc.
  destruct (match_all_fenced pre ws1 mid ws2
              (firstn (SCAN_LIMIT config
                       - List.length (pre ++ fenced_block ws1 mid ws2)) post)
              S1 S2 Np Nm) as (more & ->).
  cbn [map first_tool_calls].
  change (fence_group (fenced_spans ws1 mid ws2)) with (lit "{" ++ mid ++ lit "}").
  rewrite T. reflexivity.
Qed.

Lemma try_tool_calls_found (jsonStr : jsstr) (parsed : value)
    (array calls : list value) :
  parse jsonStr = Some parsed ->
  get parsed tool_calls_key = Ok (Some (Arr array)) ->
  ensure_all array = Ok calls ->
  try_tool_calls jsonStr = Some calls.
Proof. intros P G E. unfold try_tool_calls. rewrite P, G, E. reflexivity. Qed.

(** X19: extractToolInvocations finds the fenced block that the tool
    prompt asks for: when the first SCAN_LIMIT units of the text hold,
    after a stretch without back quote, the fence with its language, a
    JSON object without back quote whose tool_calls is an array, and the
    fence again, the result is the normalised array of that object. *)
Theorem extract_finds_fenced_block (config : Config) (now : N)
    (pre ws1 mid ws2 post : jsstr) (parsed : value) (array calls : list value) :
  forallb is_space ws1 = true -> forallb is_space ws2 = true ->
  ~ In 96%N pre -> ~ In 96%N mid ->
  parse (lit "{" ++ mid ++ lit "}") = Some parsed ->
  get parsed tool_calls_key = Ok (Some (Arr array)) ->
  ensure_all array = Ok calls ->
  (List.length (pre ++ fenced_block ws1 mid ws2) <= SCAN_LIMIT config)%nat ->
  extractToolInvocations config now (pre ++ fenced_block ws1 mid ws2 ++ post)
  = Ok (Some calls).
Proof.
  intros S1 S2 Np Nm P G E L.
  apply extract_fenced; try assumption.
  apply (try_tool_calls_found _ parsed array calls P G E).
Qed.

Lemma extract_finds_fenced_block_witness :
  extractToolInvocations default_config 0
    (lit "Sure. "
     ++ fenced_block nl
          (q "'tool_calls':[{'function':{'name':'g','arguments':{'a':'}'}}}]")
          nl
     ++ lit " Done.")
  = Ok (Some [Obj [(lit "function",
                    Obj [(lit "name", Str (lit "g"));
                         (lit "arguments", Str (q "{'a':'}'}"))])]]).
Proof.
  apply (extract_finds_fenced_block default_config 0 (lit "Sure. ") nl
           (q "'tool_calls':[{'function':{'name':'g','arguments':{'a':'}'}}}]")
           nl (lit " Done.")
           (Obj [(lit "tool_calls",
                  Arr [Obj [(lit "function",
                             Obj [(lit "name", Str (lit "g"));
                                  (lit "arguments",
                                   Obj [(lit "a", Str (lit "}"))])])]])])
           [Obj [(lit "function",
                  Obj [(lit "name", Str (lit "g"));
                       (lit "arguments", Obj [(lit "a", Str (lit "}"))])])]]).
  - reflexivity.
  - reflexivity.
  - intros I. vm_compute in I. repeat (destruct I as [I|I]; [discriminate I|]).
    exact I.
  - intros I. vm_compute in I. repeat (destruct I as [I|I]; [discriminate I|]).
    exact I.
  - vm_compute. reflexivity.
  - vm_compute. reflexivity.
  - vm_compute. reflexivity.
  - apply Nat.leb_le. vm_compute. reflexivity.
Defined.

(** X20: what removeToolJsonContent makes of a fenced block.  The
    replacement function is called with the matched text, of which it
    reads the second unit as the JSON and the first as the match: in a
    text without other back quotes and without braces around the block, a
    fenced block is replaced by one back quote, whether it holds a tool
    call or not. *)
Theorem strip_turns_fenced_block_into_back_quote
    (pre ws1 mid ws2 post : jsstr) :
  forallb is_space ws1 = true -> forallb is_space ws2 = true ->
  ~ In 96%N pre -> ~ In 96%N mid -> ~ In 96%N post ->
  ~ In 123%N pre -> ~ In 123%N post ->
  removeToolJsonContent (pre ++ fenced_block ws1 mid ws2 ++ post)
  = trim (pre ++ lit "`" ++ post).
Proof.
  intros S1 S2 Np Nm Nq Bp Bq. unfold removeToolJsonContent, replace.
  destruct (replace_go_before (fun spans => removeToolCallBlock (whole spans))
              pre (fenced_block ws1 mid ws2 ++ post) Np None) as (prev & ->).
  pose proof (fence_match ws1 mid ws2 post S1 S2 Nm) as M.
  assert (C : whole (fenced_spans ws1 mid ws2) = fenced_block ws1 mid ws2).
  { unfold whole, fenced_spans, fenced_block. cbn [concat].
    rewrite app_nil_r. reflexivity. }
  set (block := lit "``json" ++ ws1 ++ lit "{" ++ mid ++ lit "}" ++ ws2
                ++ lit "```").
  assert (B : fenced_block ws1 mid ws2 = 96%N :: block) by reflexivity.
  rewrite B in M, C |- *.
  cbn [app replace_go negb orb]. cbn [app] in M. rewrite M.
  rewrite removeToolCallBlock_fenced.
  change (concat (fenced_spans ws1 mid ws2)) with (whole (fenced_spans ws1 mid ws2)).
  rewrite C.
  replace (List.length (96%N :: block) - 1)%nat with (List.length block)
    by (cbn [List.length]; lia).
  destruct (replace_go_skip false TOOL_CALL_FENCE_PATTERN
              (fun spans => removeToolCallBlock (whole spans)) block post
              (Some 96%N))
    as (prev' & ->).
  rewrite (replace_go_none _ post Nq).
  rewrite remove_inline_no_brace; [reflexivity|].
  intros I. apply in_app_or in I as [I | I]; [exact (Bp I)|].
  apply in_app_or in I as [[I | []] | I]; [discriminate I | exact (Bq I)].
Qed.

Lemma strip_turns_fenced_block_into_back_quote_witness :
  removeToolJsonContent
    (lit "Here it is: " ++ fenced_block nl (q "'x': 1") nl ++ lit " Done.")
  = lit "Here it is: ` Done.".
Proof.
  apply (strip_turns_fenced_block_into_back_quote (lit "Here it is: ") nl
           (q "'x': 1") nl (lit " Done."));
    try reflexivity;
    intros I; vm_compute in I; repeat (destruct I as [I|I]; [discriminate I|]);
    exact I.
Defined.

(** ** Tools enabled, no tool call in the answer *)

Section NoCallText.

Variable config : Config.
Variable model : jsstr.

Lemma transform_nil : transformThinkingContent config [] = [].
Proof.
  unfold transformThinkingContent.
  destruct (JS.eqb (THINKING_PROCESSING config) (lit "think")); [reflexivity|].
  destruct (JS.eqb (THINKING_PROCESSING config) (lit "strip")); reflexivity.
Qed.





End NoCallText.



(** ** A tool call in a fenced block, from the frames to the client *)

Section FencedCall.

Variable config : Config.

(** The pieces that the non-streaming handler collects from frames without
    edit_content, put end to end, are their processed contents. *)
Lemma collect_processed (before : list UpstreamData) (d : UpstreamData)
    (after : list UpstreamData) (ending : Ending) :
  Forall (fun f => is_terminal f = false /\ edit_content (data f) = []) before ->
  done (data d) || JS.eqb (phase (data d)) done_phase = true ->
  edit_content (data d) = [] ->
  exists pieces,
    collect config (before ++ d :: after) ending = Ok pieces
    /\ join pieces = concat (map (processed_content config) (before ++ [d])).
Proof.
  assert (pushed : forall f,
            edit_content (data f) = [] ->
            concat (if JS.truthy (delta_content (data f)) then
                      let content :=
                        if JS.eqb (phase (data f)) thinking
                        then transformThinkingContent config (delta_content (data f))
                        else delta_content (data f) in
                      if JS.truthy content then [content] else []
                    else [])
            = processed_content config f).
  { intros f E. unfold processed_content. rewrite E.
    destruct (JS.truthy (delta_content (data f))) eqn:D.
    - cbv zeta.
      destruct (if JS.eqb (phase (data f)) thinking
                then transformThinkingContent config (delta_content (data f))
                else delta_content (data f)) as [|c t]; [reflexivity|].
      cbn. rewrite app_nil_r. reflexivity.
    - destruct (JS.eqb (phase (data f)) thinking); [|reflexivity].
      rewrite transform_nil. reflexivity. }
  intros Hb Hd Ed. induction Hb as [|f before [Hf Ef] _ (pieces & C & J)].
  - cbn [app collect map concat]. rewrite Hd. eexists. split; [reflexivity|].
    unfold join. rewrite <- (pushed d Ed), app_nil_r. reflexivity.
  - destruct (not_terminal_parts f Hf) as (_ & Hd' & Hp').
    cbn [app collect map concat]. rewrite Hd', Hp', C. cbn [orb].
    eexists. split; [reflexivity|]. unfold join in *.
    rewrite concat_app, J, <- (pushed f Ef). reflexivity.
Qed.

End FencedCall.

(** X22: a tool call in a fenced block, from the frames to the client.
    With tools, on frames without edit_content that end with a frame
    saying that the response is done, when the processed contents of the
    frames, put end to end, hold after a stretch without back quote a
    fenced block with a JSON object whose tool_calls is an array, the
    stream handler yields the role chunk, one chunk for each normalised
    call, and the terminal sequence with finish reason tool_calls, and the
    non-streaming handler returns these calls with null content: no text
    of the answer is sent. *)
Theorem fenced_tool_call_delivered (config : Config) (now : N) (model : jsstr)
    (before : list UpstreamData) (d : UpstreamData)
    (after : list UpstreamData) (ending : Ending)
    (pre ws1 mid ws2 post : jsstr) (parsed : value) (array calls : list value) :
  Forall (fun f => is_terminal f = false /\ edit_content (data f) = []) before ->
  _hasError d = false ->
  done (data d) || JS.eqb (phase (data d)) done_phase = true ->
  edit_content (data d) = [] ->
  concat (map (processed_content config) (before ++ [d]))
  = pre ++ fenced_block ws1 mid ws2 ++ post ->
  forallb is_space ws1 = true -> forallb is_space ws2 = true ->
  ~ In 96%N pre -> ~ In 96%N mid ->
  parse (lit "{" ++ mid ++ lit "}") = Some parsed ->
  get parsed tool_calls_key = Ok (Some (Arr array)) ->
  ensure_all array = Ok calls ->
  (List.length (pre ++ fenced_block ws1 mid ws2) <= SCAN_LIMIT config)%nat ->
  stream_output config now model true
    (Responds true (before ++ d :: after) ending)
  = role_line model
      :: tool_call_lines model 0 calls ++ end_lines model (lit "tool_calls")
  /\ handle_full config now model true
       (Responds true (before ++ d :: after) ending)
     = Ok {| status := 200;
             body := Completion model None (Some calls) (lit "tool_calls") |}.
Proof.
  intros Hb He Hd Ed B S1 S2 Np Nm P G E L.
  pose proof (extract_fenced config now pre ws1 mid ws2 post calls S1 S2 Np Nm
                (try_tool_calls_found _ parsed array calls P G E) L) as X.
  rewrite <- B in X. split.
  - rewrite (tool_mode_end_lines config now model before d after ending);
      [| eapply Forall_impl; [|exact Hb]; intros f [H _]; exact H
       | exact He | exact Hd].
    unfold tools_end_lines. rewrite X. reflexivity.
  - unfold handle_full.
    destruct (collect_processed config before d after ending Hb Hd Ed)
      as (pieces & -> & J).
    cbv zeta. rewrite J, X. reflexivity.
Qed.

Lemma fenced_tool_call_delivered_witness :
  stream_output default_config 0 (lit "GLM-4.5") true
    (Responds true
       ([frame "answer" (firstn 30 fenced_call) [] false]
        ++ frame "answer" (skipn 30 fenced_call) [] true :: []) EndOfData)
  = role_line (lit "GLM-4.5")
      :: tool_call_lines (lit "GLM-4.5") 0 fenced_call_result
         ++ end_lines (lit "GLM-4.5") (lit "tool_calls")
  /\ handle_full default_config 0 (lit "GLM-4.5") true
       (Responds true
          ([frame "answer" (firstn 30 fenced_call) [] false]
           ++ frame "answer" (skipn 30 fenced_call) [] true :: []) EndOfData)
     = Ok {| status := 200;
             body := Completion (lit "GLM-4.5") None (Some fenced_call_result)
                       (lit "tool_calls") |}.
Proof.
  apply (fenced_tool_call_delivered default_config 0 (lit "GLM-4.5")
           [frame "answer" (firstn 30 fenced_call) [] false]
           (frame "answer" (skipn 30 fenced_call) [] true) [] EndOfData
           [] nl
           (q "'tool_calls':[{'id':'call_1','type':'function','function':{'name':'f','arguments':{'a':1}}}]")
           nl []
           (Obj [(lit "tool_calls",
                  Arr [Obj [(lit "id", Str (lit "call_1"));
                            (lit "type", Str (lit "function"));
                            (lit "function",
                             Obj [(lit "name", Str (lit "f"));
                                  (lit "arguments",
                                   Obj [(lit "a",
                                         Num {| neg := false; coeff := 1;
                                                exp10 := 0 |})])])]])])
           [Obj [(lit "id", Str (lit "call_1"));
                 (lit "type", Str (lit "function"));
                 (lit "function",
                  Obj [(lit "name", Str (lit "f"));
                       (lit "arguments",
                        Obj [(lit "a",
                              Num {| neg := false; coeff := 1; exp10 := 0 |})])])]]
           fenced_call_result).
  - repeat constructor.
  - reflexivity.
  - reflexivity.
  - reflexivity.
  - vm_compute. reflexivity.
  - reflexivity.
  - reflexivity.
  - intros [].
  - intros I. vm_compute in I. repeat (destruct I as [I|I]; [discriminate I|]).
    exact I.
  - vm_compute. reflexivity.
  - vm_compute. reflexivity.
  - vm_compute. reflexivity.
  - apply Nat.leb_le. vm_compute. reflexivity.
Defined.

(** ** Stripping after extraction *)

Section StripAfterExtract.

Local Open Scope nat_scope.








End StripAfterExtract.


